(** * Offline-first synchronization core: a shallow embedding

    The development follows the TypeScript sources under
    [src/data/offline-first]: [types.ts] (scopes), [db.ts] (the SQLite
    store and its transactions), [outbox.ts] (the outbox queue),
    [outboxProcessor.ts] (retry and backoff), [conflicts.ts] and
    [conflictDetector.ts] (conflict rows and the default policy),
    [applyEngine.ts] (batch application), [exampleHandler.ts] and
    [deltaRunner.ts] (cursor management and the pull loop).

    Conventions of the embedding:
    - a SQLite table is the list of its rows, in insertion order; a
      [SELECT] is a [filter], an [UPDATE] a [map], a [DELETE] a [filter]
      and an [INSERT] appends a row (and throws on a duplicate primary key);
    - asynchronous code is sequential state passing over a [World], the
      single event loop of the source;
    - [Date.now()], [Math.random()] and [crypto.randomUUID()] read oracles
      carried by the [World], one reading per call;
    - a thrown exception is the [Err] result;
    - JavaScript numbers that hold times and counters are integers ([Z]);
      the delays of the backoff computation are IEEE 754 binary64 values,
      computed with the operations of the Standard Library's
      specification of floating-point arithmetic. *)

From Stdlib Require Import String Ascii List ZArith QArith Lia Bool.
From Stdlib Require Import Permutation DecimalString Sorted SpecFloat.
Import ListNotations.

Local Open Scope string_scope.
Local Open Scope Z_scope.

(** ** types.ts *)

(** [Scope]: [{ type: 'global' } | { type: string; id?: string }]. *)
Record Scope : Type := mkScope {
  scope_type : string;
  scope_id : option string
}.

(** JavaScript truthiness of an optional string: [undefined] and the empty
    string are falsy. *)
Definition truthy_string (o : option string) : bool :=
  match o with
  | None => false
  | Some s => negb (String.eqb s "")
  end.

(** [scopeKey(scope)]. *)
Definition scopeKey (scope : Scope) : string :=
  if String.eqb (scope_type scope) "global" then "global"
  else
    match scope_id scope with
    | Some i =>
        if truthy_string (Some i)
        then scope_type scope ++ ":" ++ i
        else scope_type scope
    | None => scope_type scope
    end.

(** ** JSON values and [JSON.stringify]

    The payloads and entity versions the sources type as [unknown] are JSON
    values.  Numbers are the integers. *)

#[local] Set Warnings "-register-all".

Inductive json : Type :=
| JNull
| JBool (b : bool)
| JNum (n : Z)
| JStr (s : string)
| JArr (items : list json)
| JObj (fields : list (string * json)).

Definition hex_digit (n : N) : ascii :=
  match n with
  | 0%N => "0" | 1%N => "1" | 2%N => "2" | 3%N => "3" | 4%N => "4"
  | 5%N => "5" | 6%N => "6" | 7%N => "7" | 8%N => "8" | 9%N => "9"
  | 10%N => "a" | 11%N => "b" | 12%N => "c" | 13%N => "d" | 14%N => "e"
  | _ => "f"
  end%char.

(** The double quote, character 34. *)
Definition dquote : ascii := ascii_of_N 34.

(** One character of a string literal, as [JSON.stringify] writes it. *)
Definition json_escape_char (c : ascii) : string :=
  let n := N_of_ascii c in
  if N.eqb n 34 then String "\" (String dquote "")
  else if N.eqb n 92 then "\\"
  else if N.eqb n 8 then "\b"
  else if N.eqb n 9 then "\t"
  else if N.eqb n 10 then "\n"
  else if N.eqb n 12 then "\f"
  else if N.eqb n 13 then "\r"
  else if N.ltb n 32 then
    "\u00" ++ String (hex_digit (N.div n 16)) (String (hex_digit (N.modulo n 16)) "")
  else String c "".

Fixpoint json_escape (s : string) : string :=
  match s with
  | EmptyString => ""
  | String c s' => json_escape_char c ++ json_escape s'
  end.

(** A quoted string literal. *)
Definition json_quote (s : string) : string :=
  String dquote (json_escape s ++ String dquote "").

Fixpoint join (sep : string) (l : list string) : string :=
  match l with
  | [] => ""
  | [x] => x
  | x :: rest => x ++ sep ++ join sep rest
  end.

(** Decimal notation of an integer. *)
Definition Z_to_string (n : Z) : string :=
  DecimalString.NilZero.string_of_int (Z.to_int n).

(** [JSON.stringify(value)], without indentation. *)
Fixpoint JSON_stringify (v : json) : string :=
  match v with
  | JNull => "null"
  | JBool true => "true"
  | JBool false => "false"
  | JNum n => Z_to_string n
  | JStr s => json_quote s
  | JArr items => "[" ++ join "," (map JSON_stringify items) ++ "]"
  | JObj fields =>
      "{" ++ join ","
               (map (fun kv => json_quote (fst kv) ++ ":" ++ JSON_stringify (snd kv))
                    fields)
          ++ "}"
  end.

(** Property access [value.key] on a JSON object ([None] is [undefined]);
    on a value that is not an object the access yields [undefined] too,
    except on [null], where JavaScript throws (see [ExampleDeltaHandler]). *)
Fixpoint lookup_field (key : string) (fields : list (string * json)) : option json :=
  match fields with
  | [] => None
  | (k, v) :: rest =>
      match lookup_field key rest with
      | Some v' => Some v'
      | None => if String.eqb k key then Some v else None
      end
  end.

Definition json_get (v : json) (key : string) : option json :=
  match v with
  | JObj fields => lookup_field key fields
  | _ => None
  end.

(** ** JavaScript numbers

    A [number] is an IEEE 754 binary64 value: a [spec_float] at precision
    53 with maximal exponent 1024.  The arithmetic operators round to
    nearest, ties to even. *)

Definition number : Type := spec_float.

(** The number nearest to an integer. *)
Definition number_of_Z (z : Z) : number := binary_normalize 53 1024 z 0 false.

(** The quotient of the numbers nearest to the numerator and to the
    denominator: the number nearest to a rational whose numerator and
    denominator are below [2^53], such as a decimal literal of the
    source. *)
Definition number_of_Q (q : Q) : number :=
  SFdiv 53 1024 (number_of_Z (Qnum q)) (number_of_Z (Zpos (Qden q))).

(** [x + y], [x - y], [x * y]. *)
Definition num_add (x y : number) : number := SFadd 53 1024 x y.
Definition num_sub (x y : number) : number := SFsub 53 1024 x y.
Definition num_mul (x y : number) : number := SFmul 53 1024 x y.

(** [x >= y]: false when either is [NaN]. *)
Definition num_ge (x y : number) : bool :=
  match SFcompare x y with
  | Some Gt | Some Eq => true
  | Some Lt | None => false
  end.

(** [x <= y]: false when either is [NaN]. *)
Definition num_le (x y : number) : bool :=
  match SFcompare x y with
  | Some Lt | Some Eq => true
  | Some Gt | None => false
  end.

(** [Math.min(x, y)]: [NaN] when either is [NaN]; [-0] is below [+0]. *)
Definition Math_min (x y : number) : number :=
  match SFcompare x y with
  | Some Lt => x
  | Some Gt => y
  | Some Eq => match x with S754_zero true => x | _ => y end
  | None => S754_nan
  end.

(** [Math.max(x, y)]: [NaN] when either is [NaN]; [+0] is above [-0]. *)
Definition Math_max (x y : number) : number :=
  match SFcompare x y with
  | Some Gt => x
  | Some Lt => y
  | Some Eq => match x with S754_zero false => x | _ => y end
  | None => S754_nan
  end.

(** [Math.pow(2, n)] at an integer [n]: the power of two where it is a
    number, [Infinity] from [2^1024] on, and below the least subnormal
    number [+0]. *)
Definition Math_pow_2 (n : Z) : number :=
  if 1023 <? n then S754_infinity false
  else SFldexp 53 1024 (SFone 53 1024) n.

(** Structural equality of numbers, as a test. *)
Definition number_eqb (x y : number) : bool :=
  match x, y with
  | S754_zero s, S754_zero s' => Bool.eqb s s'
  | S754_infinity s, S754_infinity s' => Bool.eqb s s'
  | S754_nan, S754_nan => true
  | S754_finite s m e, S754_finite s' m' e' =>
      (Bool.eqb s s' && Pos.eqb m m' && Z.eqb e e')%bool
  | _, _ => false
  end.

(** ** SQLite's [LIKE]

    [%] matches any run of characters, [_] any one character, and letters
    of the ASCII range match without regard to case. *)

Definition ascii_lower (c : ascii) : ascii :=
  let n := N_of_ascii c in
  if (N.leb 65 n && N.leb n 90)%bool then ascii_of_N (n + 32) else c.

Definition like_char_eq (c d : ascii) : bool :=
  Ascii.eqb (ascii_lower c) (ascii_lower d).

Fixpoint sql_like (pattern : string) : string -> bool :=
  match pattern with
  | EmptyString =>
      fun s => match s with EmptyString => true | String _ _ => false end
  | String c p' =>
      if Ascii.eqb c "%" then
        fix star (s : string) : bool :=
          (sql_like p' s
           || match s with
              | EmptyString => false
              | String _ s' => star s'
              end)%bool
      else if Ascii.eqb c "_" then
        fun s =>
          match s with
          | EmptyString => false
          | String _ s' => sql_like p' s'
          end
      else
        fun s =>
          match s with
          | EmptyString => false
          | String d s' => (like_char_eq c d && sql_like p' s')%bool
          end
  end.

(** ** db.ts: the local store

    The tables of migrations 1 and 2 that the synchronization core uses. *)

Inductive OutboxOpType : Type := OpUpsert | OpDelete | OpCustom.

Inductive OutboxOpState : Type :=
| Pending | InFlight | Succeeded | Failed | Blocked.

Definition OutboxOpState_eqb (a b : OutboxOpState) : bool :=
  match a, b with
  | Pending, Pending | InFlight, InFlight | Succeeded, Succeeded
  | Failed, Failed | Blocked, Blocked => true
  | _, _ => false
  end.

(** A row of [outbox_ops]; [OutboxOp] of outbox.ts has the same fields
    ([mapRowToOp] renames them one by one). *)
Record OutboxOp : Type := mkOutboxOp {
  op_id : string;
  op_scopeKey : string;
  op_entityKey : string;
  op_opType : OutboxOpType;
  op_idempotencyKey : string;
  op_payloadJson : string;
  op_attemptCount : Z;
  op_state : OutboxOpState;
  op_lastErrorJson : option string;
  op_createdAt : Z;
  op_updatedAt : Z
}.

(** A row of [conflicts]; [Conflict] of conflicts.ts. *)
Record Conflict : Type := mkConflict {
  c_id : string;
  c_scopeKey : string;
  c_entityKey : string;
  c_entityId : string;
  c_localVersionJson : string;
  c_remoteVersionJson : string;
  c_createdAt : Z;
  c_resolvedAt : option Z
}.

(** A row of [sync_cursors], primary key [(scope_key, collection_key)]. *)
Record CursorRow : Type := mkCursorRow {
  cur_scopeKey : string;
  cur_collectionKey : string;
  cur_cursor : string;
  cur_updatedAt : Z
}.

(** A row of [example_items].  SQLite stores what is bound to the
    statement, so the three value columns hold JSON values. *)
Record ExampleItemRow : Type := mkExampleItemRow {
  item_id : string;
  item_name : json;
  item_updatedAt : json;
  item_createdAt : json
}.

Record DB : Type := mkDB {
  outbox_ops : list OutboxOp;
  conflicts : list Conflict;
  sync_cursors : list CursorRow;
  example_items : list ExampleItemRow
}.

Definition emptyDB : DB := mkDB [] [] [] [].

(** The state of the event loop: the opened database and the oracles
    behind [Date.now()], [Math.random()] and [crypto.randomUUID()], each
    with the number of readings taken so far. *)
Record World : Type := mkWorld {
  db : DB;
  clock : nat -> Z;
  clock_reads : nat;
  random : nat -> number;
  random_reads : nat;
  uuids : nat -> string;
  uuid_reads : nat
}.

Definition set_db (w : World) (d : DB) : World :=
  mkWorld d (clock w) (clock_reads w) (random w) (random_reads w)
          (uuids w) (uuid_reads w).

(** A thrown [Error], by its message. *)
Inductive Error : Type := mkError (message : string).

Inductive Result (A : Type) : Type :=
| Ok (value : A)
| Err (error : Error).
Arguments Ok {A} value.
Arguments Err {A} error.

(** Asynchronous code over the store: the final world and what was returned
    or thrown. *)
Definition Async (A : Type) : Type := World -> World * Result A.

Definition ret {A : Type} (a : A) : Async A := fun w => (w, Ok a).

Definition throw {A : Type} (e : Error) : Async A := fun w => (w, Err e).

Definition bind {A B : Type} (m : Async A) (k : A -> Async B) : Async B :=
  fun w =>
    match m w with
    | (w', Ok a) => k a w'
    | (w', Err e) => (w', Err e)
    end.

Declare Scope async_scope.
Delimit Scope async_scope with async.
Notation "x <- m ;; k" := (bind m (fun x => k))
  (at level 61, m at next level, right associativity) : async_scope.
Notation "m ;;; k" := (bind m (fun _ => k))
  (at level 61, right associativity) : async_scope.
Local Open Scope async_scope.

Definition getDB : Async DB := fun w => (w, Ok (db w)).

Definition putDB (d : DB) : Async unit := fun w => (set_db w d, Ok tt).

(** [nowMs()], that is [Date.now()]. *)
Definition nowMs : Async Z :=
  fun w =>
    (mkWorld (db w) (clock w) (S (clock_reads w)) (random w) (random_reads w)
             (uuids w) (uuid_reads w),
     Ok (clock w (clock_reads w))).

(** [Math.random()]. *)
Definition Math_random : Async number :=
  fun w =>
    (mkWorld (db w) (clock w) (clock_reads w) (random w) (S (random_reads w))
             (uuids w) (uuid_reads w),
     Ok (random w (random_reads w))).

(** [generateUUID()]. *)
Definition generateUUID : Async string :=
  fun w =>
    (mkWorld (db w) (clock w) (clock_reads w) (random w) (random_reads w)
             (uuids w) (S (uuid_reads w)),
     Ok (uuids w (uuid_reads w))).

(** [withTransaction(db, fn)]: the writes of [fn] are kept when it returns
    and undone when it throws; the error is thrown again. *)
Definition withTransaction {A : Type} (fn : Async A) : Async A :=
  fun w =>
    match fn w with
    | (w', Ok a) => (w', Ok a)
    | (w', Err e) => (set_db w' (db w), Err e)
    end.

(** [safeJsonEncode(value)]: [JSON.stringify] does not throw on a JSON
    value. *)
Definition safeJsonEncode (v : json) : string := JSON_stringify v.

(** ** SQL helpers *)

(** [ORDER BY key ASC]: a stable insertion sort (rows with equal keys keep
    the order of the table). *)
Fixpoint insert_by {A : Type} (key : A -> Z) (x : A) (l : list A) : list A :=
  match l with
  | [] => [x]
  | y :: ys => if key x <=? key y then x :: y :: ys else y :: insert_by key x ys
  end.

Fixpoint order_by {A : Type} (key : A -> Z) (l : list A) : list A :=
  match l with
  | [] => []
  | x :: xs => insert_by key x (order_by key xs)
  end.

(** [ORDER BY key DESC]. *)
Definition order_by_desc {A : Type} (key : A -> Z) (l : list A) : list A :=
  order_by (fun r => - key r) l.

(** [id IN (?, ?, ...)]. *)
Definition id_in (ids : list string) (i : string) : bool :=
  existsb (String.eqb i) ids.

(** [UPDATE ... SET ... WHERE cond]. *)
Definition update_where {A : Type} (cond : A -> bool) (set : A -> A) (l : list A)
  : list A :=
  map (fun r => if cond r then set r else r) l.

(** ** outbox.ts *)

Definition OutboxOpType_to_string (t : OutboxOpType) : string :=
  match t with
  | OpUpsert => "upsert"
  | OpDelete => "delete"
  | OpCustom => "custom"
  end.

Record EnqueueOptions : Type := mkEnqueueOptions {
  eo_scope : Scope;
  eo_entityKey : string;
  eo_opType : OutboxOpType;
  eo_payload : json;
  eo_idempotencyKey : option string
}.

(** An error object [{ code, message }]. *)
Record OpError : Type := mkOpError {
  err_code : string;
  err_message : string
}.

Definition OpError_to_json (e : OpError) : json :=
  JObj [("code", JStr (err_code e)); ("message", JStr (err_message e))].

Definition set_outbox (d : DB) (ops : list OutboxOp) : DB :=
  mkDB ops (conflicts d) (sync_cursors d) (example_items d).

Definition set_op_state (st : OutboxOpState) (now : Z) (op : OutboxOp) : OutboxOp :=
  mkOutboxOp (op_id op) (op_scopeKey op) (op_entityKey op) (op_opType op)
             (op_idempotencyKey op) (op_payloadJson op) (op_attemptCount op)
             st (op_lastErrorJson op) (op_createdAt op) now.

(** [INSERT INTO outbox_ops]: the primary key [id] is unique. *)
Definition insert_outbox (row : OutboxOp) : Async unit :=
  d <- getDB ;;
  if id_in (map op_id (outbox_ops d)) (op_id row)
  then throw (mkError "UNIQUE constraint failed: outbox_ops.id")
  else putDB (set_outbox d (outbox_ops d ++ [row])).

Module Outbox.

(** [Outbox.enqueue(options)]. *)
Definition enqueue (options : EnqueueOptions) : Async string :=
  opId <- generateUUID ;;
  idempotencyKey <-
    (if truthy_string (eo_idempotencyKey options)
     then ret (match eo_idempotencyKey options with Some k => k | None => "" end)
     else
       u <- generateUUID ;;
       ret (eo_entityKey options ++ ":"
            ++ OutboxOpType_to_string (eo_opType options) ++ ":" ++ u)) ;;
  let scopeKeyStr := scopeKey (eo_scope options) in
  now <- nowMs ;;
  withTransaction
    (insert_outbox
       (mkOutboxOp opId scopeKeyStr (eo_entityKey options) (eo_opType options)
                   idempotencyKey (safeJsonEncode (eo_payload options))
                   0 Pending None now now)) ;;;
  ret opId.

(** [Outbox.resetStaleInFlight(scope, staleMs)]; the default [staleMs] is
    five minutes.  Returns the number of rows changed. *)
Definition resetStaleInFlight_with (scope : Scope) (staleMs : Z) : Async nat :=
  let scopeKeyStr := scopeKey scope in
  now <- nowMs ;;
  let staleThreshold := now - staleMs in
  let stale (op : OutboxOp) :=
    (String.eqb (op_scopeKey op) scopeKeyStr
     && OutboxOpState_eqb (op_state op) InFlight
     && (op_updatedAt op <? staleThreshold))%bool in
  d <- getDB ;;
  putDB (set_outbox d (update_where stale (set_op_state Pending now) (outbox_ops d))) ;;;
  ret (length (filter stale (outbox_ops d))).

Definition resetStaleInFlight (scope : Scope) : Async nat :=
  resetStaleInFlight_with scope (5 * 60 * 1000).

(** [Outbox.getPending(scope, limit)]. *)
Definition getPending (scope : Scope) (limit : nat) : Async (list OutboxOp) :=
  let scopeKeyStr := scopeKey scope in
  d <- getDB ;;
  ret (firstn limit
         (order_by op_createdAt
            (filter (fun op => (String.eqb (op_scopeKey op) scopeKeyStr
                                && OutboxOpState_eqb (op_state op) Pending)%bool)
                    (outbox_ops d)))).

(** [Outbox.claimByIds(opIds)]. *)
Definition claimByIds (opIds : list string) : Async unit :=
  match opIds with
  | [] => ret tt
  | _ :: _ =>
      now <- nowMs ;;
      d <- getDB ;;
      putDB (set_outbox d
               (update_where
                  (fun op => (id_in opIds (op_id op)
                              && OutboxOpState_eqb (op_state op) Pending)%bool)
                  (set_op_state InFlight now)
                  (outbox_ops d)))
  end.

(** [Outbox.getByIds(opIds)]. *)
Definition getByIds (opIds : list string) : Async (list OutboxOp) :=
  match opIds with
  | [] => ret []
  | _ :: _ =>
      d <- getDB ;;
      ret (filter (fun op => id_in opIds (op_id op)) (outbox_ops d))
  end.

(** [Outbox.claimPending(scope, limit)]. *)
Definition claimPending (scope : Scope) (limit : nat) : Async (list OutboxOp) :=
  resetStaleInFlight scope ;;;
  pending <- getPending scope limit ;;
  let opIds := map op_id pending in
  claimByIds opIds ;;;
  getByIds opIds.

(** [Outbox.updateState(opId, state, error?)]. *)
Definition updateState (opId : string) (st : OutboxOpState) (error : option OpError)
  : Async unit :=
  now <- nowMs ;;
  d <- getDB ;;
  putDB (set_outbox d
           (update_where
              (fun op => String.eqb (op_id op) opId)
              (fun op =>
                 mkOutboxOp (op_id op) (op_scopeKey op) (op_entityKey op)
                            (op_opType op) (op_idempotencyKey op)
                            (op_payloadJson op) (op_attemptCount op) st
                            (match error with
                             | Some e => Some (safeJsonEncode (OpError_to_json e))
                             | None => None
                             end)
                            (op_createdAt op) now)
              (outbox_ops d))).

(** [Outbox.markForRetry(opId)]. *)
Definition markForRetry (opId : string) : Async unit :=
  now <- nowMs ;;
  d <- getDB ;;
  putDB (set_outbox d
           (update_where
              (fun op => String.eqb (op_id op) opId)
              (fun op =>
                 mkOutboxOp (op_id op) (op_scopeKey op) (op_entityKey op)
                            (op_opType op) (op_idempotencyKey op)
                            (op_payloadJson op) (op_attemptCount op + 1) Pending
                            (op_lastErrorJson op) (op_createdAt op) now)
              (outbox_ops d))).

(** [Outbox.countPending(scope)]. *)
Definition countPending (scope : Scope) : Async nat :=
  let scopeKeyStr := scopeKey scope in
  d <- getDB ;;
  ret (length
         (filter (fun op => (String.eqb (op_scopeKey op) scopeKeyStr
                             && OutboxOpState_eqb (op_state op) Pending)%bool)
                 (outbox_ops d))).

(** The pattern bound to [payload_json LIKE ?]. *)
Definition entity_id_pattern (entityId : string) : string :=
  "%" ++ String dquote "id" ++ String dquote ":"
      ++ String dquote entityId ++ String dquote "%".

(** The [WHERE] clause shared by the two entity lookups. *)
Definition pending_for_entity (scopeKeyStr entityKey entityId : string)
           (op : OutboxOp) : bool :=
  (String.eqb (op_scopeKey op) scopeKeyStr
   && String.eqb (op_entityKey op) entityKey
   && (OutboxOpState_eqb (op_state op) Pending
       || OutboxOpState_eqb (op_state op) InFlight)
   && sql_like (entity_id_pattern entityId) (op_payloadJson op))%bool.

(** [Outbox.hasPendingOpsForEntity(scope, entityKey, entityId)]. *)
Definition hasPendingOpsForEntity (scope : Scope) (entityKey entityId : string)
  : Async bool :=
  let scopeKeyStr := scopeKey scope in
  d <- getDB ;;
  let count :=
    length (filter (pending_for_entity scopeKeyStr entityKey entityId)
                   (outbox_ops d)) in
  ret (0 <? Z.of_nat count).

(** [Outbox.getPendingOpsForEntity(scope, entityKey, entityId)]. *)
Definition getPendingOpsForEntity (scope : Scope) (entityKey entityId : string)
  : Async (list OutboxOp) :=
  let scopeKeyStr := scopeKey scope in
  d <- getDB ;;
  ret (order_by op_createdAt
         (filter (pending_for_entity scopeKeyStr entityKey entityId)
                 (outbox_ops d))).

(** [Outbox.deleteSucceeded(scope, olderThanMs?)].  The cutoff applies
    when [olderThanMs] is truthy: neither [undefined] nor [0].  Returns the
    number of rows deleted. *)
Definition deleteSucceeded (scope : Scope) (olderThanMs : option Z) : Async nat :=
  let scopeKeyStr := scopeKey scope in
  match olderThanMs with
  | Some ms =>
      if negb (ms =? 0) then
        now <- nowMs ;;
        let cutoff := now - ms in
        let gone (op : OutboxOp) :=
          (String.eqb (op_scopeKey op) scopeKeyStr
           && OutboxOpState_eqb (op_state op) Succeeded
           && (op_updatedAt op <? cutoff))%bool in
        d <- getDB ;;
        putDB (set_outbox d (filter (fun op => negb (gone op)) (outbox_ops d))) ;;;
        ret (length (filter gone (outbox_ops d)))
      else
        let gone (op : OutboxOp) :=
          (String.eqb (op_scopeKey op) scopeKeyStr
           && OutboxOpState_eqb (op_state op) Succeeded)%bool in
        d <- getDB ;;
        putDB (set_outbox d (filter (fun op => negb (gone op)) (outbox_ops d))) ;;;
        ret (length (filter gone (outbox_ops d)))
  | None =>
      let gone (op : OutboxOp) :=
        (String.eqb (op_scopeKey op) scopeKeyStr
         && OutboxOpState_eqb (op_state op) Succeeded)%bool in
      d <- getDB ;;
      putDB (set_outbox d (filter (fun op => negb (gone op)) (outbox_ops d))) ;;;
      ret (length (filter gone (outbox_ops d)))
  end.

(** [Outbox.countByState(scope, state)]. *)
Definition countByState (scope : Scope) (st : OutboxOpState) : Async nat :=
  let scopeKeyStr := scopeKey scope in
  d <- getDB ;;
  ret (length
         (filter (fun op => (String.eqb (op_scopeKey op) scopeKeyStr
                             && OutboxOpState_eqb (op_state op) st)%bool)
                 (outbox_ops d))).

(** [Outbox.getRecentOps(scope, limit)]. *)
Definition getRecentOps (scope : Scope) (limit : nat) : Async (list OutboxOp) :=
  let scopeKeyStr := scopeKey scope in
  d <- getDB ;;
  ret (firstn limit
         (order_by_desc op_createdAt
            (filter (fun op => String.eqb (op_scopeKey op) scopeKeyStr)
                    (outbox_ops d)))).

End Outbox.

(** ** adapters.ts: the push adapter *)

Inductive OutboxPushResult : Type :=
| PushSucceeded (opId : string)
| PushFailed (opId : string) (retryable : bool) (error : OpError)
| PushBlocked (opId : string) (reason : string).

Definition result_opId (r : OutboxPushResult) : string :=
  match r with
  | PushSucceeded i => i
  | PushFailed i _ _ => i
  | PushBlocked i _ => i
  end.

Record OutboxOpPayload : Type := mkOutboxOpPayload {
  pl_id : string;
  pl_entityKey : string;
  pl_opType : OutboxOpType;
  pl_payload : json;
  pl_idempotencyKey : string
}.

(** [RemoteOutboxAdapter]: an object with private state [S] and the method
    [pushOps(scope, ops)], which returns the results or throws.  The adapter
    is remote: it does not write to the local store. *)
Record RemoteOutboxAdapter (S : Type) : Type := mkRemoteOutboxAdapter {
  pushOps : S -> Scope -> list OutboxOpPayload -> S * Result (list OutboxPushResult)
}.
Arguments pushOps {S} _ _ _ _.

(** [StubOutboxAdapter]: its state is [(behavior, failCount)]. *)
Inductive StubBehavior : Type :=
| StubSucceed | StubFail | StubFailThenSucceed | StubBlock.

Definition stub_push_one (behavior : StubBehavior) (failCount : nat)
           (op : OutboxOpPayload) : nat * OutboxPushResult :=
  match behavior with
  | StubSucceed => (failCount, PushSucceeded (pl_id op))
  | StubFail =>
      (failCount,
       PushFailed (pl_id op) true
                  (mkOpError "stub_error" "Stub adapter: simulated failure"))
  | StubFailThenSucceed =>
      if (failCount <? 1)%nat
      then (S failCount,
            PushFailed (pl_id op) true
                       (mkOpError "stub_error"
                                  "Stub adapter: fail then succeed (attempt 1)"))
      else (failCount, PushSucceeded (pl_id op))
  | StubBlock =>
      (failCount,
       PushBlocked (pl_id op) "Stub adapter: simulated block (e.g. auth required)")
  end.

Fixpoint stub_push (behavior : StubBehavior) (failCount : nat)
         (ops : list OutboxOpPayload) : nat * list OutboxPushResult :=
  match ops with
  | [] => (failCount, [])
  | op :: rest =>
      let '(fc, r) := stub_push_one behavior failCount op in
      let '(fc', rs) := stub_push behavior fc rest in
      (fc', r :: rs)
  end.

Definition StubOutboxAdapter : RemoteOutboxAdapter (StubBehavior * nat) :=
  mkRemoteOutboxAdapter _
    (fun st _ ops =>
       let '(fc, rs) := stub_push (fst st) (snd st) ops in
       ((fst st, fc), Ok rs)).

(** ** outboxProcessor.ts *)

Record OutboxProcessorConfig : Type := mkOutboxProcessorConfig {
  batchSize : nat;
  maxAttempts : Z;
  backoffMs : number;
  maxBackoffMs : number
}.

Definition DEFAULT_CONFIG : OutboxProcessorConfig :=
  mkOutboxProcessorConfig 10 5 (number_of_Z 1000) (number_of_Z 60000).

(** [Math.min(baseMs * Math.pow(2, attemptCount), maxMs)], the delay before
    the jitter. *)
Definition exponentialDelay (attemptCount : Z) (baseMs maxMs : number) : number :=
  Math_min (num_mul baseMs (Math_pow_2 attemptCount)) maxMs.

(** The body of [calculateBackoff] at a given draw of [Math.random()]:
    [exponentialDelay * 0.2 * (draw * 2 - 1)] is the jitter. *)
Definition backoff_at (r : number) (attemptCount : Z) (baseMs maxMs : number)
  : number :=
  let e := exponentialDelay attemptCount baseMs maxMs in
  let jitter :=
    num_mul (num_mul e (number_of_Q (2 # 10)))
            (num_sub (num_mul r (number_of_Z 2)) (number_of_Z 1)) in
  Math_max (number_of_Z 0) (num_add e jitter).

(** [calculateBackoff(attemptCount, baseMs, maxMs)]. *)
Definition calculateBackoff (attemptCount : Z) (baseMs maxMs : number)
  : Async number :=
  r <- Math_random ;;
  ret (backoff_at r attemptCount baseMs maxMs).

(** [isBackoffElapsed(op, config)]. *)
Definition isBackoffElapsed (op : OutboxOp) (config : OutboxProcessorConfig)
  : Async bool :=
  if op_attemptCount op =? 0 then ret true
  else
    backoffDelay <- calculateBackoff (op_attemptCount op - 1)
                                     (backoffMs config) (maxBackoffMs config) ;;
    now <- nowMs ;;
    let timeSinceUpdate :=
      num_sub (number_of_Z now) (number_of_Z (op_updatedAt op)) in
    ret (num_ge timeSinceUpdate backoffDelay).

(** [array.filter(pred)] with a predicate that reads the oracles: every
    element is tested, in order. *)
Fixpoint filterM {A : Type} (pred : A -> Async bool) (l : list A) : Async (list A) :=
  match l with
  | [] => ret []
  | x :: xs =>
      keep <- pred x ;;
      rest <- filterM pred xs ;;
      ret (if keep then x :: rest else rest)
  end.

(** [for (const x of xs) { await body(x) }]. *)
Fixpoint forEachM {A : Type} (body : A -> Async unit) (l : list A) : Async unit :=
  match l with
  | [] => ret tt
  | x :: xs => body x ;;; forEachM body xs
  end.

(** [new Map(results.map(r => [r.opId, r])).get(opId)]: of two results with
    one id the later one is kept. *)
Fixpoint resultsById_get (results : list OutboxPushResult) (opId : string)
  : option OutboxPushResult :=
  match results with
  | [] => None
  | r :: rest =>
      match resultsById_get rest opId with
      | Some r' => Some r'
      | None => if String.eqb (result_opId r) opId then Some r else None
      end
  end.

Section WithJsonParser.

(** [JSON.parse(text)]; [None] when it throws a [SyntaxError]. *)
Variable JSON_parse : string -> option json.

(** [safeJsonDecode(json)]: [null] when the text does not parse. *)
Definition safeJsonDecode (text : string) : json :=
  match JSON_parse text with
  | Some v => v
  | None => JNull
  end.

(** The fields of the class [OutboxProcessor]; [adapterState] is the
    private state of the adapter object the processor holds. *)
Record OutboxProcessor (S : Type) : Type := mkOutboxProcessor {
  config : OutboxProcessorConfig;
  adapter : RemoteOutboxAdapter S;
  adapterState : S;
  isProcessing : bool;
  processingScope : option Scope
}.
Arguments mkOutboxProcessor {S} _ _ _ _ _.
Arguments config {S} _.
Arguments adapter {S} _.
Arguments adapterState {S} _.
Arguments isProcessing {S} _.
Arguments processingScope {S} _.

(** [new OutboxProcessor(adapter, config)]. *)
Definition newOutboxProcessor {S : Type} (a : RemoteOutboxAdapter S) (s : S)
           (cfg : OutboxProcessorConfig) : OutboxProcessor S :=
  mkOutboxProcessor cfg a s false None.

(** [processBatch], from [resetStaleInFlight] to [claimByIds]: the ops to
    push, or [None] where the source returns [0] early. *)
Definition selectReadyOps (cfg : OutboxProcessorConfig) (scope : Scope)
  : Async (option (list OutboxOp)) :=
  Outbox.resetStaleInFlight scope ;;;
  pendingOps <- Outbox.getPending scope (batchSize cfg * 5) ;;
  if (length pendingOps =? 0)%nat then ret None
  else
    let exhaustedOps :=
      filter (fun op => maxAttempts cfg <=? op_attemptCount op) pendingOps in
    forEachM
      (fun op =>
         Outbox.updateState (op_id op) Failed
           (Some (mkOpError "max_attempts" "Max retry attempts reached")))
      exhaustedOps ;;;
    let retryCandidates :=
      filter (fun op => op_attemptCount op <? maxAttempts cfg) pendingOps in
    elapsed <- filterM (fun op => isBackoffElapsed op cfg) retryCandidates ;;
    let readyOps := firstn (batchSize cfg) elapsed in
    if (length readyOps =? 0)%nat then ret None
    else
      Outbox.claimByIds (map op_id readyOps) ;;;
      ret (Some readyOps).

(** The adapter format of a claimed op. *)
Definition toAdapterOp (op : OutboxOp) : OutboxOpPayload :=
  mkOutboxOpPayload (op_id op) (op_entityKey op) (op_opType op)
                    (safeJsonDecode (op_payloadJson op)) (op_idempotencyKey op).

(** One turn of the loop over [readyOps]; the value is what the turn adds
    to [processedCount]. *)
Definition reconcileOp (cfg : OutboxProcessorConfig)
           (results : list OutboxPushResult) (op : OutboxOp) : Async nat :=
  match resultsById_get results (op_id op) with
  | None =>
      Outbox.markForRetry (op_id op) ;;;
      Outbox.updateState (op_id op) Pending
        (Some (mkOpError "missing_result"
                         "Adapter did not return a result for this operation")) ;;;
      ret 0%nat
  | Some (PushSucceeded _) =>
      Outbox.updateState (op_id op) Succeeded None ;;;
      ret 1%nat
  | Some (PushFailed _ retryable error) =>
      if (retryable && (op_attemptCount op + 1 <? maxAttempts cfg))%bool
      then
        Outbox.markForRetry (op_id op) ;;;
        Outbox.updateState (op_id op) Pending (Some error) ;;;
        ret 0%nat
      else
        Outbox.updateState (op_id op) Failed (Some error) ;;;
        ret 0%nat
  | Some (PushBlocked _ reason) =>
      Outbox.updateState (op_id op) Blocked (Some (mkOpError "blocked" reason)) ;;;
      ret 0%nat
  end.

(** The loop over [readyOps]; the value is [processedCount]. *)
Fixpoint reconcile (cfg : OutboxProcessorConfig)
         (results : list OutboxPushResult) (readyOps : list OutboxOp) : Async nat :=
  match readyOps with
  | [] => ret 0%nat
  | op :: rest =>
      n <- reconcileOp cfg results op ;;
      m <- reconcile cfg results rest ;;
      ret (n + m)%nat
  end.

(** [OutboxProcessor.processBatch(scope)]: the processor after the call,
    the world after the call, and the returned count or the thrown error.
    The [finally] block clears [isProcessing] and [processingScope] on every
    path through the [try]; the guard before the [try] leaves them alone. *)
Definition processBatch {S : Type} (p : OutboxProcessor S) (scope : Scope)
           (w : World) : OutboxProcessor S * World * Result nat :=
  if isProcessing p then (p, w, Ok 0%nat)
  else
    let finally (s : S) := mkOutboxProcessor (config p) (adapter p) s false None in
    match selectReadyOps (config p) scope w with
    | (w1, Err e) => (finally (adapterState p), w1, Err e)
    | (w1, Ok None) => (finally (adapterState p), w1, Ok 0%nat)
    | (w1, Ok (Some readyOps)) =>
        match pushOps (adapter p) (adapterState p) scope (map toAdapterOp readyOps) with
        | (s', Err e) => (finally s', w1, Err e)
        | (s', Ok results) =>
            let '(w2, r) := reconcile (config p) results readyOps w1 in
            (finally s', w2, r)
        end
    end.

(** ** conflicts.ts *)

Definition set_conflicts (d : DB) (cs : list Conflict) : DB :=
  mkDB (outbox_ops d) cs (sync_cursors d) (example_items d).

(** [scope_key = ? AND entity_key = ? AND entity_id = ? AND resolved_at IS NULL]. *)
Definition unresolved_for (sk entityKey entityId : string) (c : Conflict) : bool :=
  (String.eqb (c_scopeKey c) sk
   && String.eqb (c_entityKey c) entityKey
   && String.eqb (c_entityId c) entityId
   && match c_resolvedAt c with None => true | Some _ => false end)%bool.

(** [INSERT INTO conflicts]: the primary key [id] is unique. *)
Definition insert_conflict (row : Conflict) : Async unit :=
  d <- getDB ;;
  if id_in (map c_id (conflicts d)) (c_id row)
  then throw (mkError "UNIQUE constraint failed: conflicts.id")
  else putDB (set_conflicts d (conflicts d ++ [row])).

(** The callback [createConflict] runs, inside a transaction or not. *)
Definition createConflict_body (sk entityKey entityId : string)
           (localVersion remoteVersion : json) (conflictId : string) (now : Z)
  : Async unit :=
  d <- getDB ;;
  match find (unresolved_for sk entityKey entityId) (conflicts d) with
  | Some existing =>
      putDB (set_conflicts d
               (update_where
                  (fun c => String.eqb (c_id c) (c_id existing))
                  (fun c =>
                     mkConflict (c_id c) (c_scopeKey c) (c_entityKey c) (c_entityId c)
                                (safeJsonEncode localVersion)
                                (safeJsonEncode remoteVersion)
                                now (c_resolvedAt c))
                  (conflicts d)))
  | None =>
      insert_conflict
        (mkConflict conflictId sk entityKey entityId
                    (safeJsonEncode localVersion) (safeJsonEncode remoteVersion)
                    now None)
  end.

(** [createConflict(scope, entityKey, entityId, localVersion, remoteVersion,
    options)]; [useTransaction] is [options?.useTransaction !== false].  The
    returned id is the fresh one, also when an existing row was updated. *)
Definition createConflict (scope : Scope) (entityKey entityId : string)
           (localVersion remoteVersion : json) (useTransaction : bool)
  : Async string :=
  let sk := scopeKey scope in
  conflictId <- generateUUID ;;
  now <- nowMs ;;
  let body :=
    createConflict_body sk entityKey entityId localVersion remoteVersion
                        conflictId now in
  (if useTransaction then withTransaction body else body) ;;;
  ret conflictId.

(** [resolveConflict(conflictId)]. *)
Definition resolveConflict (conflictId : string) : Async unit :=
  now <- nowMs ;;
  d <- getDB ;;
  putDB (set_conflicts d
           (update_where
              (fun c => String.eqb (c_id c) conflictId)
              (fun c =>
                 mkConflict (c_id c) (c_scopeKey c) (c_entityKey c) (c_entityId c)
                            (c_localVersionJson c) (c_remoteVersionJson c)
                            (c_createdAt c) (Some now))
              (conflicts d))).

(** [getUnresolvedConflicts(scope)]. *)
Definition getUnresolvedConflicts (scope : Scope) : Async (list Conflict) :=
  let sk := scopeKey scope in
  d <- getDB ;;
  ret (order_by_desc c_createdAt
         (filter (fun c => (String.eqb (c_scopeKey c) sk
                            && match c_resolvedAt c with
                               | None => true
                               | Some _ => false
                               end)%bool)
                 (conflicts d))).

(** [countUnresolvedConflicts(scope)]. *)
Definition countUnresolvedConflicts (scope : Scope) : Async nat :=
  cs <- getUnresolvedConflicts scope ;;
  ret (length cs).

(** [hasConflict(scope, entityKey, entityId)]. *)
Definition hasConflict (scope : Scope) (entityKey entityId : string) : Async bool :=
  let sk := scopeKey scope in
  d <- getDB ;;
  let count := length (filter (unresolved_for sk entityKey entityId) (conflicts d)) in
  ret (0 <? Z.of_nat count).

(** [resolveConflictsForEntity(scope, entityKey, entityId)]; returns the
    number of rows changed. *)
Definition resolveConflictsForEntity (scope : Scope) (entityKey entityId : string)
  : Async nat :=
  let sk := scopeKey scope in
  now <- nowMs ;;
  d <- getDB ;;
  putDB (set_conflicts d
           (update_where
              (unresolved_for sk entityKey entityId)
              (fun c =>
                 mkConflict (c_id c) (c_scopeKey c) (c_entityKey c) (c_entityId c)
                            (c_localVersionJson c) (c_remoteVersionJson c)
                            (c_createdAt c) (Some now))
              (conflicts d))) ;;;
  ret (length (filter (unresolved_for sk entityKey entityId) (conflicts d))).

(** [getAllConflicts(scope, limit?)]: the [LIMIT] clause is there when
    [limit] is truthy, neither [undefined] nor [0]. *)
Definition getAllConflicts (scope : Scope) (limit : option nat) : Async (list Conflict) :=
  let sk := scopeKey scope in
  d <- getDB ;;
  let rows :=
    order_by_desc c_createdAt
      (filter (fun c => String.eqb (c_scopeKey c) sk) (conflicts d)) in
  ret (match limit with
       | Some (Datatypes.S n) => firstn (Datatypes.S n) rows
       | Some O | None => rows
       end).

(** [deleteResolvedConflicts(scope, olderThanMs)]; returns the number of
    rows deleted. *)
Definition deleteResolvedConflicts (scope : Scope) (olderThanMs : Z) : Async nat :=
  let sk := scopeKey scope in
  now <- nowMs ;;
  let cutoff := now - olderThanMs in
  let gone (c : Conflict) :=
    (String.eqb (c_scopeKey c) sk
     && match c_resolvedAt c with
        | Some t => t <? cutoff
        | None => false
        end)%bool in
  d <- getDB ;;
  putDB (set_conflicts d (filter (fun c => negb (gone c)) (conflicts d))) ;;;
  ret (length (filter gone (conflicts d))).

(** [ConflictWithVersions]: a conflict with its two versions parsed. *)
Record ConflictWithVersions : Type := mkConflictWithVersions {
  cv_conflict : Conflict;
  cv_localVersion : json;
  cv_remoteVersion : json
}.

(** [getConflictsWithVersions(scope)]. *)
Definition getConflictsWithVersions (scope : Scope) : Async (list ConflictWithVersions) :=
  cs <- getUnresolvedConflicts scope ;;
  ret (map (fun c =>
              mkConflictWithVersions c
                (safeJsonDecode (c_localVersionJson c))
                (safeJsonDecode (c_remoteVersionJson c)))
           cs).

(** ** adapters.ts: delta changes *)

Inductive DeltaChange : Type :=
| Upsert (entityKey entityId : string) (data : json) (updatedAt : Z)
| Delete (entityKey entityId : string) (updatedAt : Z).

Definition change_entityKey (c : DeltaChange) : string :=
  match c with Upsert k _ _ _ => k | Delete k _ _ => k end.

Definition change_entityId (c : DeltaChange) : string :=
  match c with Upsert _ i _ _ => i | Delete _ i _ => i end.

Definition is_upsert (c : DeltaChange) : bool :=
  match c with Upsert _ _ _ _ => true | Delete _ _ _ => false end.

(** ** applyEngine.ts: the two interfaces *)

Record DeltaChangeHandler : Type := mkDeltaChangeHandler {
  applyUpsert : string -> string -> json -> Z -> Async unit;
  applyDelete : string -> string -> Z -> Async unit
}.

Record ConflictDetector : Type := mkConflictDetector {
  shouldApplyChange : Scope -> DeltaChange -> option json -> Async bool;
  onConflictDetected : Scope -> DeltaChange -> option json -> Async unit
}.

(** ** conflictDetector.ts *)

(** A row of [example_items] as the object [getFirstAsync] returns. *)
Definition ExampleItemRow_to_json (r : ExampleItemRow) : json :=
  JObj [("id", JStr (item_id r)); ("name", item_name r);
        ("updated_at", item_updatedAt r); ("created_at", item_createdAt r)].

(** [DefaultConflictDetector.getLocalVersion(entityKey, entityId)];
    [JNull] is [null]. *)
Definition getLocalVersion (entityKey entityId : string) : Async json :=
  d <- getDB ;;
  let rows :=
    firstn 1
      (order_by_desc op_createdAt
         (filter
            (fun op =>
               (String.eqb (op_entityKey op) entityKey
                && (OutboxOpState_eqb (op_state op) Pending
                    || OutboxOpState_eqb (op_state op) InFlight)
                && sql_like (Outbox.entity_id_pattern entityId) (op_payloadJson op))%bool)
            (outbox_ops d))) in
  match rows with
  | row :: _ => ret (safeJsonDecode (op_payloadJson row))
  | [] =>
      if String.eqb entityKey "example_items" then
        match find (fun r => String.eqb (item_id r) entityId) (example_items d) with
        | Some row => ret (ExampleItemRow_to_json row)
        | None => ret JNull
        end
      else ret JNull
  end.

(** [DefaultConflictDetector.shouldApplyChange(scope, change)]. *)
Definition DefaultConflictDetector_shouldApplyChange (scope : Scope)
           (change : DeltaChange) (_localVersion : option json) : Async bool :=
  match change with
  | Delete _ _ _ => ret true
  | Upsert entityKey entityId _ _ =>
      hasPending <- Outbox.hasPendingOpsForEntity scope entityKey entityId ;;
      ret (negb hasPending)
  end.

(** [DefaultConflictDetector.onConflictDetected(scope, change)]. *)
Definition DefaultConflictDetector_onConflictDetected (scope : Scope)
           (change : DeltaChange) (_localVersion : option json) : Async unit :=
  match change with
  | Delete _ _ _ => ret tt
  | Upsert entityKey entityId data _ =>
      conflictExists <- hasConflict scope entityKey entityId ;;
      if conflictExists then ret tt
      else
        localVersion <- getLocalVersion entityKey entityId ;;
        createConflict scope entityKey entityId
          (match localVersion with
           | JNull => JObj [("id", JStr entityId)]
           | v => v
           end)
          data false ;;;
        ret tt
  end.

(** [new DefaultConflictDetector()]. *)
Definition DefaultConflictDetector : ConflictDetector :=
  mkConflictDetector DefaultConflictDetector_shouldApplyChange
                     DefaultConflictDetector_onConflictDetected.

(** ** applyEngine.ts *)

(** [applyChangeInternal(change, handler)]. *)
Definition applyChangeInternal (change : DeltaChange) (handler : DeltaChangeHandler)
  : Async unit :=
  match change with
  | Upsert entityKey entityId data updatedAt =>
      applyUpsert handler entityKey entityId data updatedAt
  | Delete entityKey entityId updatedAt =>
      applyDelete handler entityKey entityId updatedAt
  end.

(** [applyChange(change, handler)]. *)
Definition applyChange (change : DeltaChange) (handler : DeltaChangeHandler)
  : Async unit :=
  withTransaction (applyChangeInternal change handler).

Record ApplyOptions : Type := mkApplyOptions {
  ao_scope : option Scope;
  ao_conflictDetector : option ConflictDetector
}.

(** The value [applyChanges] returns, and its three local variables. *)
Record ApplyResult : Type := mkApplyResult {
  applied : nat;
  conflicts_count : nat;
  errors : list (DeltaChange * Error)
}.

(** What the body of the inner [try] did with a change when it did not
    throw: [continue] after a conflict, or the end of the block. *)
Inductive ChangeOutcome : Type := Conflicted | Applied.

(** The body of the inner [try] for one change. *)
Definition applyOneTry (options : ApplyOptions) (handler : DeltaChangeHandler)
           (change : DeltaChange) : Async ChangeOutcome :=
  match ao_conflictDetector options, ao_scope options, is_upsert change with
  | Some detector, Some scope, true =>
      shouldApply <- shouldApplyChange detector scope change None ;;
      if negb shouldApply then
        onConflictDetected detector scope change None ;;;
        ret Conflicted
      else
        applyChangeInternal change handler ;;;
        ret Applied
  | _, _, _ =>
      applyChangeInternal change handler ;;;
      ret Applied
  end.

(** One turn of the [for] loop: the [try] and its [catch]. *)
Definition applyOne (options : ApplyOptions) (handler : DeltaChangeHandler)
           (change : DeltaChange) (acc : ApplyResult) : World -> World * ApplyResult :=
  fun w =>
    match applyOneTry options handler change w with
    | (w', Ok Conflicted) =>
        (w', mkApplyResult (applied acc) (S (conflicts_count acc)) (errors acc))
    | (w', Ok Applied) =>
        (w', mkApplyResult (S (applied acc)) (conflicts_count acc) (errors acc))
    | (w', Err e) =>
        (w', mkApplyResult (applied acc) (conflicts_count acc)
                           (errors acc ++ [(change, e)]))
    end.

(** The [for] loop over the batch; it catches every error. *)
Fixpoint applyLoop (options : ApplyOptions) (handler : DeltaChangeHandler)
         (changes : list DeltaChange) (acc : ApplyResult)
  : World -> World * ApplyResult :=
  fun w =>
    match changes with
    | [] => (w, acc)
    | change :: rest =>
        let '(w', acc') := applyOne options handler change acc w in
        applyLoop options handler rest acc' w'
    end.

(** The callback given to [withTransaction]: the loop, then the [throw]
    when an error was collected. *)
Definition applyChanges_transaction (options : ApplyOptions)
           (handler : DeltaChangeHandler) (changes : list DeltaChange)
  : Async ApplyResult :=
  fun w =>
    let '(w', acc) := applyLoop options handler changes (mkApplyResult 0 0 []) w in
    match errors acc with
    | [] => (w', Ok acc)
    | _ :: _ =>
        (w', Err (mkError ("applyChanges failed with "
                           ++ Z_to_string (Z.of_nat (length (errors acc)))
                           ++ " error(s); batch rolled back.")))
    end.

(** [applyChanges(changes, handler, options)].  [applied], [conflicts] and
    [errors] are locals of the function: the outer [catch] reads them as the
    loop left them, whatever the rollback did to the store. *)
Definition applyChanges (changes : list DeltaChange) (handler : DeltaChangeHandler)
           (options : ApplyOptions) : Async ApplyResult :=
  fun w =>
    match withTransaction (applyChanges_transaction options handler changes) w with
    | (w', Ok acc) => (w', Ok acc)
    | (w', Err e) =>
        let locals :=
          snd (applyLoop options handler changes (mkApplyResult 0 0 []) w) in
        match errors locals with
        | [] => (w', Err e)
        | _ :: _ =>
            (w', Ok (mkApplyResult 0 (conflicts_count locals) (errors locals)))
        end
    end.

(** ** exampleHandler.ts *)

Section ExampleHandler.

(** JavaScript's [ToNumber] on a value that is not a number ([None] is
    [NaN]). *)
Variable ToNumber : json -> option Z.

(** [value ?? fallback]. *)
Definition nullish (value : option json) (fallback : json) : json :=
  match value with
  | None | Some JNull => fallback
  | Some v => v
  end.

(** Truthiness of a JSON value or [undefined]. *)
Definition js_truthy (value : option json) : bool :=
  match value with
  | None | Some JNull => false
  | Some (JBool b) => b
  | Some (JNum n) => negb (n =? 0)
  | Some (JStr s) => negb (String.eqb s "")
  | Some (JArr _) | Some (JObj _) => true
  end.

(** [value > n] for a number [n]. *)
Definition js_gt (value : option json) (n : Z) : bool :=
  match value with
  | None => false
  | Some (JNum m) => n <? m
  | Some v =>
      match ToNumber v with
      | Some m => n <? m
      | None => false
      end
  end.

Definition set_example_items (d : DB) (rows : list ExampleItemRow) : DB :=
  mkDB (outbox_ops d) (conflicts d) (sync_cursors d) rows.

(** [ExampleDeltaHandler.applyUpsert(entityKey, entityId, data, updatedAt)].
    Reading a property of [null] throws a [TypeError]. *)
Definition ExampleDeltaHandler_applyUpsert (entityKey entityId : string)
           (data : json) (updatedAt : Z) : Async unit :=
  if negb (String.eqb entityKey "example_items") then ret tt
  else
    match data with
    | JNull => throw (mkError "TypeError: Cannot read properties of null")
    | itemData =>
        let name := nullish (json_get itemData "name") (JStr "Unnamed Item") in
        let createdAt := nullish (json_get itemData "createdAt") (JNum updatedAt) in
        let finalUpdatedAt :=
          if (js_truthy (json_get itemData "updatedAt")
              && js_gt (json_get itemData "updatedAt") updatedAt)%bool
          then match json_get itemData "updatedAt" with
               | Some v => v
               | None => JNum updatedAt
               end
          else JNum updatedAt in
        d <- getDB ;;
        putDB (set_example_items d
                 (filter (fun r => negb (String.eqb (item_id r) entityId))
                         (example_items d)
                  ++ [mkExampleItemRow entityId name finalUpdatedAt createdAt]))
    end.

(** [ExampleDeltaHandler.applyDelete(entityKey, entityId, updatedAt)]. *)
Definition ExampleDeltaHandler_applyDelete (entityKey entityId : string)
           (_updatedAt : Z) : Async unit :=
  if negb (String.eqb entityKey "example_items") then ret tt
  else
    d <- getDB ;;
    putDB (set_example_items d
             (filter (fun r => negb (String.eqb (item_id r) entityId))
                     (example_items d))).

(** [new ExampleDeltaHandler()]. *)
Definition ExampleDeltaHandler : DeltaChangeHandler :=
  mkDeltaChangeHandler ExampleDeltaHandler_applyUpsert
                       ExampleDeltaHandler_applyDelete.

End ExampleHandler.

(** [CompositeDeltaHandler]: the map from entity keys to handlers that the
    constructor fills; of two handlers given for one key the later one is
    kept. *)
Fixpoint CompositeDeltaHandler_get (handlers : list (string * DeltaChangeHandler))
         (entityKey : string) : option DeltaChangeHandler :=
  match handlers with
  | [] => None
  | (k, h) :: rest =>
      match CompositeDeltaHandler_get rest entityKey with
      | Some h' => Some h'
      | None => if String.eqb k entityKey then Some h else None
      end
  end.

(** [CompositeDeltaHandler.applyUpsert(entityKey, entityId, data, updatedAt)]. *)
Definition CompositeDeltaHandler_applyUpsert
           (handlers : list (string * DeltaChangeHandler))
           (entityKey entityId : string) (data : json) (updatedAt : Z) : Async unit :=
  match CompositeDeltaHandler_get handlers entityKey with
  | Some handler => applyUpsert handler entityKey entityId data updatedAt
  | None => ret tt
  end.

(** [CompositeDeltaHandler.applyDelete(entityKey, entityId, updatedAt)]. *)
Definition CompositeDeltaHandler_applyDelete
           (handlers : list (string * DeltaChangeHandler))
           (entityKey entityId : string) (updatedAt : Z) : Async unit :=
  match CompositeDeltaHandler_get handlers entityKey with
  | Some handler => applyDelete handler entityKey entityId updatedAt
  | None => ret tt
  end.

(** [new CompositeDeltaHandler(handlers)]. *)
Definition CompositeDeltaHandler (handlers : list (string * DeltaChangeHandler))
  : DeltaChangeHandler :=
  mkDeltaChangeHandler (CompositeDeltaHandler_applyUpsert handlers)
                       (CompositeDeltaHandler_applyDelete handlers).

(** ** deltaRunner.ts *)

Definition DEFAULT_CURSOR : string := "0".

Definition set_sync_cursors (d : DB) (rows : list CursorRow) : DB :=
  mkDB (outbox_ops d) (conflicts d) rows (example_items d).

Definition cursor_key_is (sk collectionKey : string) (r : CursorRow) : bool :=
  (String.eqb (cur_scopeKey r) sk
   && String.eqb (cur_collectionKey r) collectionKey)%bool.

(** [getCursor(scope, collectionKey)]. *)
Definition getCursor (scope : Scope) (collectionKey : string) : Async string :=
  let sk := scopeKey scope in
  d <- getDB ;;
  match find (cursor_key_is sk collectionKey) (sync_cursors d) with
  | Some row => ret (cur_cursor row)
  | None => ret DEFAULT_CURSOR
  end.

(** [setCursor(scope, collectionKey, cursor)]: insert, or update the row of
    the primary key on conflict. *)
Definition setCursor (scope : Scope) (collectionKey cursor : string) : Async unit :=
  let sk := scopeKey scope in
  now <- nowMs ;;
  d <- getDB ;;
  if existsb (cursor_key_is sk collectionKey) (sync_cursors d)
  then
    putDB (set_sync_cursors d
             (update_where
                (cursor_key_is sk collectionKey)
                (fun r => mkCursorRow (cur_scopeKey r) (cur_collectionKey r) cursor now)
                (sync_cursors d)))
  else
    putDB (set_sync_cursors d
             (sync_cursors d ++ [mkCursorRow sk collectionKey cursor now])).

Record DeltaPullResponse : Type := mkDeltaPullResponse {
  changes : list DeltaChange;
  nextCursor : string;
  hasMore : option bool
}.

(** [RemoteDeltaAdapter]: an object with private state [S] and the method
    [pullChanges(scope, collectionKey, cursor)]. *)
Record RemoteDeltaAdapter (S : Type) : Type := mkRemoteDeltaAdapter {
  pullChanges : S -> Scope -> string -> string -> S * Result DeltaPullResponse
}.
Arguments pullChanges {S} _ _ _ _ _.

(** The fields of the class [DeltaRunner]; [maxPagesPerRun] and
    [conflictDetector] are its [config]. *)
Record DeltaRunner (S : Type) : Type := mkDeltaRunner {
  dr_adapter : RemoteDeltaAdapter S;
  dr_handler : option DeltaChangeHandler;
  maxPagesPerRun : nat;
  dr_conflictDetector : option ConflictDetector
}.
Arguments mkDeltaRunner {S} _ _ _ _.
Arguments dr_adapter {S} _.
Arguments dr_handler {S} _.
Arguments maxPagesPerRun {S} _.
Arguments dr_conflictDetector {S} _.

(** The value [runDeltaPull] returns. *)
Record DeltaPullStats : Type := mkDeltaPullStats {
  pagesPulled : nat;
  totalChanges : nat;
  totalApplied : nat;
  totalConflicts : nat;
  totalErrors : nat
}.

(** The local variables of [runDeltaPull]. *)
Record PullLocals : Type := mkPullLocals {
  pl_stats : DeltaPullStats;
  currentCursor : string;
  pl_hasMore : bool
}.

(** The [while] loop of [runDeltaPull].  [fuel] bounds the number of turns
    and is [maxPagesPerRun] at the start: every turn adds one to
    [pagesPulled], so the loop condition fails before the fuel does. *)
Fixpoint runDeltaPull_loop {S : Type} (fuel : nat) (runner : DeltaRunner S)
         (scope : Scope) (collectionKey : string) (locals : PullLocals)
         (s : S) (w : World) : S * World * Result DeltaPullStats :=
  let st := pl_stats locals in
  match fuel with
  | O => (s, w, Ok st)
  | Datatypes.S fuel' =>
      if negb (pl_hasMore locals && (pagesPulled st <? maxPagesPerRun runner)%nat)
      then (s, w, Ok st)
      else
        match pullChanges (dr_adapter runner) s scope collectionKey
                          (currentCursor locals) with
        | (s', Err e) => (s', w, Err e)
        | (s', Ok response) =>
            let n := length (changes response) in
            let st1 :=
              mkDeltaPullStats (Datatypes.S (pagesPulled st)) (totalChanges st + n)
                               (totalApplied st) (totalConflicts st)
                               (totalErrors st) in
            (* what the page did: the world and counters after the apply,
               and whether the loop must [break] without advancing *)
            let applied_page : World * Result (DeltaPullStats * bool) :=
              match dr_handler runner, (0 <? n)%nat with
              | Some handler, true =>
                  match applyChanges (changes response) handler
                                     (mkApplyOptions (Some scope)
                                                     (dr_conflictDetector runner)) w with
                  | (w1, Err e) => (w1, Err e)
                  | (w1, Ok result) =>
                      (w1,
                       Ok (mkDeltaPullStats
                             (pagesPulled st1) (totalChanges st1)
                             (totalApplied st1 + applied result)
                             (totalConflicts st1 + conflicts_count result)
                             (totalErrors st1 + length (errors result)),
                           (0 <? length (errors result))%nat))
                  end
              | _, _ => (w, Ok (st1, false))
              end in
            match applied_page with
            | (w1, Err e) => (s', w1, Err e)
            | (w1, Ok (st2, true)) => (s', w1, Ok st2)
            | (w1, Ok (st2, false)) =>
                match setCursor scope collectionKey (nextCursor response) w1 with
                | (w2, Err e) => (s', w2, Err e)
                | (w2, Ok _) =>
                    let more :=
                      match hasMore response with Some b => b | None => false end in
                    if ((n =? 0)%nat && negb more)%bool
                    then (s', w2, Ok st2)
                    else
                      runDeltaPull_loop fuel' runner scope collectionKey
                        (mkPullLocals st2 (nextCursor response) more) s' w2
                end
            end
        end
  end.

(** [DeltaRunner.runDeltaPull(scope, collectionKey)]. *)
Definition runDeltaPull {S : Type} (runner : DeltaRunner S) (scope : Scope)
           (collectionKey : string) (s : S) (w : World)
  : S * World * Result DeltaPullStats :=
  match getCursor scope collectionKey w with
  | (w0, Err e) => (s, w0, Err e)
  | (w0, Ok cursor) =>
      runDeltaPull_loop (maxPagesPerRun runner) runner scope collectionKey
        (mkPullLocals (mkDeltaPullStats 0 0 0 0 0) cursor true) s w0
  end.

(** [results[collectionKey] = value] on the object that
    [runDeltaPullForCollections] returns: a key keeps the place of its first
    assignment. *)
Fixpoint results_set {A : Type} (results : list (string * A)) (key : string) (value : A)
  : list (string * A) :=
  match results with
  | [] => [(key, value)]
  | (k, v) :: rest =>
      if String.eqb k key then (k, value) :: rest
      else (k, v) :: results_set rest key value
  end.

(** The [for] loop of [runDeltaPullForCollections]. *)
Fixpoint runDeltaPullForCollections_loop {S : Type} (runner : DeltaRunner S)
         (scope : Scope) (collectionKeys : list string)
         (results : list (string * DeltaPullStats)) (s : S) (w : World)
  : S * World * Result (list (string * DeltaPullStats)) :=
  match collectionKeys with
  | [] => (s, w, Ok results)
  | collectionKey :: rest =>
      match runDeltaPull runner scope collectionKey s w with
      | (s', w', Err e) => (s', w', Err e)
      | (s', w', Ok stats) =>
          runDeltaPullForCollections_loop runner scope rest
            (results_set results collectionKey stats) s' w'
      end
  end.

(** [DeltaRunner.runDeltaPullForCollections(scope, collectionKeys)]. *)
Definition runDeltaPullForCollections {S : Type} (runner : DeltaRunner S)
           (scope : Scope) (collectionKeys : list string) (s : S) (w : World)
  : S * World * Result (list (string * DeltaPullStats)) :=
  runDeltaPullForCollections_loop runner scope collectionKeys [] s w.

End WithJsonParser.

Arguments mkOutboxProcessor {S} _ _ _ _ _.
Arguments config {S} _.
Arguments adapter {S} _.
Arguments adapterState {S} _.
Arguments isProcessing {S} _.
Arguments processingScope {S} _.
Arguments pullChanges {S} _ _ _ _ _.
Arguments mkDeltaRunner {S} _ _ _ _.
Arguments dr_adapter {S} _.
Arguments dr_handler {S} _.
Arguments maxPagesPerRun {S} _.
Arguments dr_conflictDetector {S} _.

(** ** adapters.ts: the stub pull adapter *)

Inductive StubDeltaBehavior : Type := DeltaEmpty | DeltaWithChanges | DeltaPaginated.

(** The state of a [StubDeltaAdapter]: its two fields, and the clock behind
    the [Date.now()] of its cursors and changes. *)
Record StubDeltaState : Type := mkStubDeltaState {
  sd_behavior : StubDeltaBehavior;
  sd_callCount : nat;
  sd_clock : nat -> Z;
  sd_clock_reads : nat
}.

(** The [n]-th coming reading of the adapter's clock. *)
Definition sd_now (st : StubDeltaState) (n : nat) : Z :=
  sd_clock st (sd_clock_reads st + n).

(** The state after a call that read the clock [reads] times. *)
Definition sd_called (st : StubDeltaState) (reads : nat) : StubDeltaState :=
  mkStubDeltaState (sd_behavior st) (S (sd_callCount st)) (sd_clock st)
                   (sd_clock_reads st + reads).

(** The test item [{ id, name, updatedAt: Date.now() }]. *)
Definition stub_item (itemId name : string) (now : Z) : json :=
  JObj [("id", JStr itemId); ("name", JStr name); ("updatedAt", JNum now)].

(** [StubDeltaAdapter.pullChanges(scope, collectionKey, cursor)]. *)
Definition StubDeltaAdapter_pullChanges (st : StubDeltaState) (scope : Scope)
           (collectionKey cursor : string) : StubDeltaState * Result DeltaPullResponse :=
  match sd_behavior st with
  | DeltaEmpty =>
      (sd_called st 1,
       Ok (mkDeltaPullResponse [] ("cursor_" ++ Z_to_string (sd_now st 0)) (Some false)))
  | DeltaWithChanges =>
      (sd_called st 5,
       Ok (mkDeltaPullResponse
             [Upsert collectionKey "item_1"
                     (stub_item "item_1" "Test Item 1" (sd_now st 0)) (sd_now st 1);
              Upsert collectionKey "item_2"
                     (stub_item "item_2" "Test Item 2" (sd_now st 2)) (sd_now st 3)]
             ("cursor_" ++ Z_to_string (sd_now st 4)) (Some false)))
  | DeltaPaginated =>
      if (S (sd_callCount st) =? 1)%nat then
        (sd_called st 3,
         Ok (mkDeltaPullResponse
               [Upsert collectionKey "item_1"
                       (stub_item "item_1" "Test Item 1" (sd_now st 0)) (sd_now st 1)]
               ("cursor_page_1_" ++ Z_to_string (sd_now st 2)) (Some true)))
      else
        (sd_called st 1,
         Ok (mkDeltaPullResponse
               [] ("cursor_page_2_" ++ Z_to_string (sd_now st 0)) (Some false)))
  end.

Definition StubDeltaAdapter : RemoteDeltaAdapter StubDeltaState :=
  mkRemoteDeltaAdapter StubDeltaState StubDeltaAdapter_pullChanges.

(** [StubDeltaAdapter.setBehavior(behavior)]. *)
Definition StubDeltaAdapter_setBehavior (st : StubDeltaState)
           (behavior : StubDeltaBehavior) : StubDeltaState :=
  mkStubDeltaState behavior 0 (sd_clock st) (sd_clock_reads st).

(** [StubOutboxAdapter.setBehavior(behavior)]. *)
Definition StubOutboxAdapter_setBehavior (st : StubBehavior * nat)
           (behavior : StubBehavior) : StubBehavior * nat :=
  (behavior, 0%nat).

(** ** adapters.ts: the stub signal adapter *)

(** The key under which [StubSignalAdapter] files a listener:
    [scope.type === 'global' ? 'global' : `${scope.type}:${scope.id || ''}`]. *)
Definition signalKey (scope : Scope) : string :=
  if String.eqb (scope_type scope) "global" then "global"
  else scope_type scope ++ ":"
       ++ (if truthy_string (scope_id scope)
           then match scope_id scope with Some i => i | None => "" end
           else "").

Inductive SignalBehavior : Type := SignalSucceed | SignalError.

(** The state of a [StubSignalAdapter] whose listeners are values of [L]
    (the pair of callbacks given to [attach]): the [Map] of listeners, in
    the order of first insertion, and the behavior. *)
Record StubSignalState (L : Type) : Type := mkStubSignalState {
  listeners : list (string * L);
  signal_behavior : SignalBehavior
}.
Arguments mkStubSignalState {L} _ _.
Arguments listeners {L} _.
Arguments signal_behavior {L} _.

(** [Map.prototype.set]. *)
Fixpoint Map_set {L : Type} (m : list (string * L)) (key : string) (value : L)
  : list (string * L) :=
  match m with
  | [] => [(key, value)]
  | (k, v) :: rest =>
      if String.eqb k key then (k, value) :: rest
      else (k, v) :: Map_set rest key value
  end.

(** [Map.prototype.get]. *)
Fixpoint Map_get {L : Type} (m : list (string * L)) (key : string) : option L :=
  match m with
  | [] => None
  | (k, v) :: rest => if String.eqb k key then Some v else Map_get rest key
  end.

(** [Map.prototype.delete]. *)
Definition Map_delete {L : Type} (m : list (string * L)) (key : string)
  : list (string * L) :=
  filter (fun kv => negb (String.eqb (fst kv) key)) m.

(** [StubSignalAdapter.attach(scope, onSignal, onError)]: the state with the
    listener filed, and the key that the returned unsubscribe function
    deletes. *)
Definition StubSignalAdapter_attach {L : Type} (st : StubSignalState L)
           (scope : Scope) (listener : L) : StubSignalState L * string :=
  (mkStubSignalState (Map_set (listeners st) (signalKey scope) listener)
                     (signal_behavior st),
   signalKey scope).

(** The unsubscribe function that [attach] returned, called. *)
Definition StubSignalAdapter_unsubscribe {L : Type} (st : StubSignalState L)
           (key : string) : StubSignalState L :=
  mkStubSignalState (Map_delete (listeners st) key) (signal_behavior st).

(** What [triggerSignal] calls. *)
Inductive SignalCall (L : Type) : Type :=
| CallOnSignal (listener : L)
| CallOnError (listener : L) (error : OpError).
Arguments CallOnSignal {L} _.
Arguments CallOnError {L} _ _.

(** [StubSignalAdapter.triggerSignal(scope)]: the callback it calls, if
    any. *)
Definition StubSignalAdapter_triggerSignal {L : Type} (st : StubSignalState L)
           (scope : Scope) : option (SignalCall L) :=
  match Map_get (listeners st) (signalKey scope) with
  | Some listener =>
      match signal_behavior st with
      | SignalError =>
          Some (CallOnError listener
                  (mkOpError "stub_signal_error" "Stub adapter: simulated signal error"))
      | SignalSucceed => Some (CallOnSignal listener)
      end
  | None => None
  end.

(** [StubSignalAdapter.getListenerCount()]. *)
Definition StubSignalAdapter_getListenerCount {L : Type} (st : StubSignalState L) : nat :=
  length (listeners st).

(** ** kv.ts

    The table [kv] of migration 1, primary key [key].  Its functions touch
    no other table, so they are modelled on the table alone, with the
    reading of [nowMs()] as an argument. *)

Record KVRow : Type := mkKVRow {
  kv_key : string;
  kv_value : string;
  kv_updatedAt : Z
}.

(** [setKV(key, value)], at the time [timestamp]. *)
Definition setKV (key : string) (value : json) (timestamp : Z) (table : list KVRow)
  : list KVRow :=
  filter (fun r => negb (String.eqb (kv_key r) key)) table
  ++ [mkKVRow key (safeJsonEncode value) timestamp].

(** [getKV(key)]; [JNull] is [null]. *)
Definition getKV (JSON_parse : string -> option json) (key : string)
           (table : list KVRow) : json :=
  match find (fun r => String.eqb (kv_key r) key) table with
  | None => JNull
  | Some row => safeJsonDecode JSON_parse (kv_value row)
  end.

(** [deleteKV(key)]. *)
Definition deleteKV (key : string) (table : list KVRow) : list KVRow :=
  filter (fun r => negb (String.eqb (kv_key r) key)) table.

(** [hasKV(key)]. *)
Definition hasKV (key : string) (table : list KVRow) : bool :=
  (0 <? Z.of_nat (length (filter (fun r => String.eqb (kv_key r) key) table))).

(** [getAllKeys()]. *)
Definition getAllKeys (table : list KVRow) : list string :=
  map kv_key table.

(** ** Fixtures for the concrete runs *)

(** A parser that knows the given documents: it returns the document whose
    [JSON.stringify] is the text, as [JSON.parse] does. *)
Definition JSON_parse_known (docs : list json) (text : string) : option json :=
  find (fun v => String.eqb (JSON_stringify v) text) docs.

(** A world over a given store: the clock reads [step], [2 * step], ...
    ms, every draw of [Math.random()] is the number nearest to [r], the
    identifiers are [id-0], [id-1], ... *)
Definition world_step (step : Z) (d : DB) (r : Q) : World :=
  mkWorld d (fun n => step * (Z.of_nat n + 1)) 0 (fun _ => number_of_Q r) 0
          (fun n => "id-" ++ Z_to_string (Z.of_nat n)) 0.

(** The world whose clock advances by a second at every reading. *)
Definition world_of (d : DB) (r : Q) : World := world_step 1000 d r.

(** [{ type: 'global' }]. *)
Definition globalScope : Scope := mkScope "global" None.

(** A remote whose page holds a good upsert and an upsert with [null]
    data, on which the example handler throws. *)
Definition failing_page_adapter : RemoteDeltaAdapter unit :=
  mkRemoteDeltaAdapter unit
    (fun _ _ _ _ =>
       (tt,
        Ok (mkDeltaPullResponse
              [Upsert "example_items" "i1" (JObj [("name", JStr "Item 1")]) 5000;
               Upsert "example_items" "i2" JNull 6000]
              "cursor-1" (Some false)))).

(** One op, an adapter that always reports a retryable failure, the default
    configuration (five attempts) and a clock slow enough for every backoff
    to elapse: one batch of the processor, with the processor it leaves. *)
Definition failing_batch (pw : OutboxProcessor (StubBehavior * nat) * World)
  : OutboxProcessor (StubBehavior * nat) * World :=
  fst (processBatch (JSON_parse_known [JObj [("id", JStr "x1")]])
                    (fst pw) globalScope (snd pw)).

(** The processor and the world before the first batch. *)
Definition failing_start : OutboxProcessor (StubBehavior * nat) * World :=
  (newOutboxProcessor StubOutboxAdapter (StubFail, 0%nat) DEFAULT_CONFIG,
   fst (Outbox.enqueue
          (mkEnqueueOptions globalScope "items" OpUpsert (JObj [("id", JStr "x1")]) None)
          (world_step 100000 emptyDB (1 # 2)))).

(** The processor and the world after five batches. *)
Definition failing_end : OutboxProcessor (StubBehavior * nat) * World :=
  failing_batch (failing_batch (failing_batch (failing_batch
    (failing_batch failing_start)))).

(** The first row of the outbox after the five batches. *)
Definition failing_row : OutboxOp :=
  nth 0 (outbox_ops (db (snd failing_end)))
      (mkOutboxOp "" "" "" OpCustom "" "" 0 Blocked None 0 0).

(** An adapter that returns no result for the ops it is given. *)
Definition silent_adapter : RemoteOutboxAdapter unit :=
  mkRemoteOutboxAdapter unit (fun s _ _ => (s, Ok [])).

(** One op and five batches with the silent adapter, the default
    configuration and a clock slow enough for every backoff to elapse: the
    world they leave, in which the op is [pending] with five attempts. *)
Definition silent_end : World :=
  let parse := JSON_parse_known [JObj [("id", JStr "x1")]] in
  let p := newOutboxProcessor silent_adapter tt DEFAULT_CONFIG in
  let batch (w : World) := snd (fst (processBatch parse p globalScope w)) in
  batch (batch (batch (batch (batch (snd failing_start))))).

(** * Vocabulary of the properties *)

(** The world after one reading of the clock. *)
Definition after_clock_read (w : World) : World :=
  mkWorld (db w) (clock w) (S (clock_reads w)) (random w) (random_reads w)
          (uuids w) (uuid_reads w).

(** [scope_key = ?] at the key of a scope. *)
Definition in_scope (scope : Scope) (op : OutboxOp) : bool :=
  String.eqb (op_scopeKey op) (scopeKey scope).

(** The locals of [applyChanges] before the loop. *)
Definition no_result : ApplyResult := mkApplyResult 0 0 [].

(** The counters the loop adds to an accumulator. *)
Definition add_result (acc r : ApplyResult) : ApplyResult :=
  mkApplyResult (applied acc + applied r)
                (conflicts_count acc + conflicts_count r)
                (errors acc ++ errors r).

(** A postcondition for a computation that returns, another for one that
    throws. *)
Definition hoare {A : Type} (P : World -> Prop) (m : Async A)
           (Q : A -> World -> Prop) (E : World -> Prop) : Prop :=
  forall w, P w ->
            match m w with
            | (w', Ok a) => Q a w'
            | (w', Err _) => E w'
            end.

(** A computation that leaves the store alone. *)
Definition reads_only {A : Type} (m : Async A) : Prop :=
  forall w, db (fst (m w)) = db w.

(** The row [op0] is in the outbox, and the ids of the outbox are unique. *)
Definition row_kept (op0 : OutboxOp) (d : DB) : Prop :=
  In op0 (outbox_ops d) /\ NoDup (map op_id (outbox_ops d)).

(** The terminal states of an op. *)
Definition terminal (op : OutboxOp) : Prop :=
  op_state op = Succeeded \/ op_state op = Failed.

(** The ops of a list are other ops than [op0]. *)
Definition avoids (op0 : OutboxOp) (ops : list OutboxOp) : Prop :=
  forall r, In r ops -> op_id r <> op_id op0.

(** The ids of the outbox are unique: [id] is its primary key. *)
Definition unique_ids (w : World) : Prop :=
  NoDup (map op_id (outbox_ops (db w))).

(** Every row of [ops] is a row of the outbox, and the ids of the outbox
    are unique. *)
Definition rows_kept (ops : list OutboxOp) (w : World) : Prop :=
  unique_ids w /\ forall op, In op ops -> In op (outbox_ops (db w)).

(** The ops [processBatch] claims: their ids are unique, their attempts
    are below the maximum, and each is a row of the outbox, now
    [in_flight], with the fields it had when it was selected. *)
Definition claimed_rows (cfg : OutboxProcessorConfig) (ready : list OutboxOp)
           (w : World) : Prop :=
  unique_ids w
  /\ NoDup (map op_id ready)
  /\ forall op, In op ready ->
                op_attemptCount op < maxAttempts cfg
                /\ exists now, In (set_op_state InFlight now op) (outbox_ops (db w)).

(** The state and the attempt count that [processBatch] leaves in the row
    of a claimed op, by what the adapter returned for it. *)
Definition reconciled (cfg : OutboxProcessorConfig) (result : option OutboxPushResult)
           (op : OutboxOp) : OutboxOpState * Z :=
  match result with
  | None => (Pending, op_attemptCount op + 1)
  | Some (PushSucceeded _) => (Succeeded, op_attemptCount op)
  | Some (PushFailed _ retryable _) =>
      if (retryable && (op_attemptCount op + 1 <? maxAttempts cfg))%bool
      then (Pending, op_attemptCount op + 1)
      else (Failed, op_attemptCount op)
  | Some (PushBlocked _ _) => (Blocked, op_attemptCount op)
  end.

(** The outbox has a row for [op], with its id and its attempt count. *)
Definition has_row (op : OutboxOp) (w : World) : Prop :=
  exists row, In row (outbox_ops (db w))
              /\ op_id row = op_id op
              /\ op_attemptCount row = op_attemptCount op.

(** The outbox has the row [reconciled] describes for [op]. *)
Definition has_reconciled_row (cfg : OutboxProcessorConfig)
           (results : list OutboxPushResult) (op : OutboxOp) (w : World) : Prop :=
  exists row, In row (outbox_ops (db w))
              /\ op_id row = op_id op
              /\ (op_state row, op_attemptCount row)
                 = reconciled cfg (resultsById_get results (op_id op)) op.

(** What a retryable failure does to an op with the given attempt count:
    back to [pending] with one attempt more, or [failed]. *)
Definition retry_or_fail (cfg : OutboxProcessorConfig) (attemptCount : Z)
  : OutboxOpState * Z :=
  if attemptCount + 1 <? maxAttempts cfg
  then (Pending, attemptCount + 1)
  else (Failed, attemptCount).

(** In scope, and [pending] or [in_flight]. *)
Definition active_in_scope (scope : Scope) (op : OutboxOp) : bool :=
  (String.eqb (op_scopeKey op) (scopeKey scope)
   && (OutboxOpState_eqb (op_state op) Pending
       || OutboxOpState_eqb (op_state op) InFlight))%bool.

(** The row [updateState(id, 'failed', max_attempts)] leaves for a row. *)
Definition exhausted_row (now : Z) (op : OutboxOp) : OutboxOp :=
  mkOutboxOp (op_id op) (op_scopeKey op) (op_entityKey op) (op_opType op)
             (op_idempotencyKey op) (op_payloadJson op) (op_attemptCount op)
             Failed
             (Some (safeJsonEncode
                      (OpError_to_json
                         (mkOpError "max_attempts" "Max retry attempts reached"))))
             (op_createdAt op) now.

(** The batch pushes the op [opId], and the adapter reports a retryable
    failure for it. *)
Definition pushed_and_failed {S : Type} (parse : string -> option json)
           (p : OutboxProcessor S) (scope : Scope) (opId : string) (w : World) : bool :=
  (negb (isProcessing p)
   && match selectReadyOps (config p) scope w with
      | (_, Ok (Some ready)) =>
          id_in (map op_id ready) opId
          && match pushOps (adapter p) (adapterState p) scope
                           (map (toAdapterOp parse) ready) with
             | (_, Ok results) =>
                 match resultsById_get results opId with
                 | Some (PushFailed _ true _) => true
                 | _ => false
                 end
             | (_, Err _) => false
             end
      | _ => false
      end)%bool.

(** [k] batches in a row, each of which pushes the op [opId] and is told of
    a retryable failure for it: the processor and the world they leave.
    [None] when one of the batches does not push the op, or is not told
    so. *)
Fixpoint failing_batches {S : Type} (parse : string -> option json) (scope : Scope)
         (opId : string) (k : nat) (p : OutboxProcessor S) (w : World)
  : option (OutboxProcessor S * World) :=
  match k with
  | O => Some (p, w)
  | Datatypes.S k' =>
      if pushed_and_failed parse p scope opId w
      then failing_batches parse scope opId k'
                           (fst (fst (processBatch parse p scope w)))
                           (snd (fst (processBatch parse p scope w)))
      else None
  end.

(** ** Vocabulary of the further properties *)

(** The row that [enqueue] writes: the first coming identifier as [id]; the
    given idempotency key, or (when none or the empty one is given) the
    entity key, the op type and the second coming identifier; the payload
    encoded; no attempt yet; [pending]; created and updated at the reading
    of the clock. *)
Definition enqueued_row (options : EnqueueOptions) (w : World) : OutboxOp :=
  mkOutboxOp (uuids w (uuid_reads w))
             (scopeKey (eo_scope options))
             (eo_entityKey options)
             (eo_opType options)
             (if truthy_string (eo_idempotencyKey options)
              then match eo_idempotencyKey options with Some k => k | None => "" end
              else eo_entityKey options ++ ":"
                   ++ OutboxOpType_to_string (eo_opType options) ++ ":"
                   ++ uuids w (S (uuid_reads w)))
             (safeJsonEncode (eo_payload options))
             0 Pending None
             (clock w (clock_reads w)) (clock w (clock_reads w)).

(** The pending rows of a scope. *)
Definition pending_in_scope (scope : Scope) (op : OutboxOp) : bool :=
  (String.eqb (op_scopeKey op) (scopeKey scope)
   && OutboxOpState_eqb (op_state op) Pending)%bool.

(** The adapter reported [succeeded] for the op. *)
Definition reported_succeeded (results : list OutboxPushResult) (op : OutboxOp) : bool :=
  match resultsById_get results (op_id op) with
  | Some (PushSucceeded _) => true
  | _ => false
  end.

(** A computation that returns on every world. *)
Definition never_throws {A : Type} (m : Async A) : Prop :=
  hoare (fun _ => True) m (fun _ _ => True) (fun _ => False).

(** A remote that cannot be reached. *)
Definition throwing_adapter : RemoteOutboxAdapter unit :=
  mkRemoteOutboxAdapter unit (fun s _ _ => (s, Err (mkError "Network request failed"))).

(** The number of unresolved conflicts the store holds for an entity. *)
Definition unresolved_count (sk entityKey entityId : string) (w : World) : nat :=
  length (filter (unresolved_for sk entityKey entityId) (conflicts (db w))).

(** No entity has two unresolved conflicts. *)
Definition one_unresolved_per_entity (w : World) : Prop :=
  forall sk k i, (unresolved_count sk k i w <= 1)%nat.

(** What the loop of [runDeltaPull] keeps: no more pages than allowed, and
    no more changes accounted for than were pulled. *)
Definition stats_within {S : Type} (runner : DeltaRunner S) (st : DeltaPullStats) : Prop :=
  (pagesPulled st <= maxPagesPerRun runner)%nat
  /\ (totalApplied st + totalConflicts st + totalErrors st <= totalChanges st)%nat.

(** An adapter that always has one more page: a change, the cursor it was
    given with a mark appended, [hasMore] set. *)
Definition endless_adapter : RemoteDeltaAdapter unit :=
  mkRemoteDeltaAdapter unit
    (fun s _ _ cursor =>
       (s, Ok (mkDeltaPullResponse [Delete "example_items" "a" 1] (cursor ++ "+")
                                   (Some true)))).

(** The options [runDeltaPull] gives to [applyChanges]. *)
Definition pull_options {S : Type} (runner : DeltaRunner S) (scope : Scope)
  : ApplyOptions :=
  mkApplyOptions (Some scope) (dr_conflictDetector runner).

(** The page applies: no handler is configured, or [applyChanges] reports
    no error for it. *)
Definition page_applies {S : Type} (runner : DeltaRunner S) (scope : Scope)
           (response : DeltaPullResponse) (w : World) : Prop :=
  match dr_handler runner with
  | None => True
  | Some handler =>
      match snd (applyChanges (changes response) handler (pull_options runner scope) w) with
      | Ok r => errors r = []
      | Err _ => False
      end
  end.

(** An adapter with one page of two deletes behind the cursor ["0"]. *)
Definition one_page_adapter : RemoteDeltaAdapter unit :=
  mkRemoteDeltaAdapter unit
    (fun s _ _ cursor =>
       (s, Ok (mkDeltaPullResponse
                 [Delete "example_items" "a" 1; Delete "example_items" "b" 2]
                 "cursor-1" (Some false)))).

(** The rows of [example_items] with the given id. *)
Definition items_with_id (entityId : string) (w : World) : list ExampleItemRow :=
  filter (fun r => String.eqb (item_id r) entityId) (example_items (db w)).

(** The other rows of [example_items]. *)
Definition items_without_id (entityId : string) (w : World) : list ExampleItemRow :=
  filter (fun r => negb (String.eqb (item_id r) entityId)) (example_items (db w)).

(** A handler that throws, registered first, and the example handler
    registered for the same key after it. *)
Definition throwing_handler : DeltaChangeHandler :=
  mkDeltaChangeHandler (fun _ _ _ _ => throw (mkError "first handler"))
                       (fun _ _ _ => throw (mkError "first handler")).

(** The string has no colon. *)
Fixpoint no_colon (s : string) : bool :=
  match s with
  | EmptyString => true
  | String c s' => (negb (Ascii.eqb c ":") && no_colon s')%bool
  end.

(** A scope as the type [Scope] means it: the global one without an id, or
    a type other than ["global"] without a colon, with an id that is absent
    or not empty. *)
Definition plain_scope (scope : Scope) : bool :=
  if String.eqb (scope_type scope) "global"
  then match scope_id scope with None => true | Some _ => false end
  else
    (no_colon (scope_type scope)
     && match scope_id scope with
        | None => true
        | Some i => negb (String.eqb i "")
        end)%bool.

(** The text ["id":"<entityId>"] the lookups search a payload for. *)
Definition id_field_text (entityId : string) : string :=
  String dquote "id" ++ String dquote ":" ++ String dquote entityId
  ++ String dquote "".

(** Two ops pushed to an adapter that blocks. *)
Definition blocked_world : World :=
  let enq (i : string) (w : World) :=
    fst (Outbox.enqueue
           (mkEnqueueOptions globalScope "items" OpUpsert (JObj [("id", JStr i)]) None)
           w) in
  let w0 := enq "b" (enq "a" (world_of emptyDB (1 # 2))) in
  let blocking := newOutboxProcessor StubOutboxAdapter (StubBlock, 0%nat) DEFAULT_CONFIG in
  snd (fst (processBatch (JSON_parse_known []) blocking globalScope w0)).

(** * Properties *)

(** ** The embedding at work *)

Example JSON_stringify_nested :
  JSON_stringify (JObj [("id", JStr "2"); ("n", JNum (-7)); ("l", JArr [JNull; JBool true])])
  = String "{" (String dquote "id" ++ String dquote ":" ++ String dquote "2"
      ++ String dquote "," ++ String dquote "n" ++ String dquote ":-7,"
      ++ String dquote "l" ++ String dquote ":[null,true]}").
Proof. reflexivity. Qed.

Example sql_like_substring : sql_like "%b_d%" "aaBcdee" = true.
Proof. reflexivity. Qed.

Example sql_like_anchored : sql_like "b%" "ab" = false.
Proof. reflexivity. Qed.

(** The scenario of the specification: the first batch leaves the op
    [pending] with one attempt and an error, the second (after the
    backoff) leaves it [succeeded]. *)
Example processBatch_fail_then_succeed :
  let parse := JSON_parse_known [JObj [("id", JStr "x1")]] in
  let p0 := newOutboxProcessor StubOutboxAdapter (StubFailThenSucceed, 0%nat)
                               DEFAULT_CONFIG in
  let w0 :=
    fst (Outbox.enqueue
           (mkEnqueueOptions globalScope "items" OpUpsert (JObj [("id", JStr "x1")]) None)
           (world_step 100000 emptyDB (1 # 2))) in
  let '(p1, w1, r1) := processBatch parse p0 globalScope w0 in
  let '(p2, w2, r2) := processBatch parse p1 globalScope w1 in
  map (fun op => (op_state op, op_attemptCount op)) (outbox_ops (db w1)) = [(Pending, 1)]
  /\ r1 = Ok 0%nat
  /\ map op_state (outbox_ops (db w2)) = [Succeeded]
  /\ r2 = Ok 1%nat.
Proof.
  vm_compute. repeat split; reflexivity.
Qed.

(** ** Scope keys *)

(** C10. [scopeKey] is not injective: the scopes [{type:'a:b'}] and
    [{type:'a', id:'b'}] are distinct and have the key ["a:b"], the scopes
    [{type:'global'}] and [{type:'global', id:'x'}] are distinct and have
    the key ["global"]; the queries of the outbox, the cursors and the
    conflicts, which see a scope only through its key, answer alike for the
    two scopes of each pair in every world. *)
Theorem scopeKey_not_injective :
  let s1 := mkScope "a:b" None in
  let s2 := mkScope "a" (Some "b") in
  let g1 := mkScope "global" None in
  let g2 := mkScope "global" (Some "x") in
  (s1 <> s2 /\ scopeKey s1 = "a:b" /\ scopeKey s2 = "a:b")
  /\ (g1 <> g2 /\ scopeKey g1 = "global" /\ scopeKey g2 = "global")
  /\ (forall limit w, Outbox.getPending s1 limit w = Outbox.getPending s2 limit w)
  /\ (forall limit w, Outbox.getPending g1 limit w = Outbox.getPending g2 limit w)
  /\ (forall key w, getCursor s1 key w = getCursor s2 key w)
  /\ (forall key w, getCursor g1 key w = getCursor g2 key w)
  /\ (forall k i w, hasConflict s1 k i w = hasConflict s2 k i w)
  /\ (forall k i w, hasConflict g1 k i w = hasConflict g2 k i w).
Proof.
  cbv zeta.
  repeat split; try reflexivity; discriminate.
Qed.

(** ** The reentrancy guard *)

(** C8. While [isProcessing] is set, [processBatch] returns [0] at once:
    the processor (and with it the state of its adapter) and the world (the
    store and the oracles) are the ones it was called with. *)
Theorem processBatch_reentrant :
  forall (parse : string -> option json) (S : Type) (p : OutboxProcessor S)
         (scope : Scope) (w : World),
    isProcessing p = true ->
    processBatch parse p scope w = (p, w, Ok 0%nat).
Proof.
  intros parse S p scope w Hbusy.
  unfold processBatch.
  rewrite Hbusy.
  reflexivity.
Qed.

(** A processor in the middle of a batch, over an outbox with one pending
    op: the second call leaves everything in place. *)
Lemma processBatch_reentrant_witness :
  let busy :=
    mkOutboxProcessor DEFAULT_CONFIG StubOutboxAdapter (StubSucceed, 0%nat)
                      true (Some globalScope) in
  let w :=
    fst (Outbox.enqueue
           (mkEnqueueOptions globalScope "items" OpUpsert
                             (JObj [("id", JStr "x1")]) None)
           (world_of emptyDB (1 # 2))) in
  processBatch (JSON_parse_known []) busy globalScope w = (busy, w, Ok 0%nat).
Proof.
  cbv zeta.
  apply (processBatch_reentrant (JSON_parse_known [])).
  reflexivity.
Defined.

(** ** The example handler *)

Lemma filter_filter_snoc :
  forall (A : Type) (f : A -> bool) (l : list A) (x : A),
    f x = false -> filter f (filter f l ++ [x]) = filter f l.
Proof.
  intros A f l x Hx.
  rewrite filter_app.
  simpl. rewrite Hx, app_nil_r.
  induction l as [| y ys IH]; simpl; [reflexivity |].
  destruct (f y) eqn:Hy; simpl; [rewrite Hy, IH |]; auto.
Qed.

Lemma filter_idem :
  forall (A : Type) (f : A -> bool) (l : list A),
    filter f (filter f l) = filter f l.
Proof.
  intros A f l.
  induction l as [| y ys IH]; simpl; [reflexivity |].
  destruct (f y) eqn:Hy; simpl; [rewrite Hy, IH |]; auto.
Qed.

Lemma not_self_id : forall i : string, negb (String.eqb i i) = false.
Proof. intros i. rewrite String.eqb_refl. reflexivity. Qed.

(** C7. For every change [C] and every store (the empty one among them),
    applying [C] twice through the example handler leaves the store that
    applying it once leaves, with the same outcome; a delete applied to the
    empty store leaves it empty. *)
Theorem ExampleDeltaHandler_idempotent :
  forall (ToNumber : json -> option Z) (change : DeltaChange) (w : World),
    let handler := ExampleDeltaHandler ToNumber in
    let once := fst (applyChange change handler w) in
    let twice := fst (applyChange change handler once) in
    db twice = db once
    /\ snd (applyChange change handler once) = snd (applyChange change handler w)
    /\ db (fst (applyChange change handler (set_db w emptyDB)))
       = db (fst (applyChange change handler
                    (fst (applyChange change handler (set_db w emptyDB)))))
    /\ (forall k i u,
           db (fst (applyChange (Delete k i u) handler (set_db w emptyDB))) = emptyDB).
Proof.
  intros ToNumber change w. cbv zeta.
  assert (Hgen : forall w0,
             db (fst (applyChange change (ExampleDeltaHandler ToNumber)
                        (fst (applyChange change (ExampleDeltaHandler ToNumber) w0))))
             = db (fst (applyChange change (ExampleDeltaHandler ToNumber) w0))
             /\ snd (applyChange change (ExampleDeltaHandler ToNumber)
                       (fst (applyChange change (ExampleDeltaHandler ToNumber) w0)))
                = snd (applyChange change (ExampleDeltaHandler ToNumber) w0)).
  { intros w0.
    destruct change as [k i data u | k i u];
      unfold applyChange, applyChangeInternal, withTransaction; simpl;
      unfold ExampleDeltaHandler_applyUpsert, ExampleDeltaHandler_applyDelete;
      destruct (String.eqb k "example_items"); simpl; auto.
    - destruct data; simpl; auto;
        unfold set_example_items; simpl;
        rewrite filter_filter_snoc by apply not_self_id; auto.
    - unfold set_example_items; simpl.
      rewrite filter_idem. auto. }
  destruct (Hgen w) as [H1 H2].
  destruct (Hgen (set_db w emptyDB)) as [H3 _].
  repeat split; auto.
  intros k i u.
  unfold applyChange, applyChangeInternal, withTransaction; simpl.
  unfold ExampleDeltaHandler_applyDelete.
  destruct (String.eqb k "example_items"); reflexivity.
Qed.

(** ** Backoff *)

(** A number that is not [NaN] equals itself. *)
Lemma SFcompare_refl :
  forall x : number, x <> S754_nan -> SFcompare x x = Some Eq.
Proof.
  intros [s | s | | s m e] Hx; cbn.
  - reflexivity.
  - destruct s; reflexivity.
  - contradiction.
  - destruct s; rewrite Z.compare_refl, Pos.compare_cont_refl; reflexivity.
Qed.

Lemma SFcompare_not_nan_r :
  forall (x y : number) (c : comparison), SFcompare x y = Some c -> y <> S754_nan.
Proof.
  intros x y c H Hy. subst y.
  destruct x as [s | s | | s m e]; discriminate.
Qed.

(** [Math.min] returns one of its arguments, or [NaN]. *)
Lemma Math_min_cases :
  forall x y : number, Math_min x y = x \/ Math_min x y = y \/ Math_min x y = S754_nan.
Proof.
  intros x y. unfold Math_min.
  destruct (SFcompare x y) as [[| |] |]; auto.
  destruct x as [[|] | | |]; auto.
Qed.

(** [Math.min(x, y)] is not above [y]. *)
Lemma Math_min_not_above :
  forall x y : number, SFcompare (Math_min x y) y <> Some Gt.
Proof.
  intros x y. unfold Math_min.
  destruct (SFcompare x y) as [[| |] |] eqn:E.
  - assert (Hy : SFcompare y y = Some Eq)
      by (apply SFcompare_refl; eapply SFcompare_not_nan_r; exact E).
    destruct x as [[|] | | |]; rewrite ?E, ?Hy; discriminate.
  - rewrite E. discriminate.
  - rewrite SFcompare_refl by (eapply SFcompare_not_nan_r; exact E). discriminate.
  - discriminate.
Qed.

(** [Math.max(0, y)] is not below zero. *)
Lemma Math_max_zero_not_below :
  forall y : number,
    SFcompare (Math_max (number_of_Z 0) y) (number_of_Z 0) <> Some Lt.
Proof.
  intros [s | s | | s m e]; try destruct s; cbn; discriminate.
Qed.

(** [NaN] goes through the jitter, and nothing compares with it. *)
Lemma backoff_at_nan :
  forall (r : number) (a : Z) (baseMs maxMs : number),
    exponentialDelay a baseMs maxMs = S754_nan ->
    backoff_at r a baseMs maxMs = S754_nan.
Proof.
  intros r a baseMs maxMs He. unfold backoff_at. rewrite He. reflexivity.
Qed.

Lemma num_ge_nan : forall t : number, num_ge t S754_nan = false.
Proof. intros [s | s | | s m e]; reflexivity. Qed.

(** Zero times [2^a] is [NaN] from [a = 1024] on, where [Math.pow] returns
    [Infinity]. *)
Lemma exponentialDelay_zero_base :
  forall (a : Z) (maxMs : number),
    1023 < a -> exponentialDelay a (number_of_Z 0) maxMs = S754_nan.
Proof.
  intros a maxMs Ha. unfold exponentialDelay, Math_pow_2.
  apply Z.ltb_lt in Ha. rewrite Ha. reflexivity.
Qed.

Lemma number_eqb_eq : forall x y : number, number_eqb x y = true -> x = y.
Proof.
  intros [s | s | | s m e] [s' | s' | | s' m' e'] H; cbn in H; try discriminate.
  - apply Bool.eqb_prop in H. congruence.
  - apply Bool.eqb_prop in H. congruence.
  - reflexivity.
  - apply andb_true_iff in H. destruct H as [H He].
    apply andb_true_iff in H. destruct H as [Hs Hm].
    apply Bool.eqb_prop in Hs. apply Pos.eqb_eq in Hm. apply Z.eqb_eq in He.
    congruence.
Qed.

(** The delay before the jitter under the default configuration, for the
    attempt counts below 1024. *)
Lemma default_delay_below_1024 :
  forallb
    (fun n =>
       number_eqb (exponentialDelay (Z.of_nat n) (backoffMs DEFAULT_CONFIG)
                                    (maxBackoffMs DEFAULT_CONFIG))
                  (number_of_Z (Z.min (1000 * 2 ^ Z.of_nat n) 60000)))
    (seq 0 1024)
  = true.
Proof. vm_compute. reflexivity. Qed.

(** The delay before the jitter under the default configuration:
    [min(1000 * 2^a, 60000)], without a rounding. *)
Lemma default_delay :
  forall a : Z,
    0 <= a ->
    exponentialDelay a (backoffMs DEFAULT_CONFIG) (maxBackoffMs DEFAULT_CONFIG)
    = number_of_Z (Z.min (1000 * 2 ^ a) 60000).
Proof.
  intros a Ha.
  destruct (Z.ltb_spec 1023 a) as [Hbig | Hsmall].
  - assert (Hpow : 2 ^ 6 <= 2 ^ a) by (apply Z.pow_le_mono_r; lia).
    rewrite Z.min_r by (change (2 ^ 6) with 64 in Hpow; lia).
    unfold exponentialDelay, Math_pow_2.
    apply Z.ltb_lt in Hbig. rewrite Hbig. reflexivity.
  - pose proof default_delay_below_1024 as H.
    rewrite forallb_forall in H.
    specialize (H (Z.to_nat a)).
    rewrite Z2Nat.id in H by exact Ha.
    apply number_eqb_eq. apply H.
    apply in_seq. lia.
Qed.

Lemma default_delay_values :
  forall a : Z,
    0 <= a ->
    Z.min (1000 * 2 ^ a) 60000
    = if a =? 0 then 1000 else if a =? 1 then 2000 else if a =? 2 then 4000
      else if a =? 3 then 8000 else if a =? 4 then 16000
      else if a =? 5 then 32000 else 60000.
Proof.
  intros a Ha.
  assert (Hcases : a = 0 \/ a = 1 \/ a = 2 \/ a = 3 \/ a = 4 \/ a = 5 \/ 6 <= a) by lia.
  destruct Hcases as [E | [E | [E | [E | [E | [E | Hbig]]]]]]; try (subst a; reflexivity).
  assert (Hpow : 2 ^ 6 <= 2 ^ a) by (apply Z.pow_le_mono_r; lia).
  change (2 ^ 6) with 64 in Hpow.
  rewrite Z.min_r by lia.
  repeat match goal with
         | |- context [a =? ?n] =>
             let E := fresh in
             destruct (Z.eqb_spec a n) as [E | E]; [lia |]
         end.
  reflexivity.
Qed.

(** Under the default configuration the delay before the jitter does not
    decrease when the attempt count grows. *)
Lemma default_delay_monotone :
  forall a a' : Z,
    0 <= a -> a <= a' ->
    num_le (exponentialDelay a (backoffMs DEFAULT_CONFIG) (maxBackoffMs DEFAULT_CONFIG))
           (exponentialDelay a' (backoffMs DEFAULT_CONFIG) (maxBackoffMs DEFAULT_CONFIG))
    = true.
Proof.
  intros a a' Ha Hle.
  rewrite !default_delay by lia.
  rewrite !default_delay_values by lia.
  repeat match goal with
         | |- context [?x =? ?n] =>
             let E := fresh in
             destruct (Z.eqb_spec x n) as [E | E]; try lia
         end;
    vm_compute; reflexivity.
Qed.

(** The claim as the specification states it fails.  With the default
    configuration (base 1000 ms, maximum 60000 ms), ten attempts and a draw
    of 3/4 the delay is 66000 ms, above the maximum; and the delay of the
    seventh attempt at a draw of 1/10 is below the delay of the sixth at a
    draw of 9/10. *)
Lemma calculateBackoff_exceeds_maxDelay :
  exists d : number,
    snd (calculateBackoff 10 (backoffMs DEFAULT_CONFIG) (maxBackoffMs DEFAULT_CONFIG)
                          (world_of emptyDB (3 # 4)))
    = Ok d
    /\ d = number_of_Z 66000
    /\ SFcompare d (maxBackoffMs DEFAULT_CONFIG) = Some Gt
    /\ SFcompare
         (backoff_at (number_of_Q (1 # 10)) 7 (backoffMs DEFAULT_CONFIG)
                     (maxBackoffMs DEFAULT_CONFIG))
         (backoff_at (number_of_Q (9 # 10)) 6 (backoffMs DEFAULT_CONFIG)
                     (maxBackoffMs DEFAULT_CONFIG))
       = Some Lt.
Proof.
  eexists. split; [reflexivity |].
  repeat split; vm_compute; reflexivity.
Qed.

(** C2, amended.  The delays are numbers of JavaScript (IEEE 754 binary64).
    For every attempt count [a], base and maximum delay and every draw [r]
    of [Math.random()], [calculateBackoff] returns
    [d = Math.max(0, e + e * 0.2 * (r * 2 - 1))], each operation rounded,
    where [e = Math.min(base * 2^a, max)].  [e] is [base * 2^a], [max] or
    [NaN], and is never above [max]; [d] is never below zero.  The jitter
    is added after the minimum with [max], so [d] can be above [max].  With
    a base of zero and [a] from 1024 on [e] and [d] are [NaN], and no time
    since the last update is at least [d].  Under the default configuration
    [e] is [min(1000 * 2^a, 60000)] for [a >= 0], which does not decrease
    when [a] grows.  An op whose [attemptCount] is [0] is ready without a
    reading of the clock or of the random source. *)
Theorem calculateBackoff_jitter_bounds :
  forall (a a' : Z) (baseMs maxMs : number) (w : World)
         (op : OutboxOp) (cfg : OutboxProcessorConfig),
    0 <= a ->
    a <= a' ->
    op_attemptCount op = 0 ->
    let r := random w (random_reads w) in
    let e := exponentialDelay a baseMs maxMs in
    let d := backoff_at r a baseMs maxMs in
    let default_e x :=
      exponentialDelay x (backoffMs DEFAULT_CONFIG) (maxBackoffMs DEFAULT_CONFIG) in
    snd (calculateBackoff a baseMs maxMs w) = Ok d
    /\ d = Math_max (number_of_Z 0)
                    (num_add e (num_mul (num_mul e (number_of_Q (2 # 10)))
                                        (num_sub (num_mul r (number_of_Z 2))
                                                 (number_of_Z 1))))
    /\ (e = num_mul baseMs (Math_pow_2 a) \/ e = maxMs \/ e = S754_nan)
    /\ SFcompare e maxMs <> Some Gt
    /\ SFcompare d (number_of_Z 0) <> Some Lt
    /\ (1023 < a -> baseMs = number_of_Z 0 ->
        e = S754_nan /\ d = S754_nan /\ forall t, num_ge t d = false)
    /\ default_e a = number_of_Z (Z.min (1000 * 2 ^ a) 60000)
    /\ num_le (default_e a) (default_e a') = true
    /\ isBackoffElapsed op cfg w = (w, Ok true).
Proof.
  intros a a' baseMs maxMs w op cfg Ha Hle Hop r e d default_e.
  split; [reflexivity |].
  split; [reflexivity |].
  split; [apply Math_min_cases |].
  split; [apply Math_min_not_above |].
  split; [apply Math_max_zero_not_below |].
  split.
  { intros Hbig Hbase.
    assert (He : e = S754_nan)
      by (unfold e; rewrite Hbase; apply exponentialDelay_zero_base; exact Hbig).
    assert (Hd : d = S754_nan) by (apply backoff_at_nan; exact He).
    repeat split; [exact He | exact Hd |].
    intros t. rewrite Hd. apply num_ge_nan. }
  split; [apply default_delay; exact Ha |].
  split; [apply default_delay_monotone; assumption |].
  unfold isBackoffElapsed. rewrite Hop. reflexivity.
Qed.

(** The default configuration, a first retry and a draw of 1/2: the jitter
    is zero and the delay is one second. *)
Lemma calculateBackoff_jitter_bounds_witness :
  let w := world_of emptyDB (1 # 2) in
  let op := mkOutboxOp "id-0" "global" "items" OpUpsert "k" "{}" 0 Pending None 1000 1000 in
  snd (calculateBackoff 0 (number_of_Z 1000) (number_of_Z 60000) w)
  = Ok (number_of_Z 1000)
  /\ SFcompare (exponentialDelay 0 (number_of_Z 1000) (number_of_Z 60000))
               (number_of_Z 60000) <> Some Gt
  /\ isBackoffElapsed op DEFAULT_CONFIG w = (w, Ok true).
Proof.
  cbv zeta.
  pose proof
       (calculateBackoff_jitter_bounds
          0 1 (number_of_Z 1000) (number_of_Z 60000) (world_of emptyDB (1 # 2))
          (mkOutboxOp "id-0" "global" "items" OpUpsert "k" "{}" 0 Pending None 1000 1000)
          DEFAULT_CONFIG) as H.
  cbv zeta in H.
  destruct H as [H1 [_ [_ [H4 [_ [_ [_ [_ H9]]]]]]]]; try lia; try reflexivity.
  split; [| split; assumption].
  rewrite H1. vm_compute. reflexivity.
Defined.

(** ** The default conflict policy *)

Lemma count_positive_iff_existsb :
  forall (A : Type) (f : A -> bool) (l : list A),
    (0 <? Z.of_nat (length (filter f l))) = existsb f l.
Proof.
  intros A f l.
  induction l as [| x xs IH]; simpl; [reflexivity |].
  destruct (f x); simpl; [| exact IH].
  apply Z.ltb_lt. lia.
Qed.

(** What [shouldApplyChange] computes: a delete is applied; an upsert is
    held back exactly when some row of the outbox has the key of the scope,
    the entity key, the state [pending] or [in_flight], and a payload text
    that matches the pattern built from the entity id.  The world is left as
    it was. *)
Lemma shouldApplyChange_computes :
  forall (scope : Scope) (change : DeltaChange) (lv : option json) (w : World),
    DefaultConflictDetector_shouldApplyChange scope change lv w
    = (w,
       Ok (match change with
           | Delete _ _ _ => true
           | Upsert entityKey entityId _ _ =>
               negb (existsb
                       (Outbox.pending_for_entity (scopeKey scope) entityKey entityId)
                       (outbox_ops (db w)))
           end)).
Proof.
  intros scope change lv w.
  destruct change as [k i data u | k i u]; [| reflexivity].
  unfold DefaultConflictDetector_shouldApplyChange, Outbox.hasPendingOpsForEntity,
    bind, getDB, ret.
  rewrite count_positive_iff_existsb.
  reflexivity.
Qed.

(** C3, at the failing input. The outbox holds one pending op, enqueued for
    the entity ["2"] of [items]; its payload mentions the id ["1"] in a
    nested object.  A remote upsert for the entity ["1"] of [items], for
    which the outbox has no op, is held back all the same. *)
Theorem shouldApplyChange_substring_false_positive :
  let payload := JObj [("id", JStr "2"); ("parent", JObj [("id", JStr "1")])] in
  let w :=
    fst (Outbox.enqueue (mkEnqueueOptions globalScope "items" OpUpsert payload None)
                        (world_of emptyDB (1 # 2))) in
  let change := Upsert "items" "1" (JObj [("id", JStr "1"); ("name", JStr "remote")]) 5000 in
  json_get payload "id" = Some (JStr "2")
  /\ map op_state (outbox_ops (db w)) = [Pending]
  /\ map op_payloadJson (outbox_ops (db w)) = [JSON_stringify payload]
  /\ snd (DefaultConflictDetector_shouldApplyChange globalScope change None w) = Ok false.
Proof.
  cbv zeta.
  repeat split; vm_compute; reflexivity.
Qed.

(** The ids ["1"] and ["21"] do not collide: the pattern holds the quotes
    around the id.  An op for the entity itself does hold the upsert back;
    a delete is applied all the same. *)
Example shouldApplyChange_examples :
  let enq (i : string) (w : World) :=
    fst (Outbox.enqueue
           (mkEnqueueOptions globalScope "items" OpUpsert (JObj [("id", JStr i)]) None)
           w) in
  let w := enq "21" (world_of emptyDB (1 # 2)) in
  snd (DefaultConflictDetector_shouldApplyChange
         globalScope (Upsert "items" "1" (JObj [("id", JStr "1")]) 5000) None w)
  = Ok true
  /\ snd (DefaultConflictDetector_shouldApplyChange
            globalScope (Upsert "items" "21" (JObj [("id", JStr "21")]) 5000) None w)
     = Ok false
  /\ snd (DefaultConflictDetector_shouldApplyChange
            globalScope (Delete "items" "21" 5000) None w)
     = Ok true.
Proof.
  cbv zeta. repeat split; vm_compute; reflexivity.
Qed.

Lemma existsb_of_In :
  forall (A : Type) (f : A -> bool) (l : list A) (x : A),
    In x l -> f x = true -> existsb f l = true.
Proof.
  intros A f l x Hin Hx.
  apply existsb_exists. exists x. split; assumption.
Qed.

Lemma find_none_of_existsb :
  forall (A : Type) (f : A -> bool) (l : list A),
    existsb f l = false -> find f l = None.
Proof.
  intros A f l H.
  induction l as [| x xs IH]; simpl in *; [reflexivity |].
  apply orb_false_iff in H. destruct H as [Hx Hxs].
  rewrite Hx. apply IH. exact Hxs.
Qed.

(** The first detection for an entity without an unresolved conflict, with
    a fresh identifier: one row is appended, unresolved, holding the remote
    data and the time of the detection. *)
Lemma onConflictDetected_first_detection :
  forall (parse : string -> option json) (scope : Scope) (k i : string)
         (data : json) (u : Z) (lv : option json) (w : World),
    existsb (unresolved_for (scopeKey scope) k i) (conflicts (db w)) = false ->
    id_in (map c_id (conflicts (db w))) (uuids w (uuid_reads w)) = false ->
    exists (w' : World) (c : Conflict),
      DefaultConflictDetector_onConflictDetected parse scope (Upsert k i data u) lv w
      = (w', Ok tt)
      /\ conflicts (db w') = (conflicts (db w) ++ [c])%list
      /\ unresolved_for (scopeKey scope) k i c = true
      /\ c_remoteVersionJson c = safeJsonEncode data
      /\ c_createdAt c = clock w (clock_reads w).
Proof.
  intros parse scope k i data u lv w Hnone Hfresh.
  unfold DefaultConflictDetector_onConflictDetected, hasConflict.
  unfold bind at 1. unfold getDB at 1. cbn [bind ret].
  unfold bind at 1. unfold ret at 1.
  rewrite count_positive_iff_existsb, Hnone.
  unfold bind at 1.
  assert (Hlocal : exists v, getLocalVersion parse k i w = (w, Ok v)).
  { unfold getLocalVersion, bind, getDB.
    destruct (firstn 1 _) as [| row rest]; [| eexists; reflexivity].
    destruct (String.eqb k "example_items"); [| eexists; reflexivity].
    destruct (find _ (example_items (db w))); eexists; reflexivity. }
  destruct Hlocal as [v Hv]. rewrite Hv.
  unfold createConflict, createConflict_body, insert_conflict,
    bind, generateUUID, nowMs, getDB, putDB, throw, ret.
  cbn [db clock clock_reads random random_reads uuids uuid_reads].
  rewrite (find_none_of_existsb _ _ _ Hnone).
  cbn [db c_id]. rewrite Hfresh.
  eexists. eexists. split; [reflexivity |].
  cbn [db set_db set_conflicts conflicts].
  split; [reflexivity |].
  split.
  - unfold unresolved_for. cbn. rewrite !String.eqb_refl. reflexivity.
  - split; reflexivity.
Qed.

(** Called directly, [createConflict] does update an existing unresolved
    row: after a detection with ["remote-1"] and a direct call with
    ["remote-2"] the single row holds ["remote-2"] and the time of the
    call. *)
Example createConflict_updates_existing_row :
  let payload := JObj [("id", JStr "e1"); ("name", JStr "local")] in
  let parse := JSON_parse_known [payload] in
  let remote1 := JObj [("id", JStr "e1"); ("name", JStr "remote-1")] in
  let remote2 := JObj [("id", JStr "e1"); ("name", JStr "remote-2")] in
  let w0 :=
    fst (Outbox.enqueue (mkEnqueueOptions globalScope "items" OpUpsert payload None)
                        (world_of emptyDB (1 # 2))) in
  let w1 :=
    fst (DefaultConflictDetector_onConflictDetected
           parse globalScope (Upsert "items" "e1" remote1 5000) None w0) in
  let w2 := fst (createConflict globalScope "items" "e1" payload remote2 true w1) in
  map c_remoteVersionJson (conflicts (db w2)) = [safeJsonEncode remote2]
  /\ map c_createdAt (conflicts (db w2)) = [3000].
Proof.
  cbv zeta. split; vm_compute; reflexivity.
Qed.

(** The claim as the specification states it fails: after a first
    detection (at clock reading 3000, remote name ["remote-1"]) and a second
    one for the same entity (remote name ["remote-2"]), the single conflict
    row still holds the remote version and the time of the first. *)
Lemma onConflictDetected_keeps_first_detection :
  let payload := JObj [("id", JStr "e1"); ("name", JStr "local")] in
  let parse := JSON_parse_known [payload] in
  let remote1 := JObj [("id", JStr "e1"); ("name", JStr "remote-1")] in
  let remote2 := JObj [("id", JStr "e1"); ("name", JStr "remote-2")] in
  let w0 :=
    fst (Outbox.enqueue (mkEnqueueOptions globalScope "items" OpUpsert payload None)
                        (world_of emptyDB (1 # 2))) in
  let w1 :=
    fst (DefaultConflictDetector_onConflictDetected
           parse globalScope (Upsert "items" "e1" remote1 5000) None w0) in
  let w2 :=
    fst (DefaultConflictDetector_onConflictDetected
           parse globalScope (Upsert "items" "e1" remote2 6000) None w1) in
  exists c : Conflict,
    conflicts (db w2) = [c]
    /\ c_resolvedAt c = None
    /\ c_localVersionJson c = safeJsonEncode payload
    /\ c_remoteVersionJson c = safeJsonEncode remote1
    /\ c_remoteVersionJson c <> safeJsonEncode remote2
    /\ c_createdAt c = 2000
    /\ clock w1 (clock_reads w1) = 3000.
Proof.
  cbv zeta.
  eexists.
  split; [vm_compute; reflexivity |].
  repeat split; try (vm_compute; reflexivity).
  vm_compute. discriminate.
Qed.

(** C1, amended. When the store holds an unresolved conflict row for the
    [(scope, entityKey, entityId)] of a change, [onConflictDetected] returns
    without a write and without a reading of the oracles: the world after
    the call is the world before it.  So a second detection inserts no
    duplicate, the unresolved rows of the entity are the ones that were
    there (exactly one where there was one), and the row keeps the local and
    remote versions and the timestamp of the first detection. *)
Theorem onConflictDetected_existing_conflict_unchanged :
  forall (parse : string -> option json) (scope : Scope) (change : DeltaChange)
         (lv : option json) (w : World) (c : Conflict),
    In c (conflicts (db w)) ->
    unresolved_for (scopeKey scope) (change_entityKey change)
                   (change_entityId change) c = true ->
    DefaultConflictDetector_onConflictDetected parse scope change lv w = (w, Ok tt).
Proof.
  intros parse scope change lv w c Hin Hc.
  destruct change as [k i data u | k i u]; [| reflexivity].
  simpl in Hc.
  unfold DefaultConflictDetector_onConflictDetected, hasConflict, bind, getDB, ret.
  rewrite count_positive_iff_existsb.
  rewrite (existsb_of_In _ _ _ c Hin Hc).
  reflexivity.
Qed.

(** The second detection of the run above, seen through the theorem. *)
Lemma onConflictDetected_existing_conflict_unchanged_witness :
  let payload := JObj [("id", JStr "e1"); ("name", JStr "local")] in
  let parse := JSON_parse_known [payload] in
  let remote1 := JObj [("id", JStr "e1"); ("name", JStr "remote-1")] in
  let remote2 := JObj [("id", JStr "e1"); ("name", JStr "remote-2")] in
  let w0 :=
    fst (Outbox.enqueue (mkEnqueueOptions globalScope "items" OpUpsert payload None)
                        (world_of emptyDB (1 # 2))) in
  let w1 :=
    fst (DefaultConflictDetector_onConflictDetected
           parse globalScope (Upsert "items" "e1" remote1 5000) None w0) in
  length (conflicts (db w1)) = 1%nat
  /\ DefaultConflictDetector_onConflictDetected
       parse globalScope (Upsert "items" "e1" remote2 6000) None w1
     = (w1, Ok tt).
Proof.
  cbv zeta.
  split; [vm_compute; reflexivity |].
  eapply onConflictDetected_existing_conflict_unchanged.
  - vm_compute. left. reflexivity.
  - vm_compute. reflexivity.
Defined.

(** ** Lists as tables *)

Lemma update_where_none :
  forall (A : Type) (cond : A -> bool) (set : A -> A) (l : list A),
    (forall x, In x l -> cond x = false) -> update_where cond set l = l.
Proof.
  intros A cond set l H.
  unfold update_where.
  induction l as [| x xs IH]; simpl; [reflexivity |].
  rewrite (H x) by (left; reflexivity).
  rewrite IH; [reflexivity |].
  intros y Hy. apply H. right. exact Hy.
Qed.

Lemma update_where_keeps :
  forall (A : Type) (cond : A -> bool) (set : A -> A) (l : list A) (x : A),
    In x l -> cond x = false -> In x (update_where cond set l).
Proof.
  intros A cond set l x Hin Hx.
  unfold update_where.
  apply in_map_iff. exists x. rewrite Hx. split; [reflexivity | exact Hin].
Qed.

Lemma update_where_hits :
  forall (A : Type) (cond : A -> bool) (set : A -> A) (l : list A) (x : A),
    In x l -> cond x = true -> In (set x) (update_where cond set l).
Proof.
  intros A cond set l x Hin Hx.
  unfold update_where.
  apply in_map_iff. exists x. rewrite Hx. split; [reflexivity | exact Hin].
Qed.

Lemma update_where_map_key :
  forall (A B : Type) (key : A -> B) (cond : A -> bool) (set : A -> A) (l : list A),
    (forall x, key (set x) = key x) ->
    map key (update_where cond set l) = map key l.
Proof.
  intros A B key cond set l Hkey.
  unfold update_where. rewrite map_map.
  apply map_ext. intros x. destruct (cond x); [apply Hkey | reflexivity].
Qed.

Lemma NoDup_map_inj :
  forall (A B : Type) (f : A -> B) (l : list A) (x y : A),
    NoDup (map f l) -> In x l -> In y l -> f x = f y -> x = y.
Proof.
  intros A B f l.
  induction l as [| z zs IH]; intros x y Hnd Hx Hy Hf; [contradiction |].
  simpl in Hnd. inversion Hnd as [| ? ? Hnotin Hnd']; subst.
  destruct Hx as [Hx | Hx]; destruct Hy as [Hy | Hy]; subst.
  - reflexivity.
  - exfalso. apply Hnotin. rewrite Hf. apply in_map. exact Hy.
  - exfalso. apply Hnotin. rewrite <- Hf. apply in_map. exact Hx.
  - apply IH; assumption.
Qed.

(** Two insertions commute when the keys differ. *)
Lemma insert_by_comm :
  forall (A : Type) (key : A -> Z) (x y : A) (l : list A),
    key x <> key y ->
    insert_by key x (insert_by key y l) = insert_by key y (insert_by key x l).
Proof.
  intros A key x y l Hxy.
  induction l as [| z zs IH]; simpl.
  - destruct (key x <=? key y) eqn:E1; destruct (key y <=? key x) eqn:E2;
      try reflexivity;
      [apply Z.leb_le in E1; apply Z.leb_le in E2 | apply Z.leb_gt in E1; apply Z.leb_gt in E2];
      lia.
  - destruct (key y <=? key z) eqn:Eyz; destruct (key x <=? key z) eqn:Exz; simpl;
      destruct (key x <=? key y) eqn:Exy; destruct (key y <=? key x) eqn:Eyx;
      rewrite ?Eyz, ?Exz; try reflexivity; try (rewrite IH; reflexivity);
      repeat match goal with
             | H : (_ <=? _) = true |- _ => apply Z.leb_le in H
             | H : (_ <=? _) = false |- _ => apply Z.leb_gt in H
             end; lia.
Qed.

Lemma order_by_Permutation :
  forall (A : Type) (key : A -> Z) (l l' : list A),
    Permutation l l' ->
    NoDup (map key l) ->
    order_by key l = order_by key l'.
Proof.
  intros A key l l' Hperm.
  induction Hperm as [| x l l' Hperm IH | x y l | l l' l'' H1 IH1 H2 IH2];
    intros Hnd.
  - reflexivity.
  - simpl. simpl in Hnd. inversion Hnd; subst. rewrite IH; auto.
  - simpl. simpl in Hnd.
    inversion Hnd as [| ? ? Hnotin _]; subst.
    apply insert_by_comm.
    intros Heq. apply Hnotin. left. symmetry. exact Heq.
  - rewrite IH1 by exact Hnd. apply IH2.
    eapply Permutation_NoDup; [| exact Hnd].
    apply Permutation_map. exact H1.
Qed.

(** ** The outbox queue *)

Lemma filter_none :
  forall (A : Type) (f : A -> bool) (l : list A),
    (forall x, In x l -> f x = false) -> filter f l = [].
Proof.
  intros A f l H.
  induction l as [| x xs IH]; simpl; [reflexivity |].
  rewrite (H x) by (left; reflexivity).
  apply IH. intros y Hy. apply H. right. exact Hy.
Qed.

Lemma set_outbox_same : forall d : DB, set_outbox d (outbox_ops d) = d.
Proof. intros [o c s e]. reflexivity. Qed.

Lemma set_db_same : forall w : World, set_db w (db w) = w.
Proof. intros [d c cr r rr u ur]. reflexivity. Qed.

(** Without an [in_flight] row in the scope, the reset reads the clock and
    changes nothing. *)
Lemma resetStaleInFlight_no_in_flight :
  forall (scope : Scope) (w : World),
    (forall op, In op (outbox_ops (db w)) ->
                in_scope scope op = true -> op_state op <> InFlight) ->
    Outbox.resetStaleInFlight scope w = (after_clock_read w, Ok 0%nat).
Proof.
  intros scope w H.
  unfold Outbox.resetStaleInFlight, Outbox.resetStaleInFlight_with,
    bind, nowMs, getDB, putDB, ret.
  cbn [db clock clock_reads].
  assert (Hstale : forall op, In op (outbox_ops (db w)) ->
     (String.eqb (op_scopeKey op) (scopeKey scope)
      && OutboxOpState_eqb (op_state op) InFlight
      && (op_updatedAt op <? clock w (clock_reads w) - 5 * 60 * 1000))%bool = false).
  { intros op Hin.
    destruct (String.eqb (op_scopeKey op) (scopeKey scope)) eqn:Hs; [| reflexivity].
    specialize (H op Hin Hs).
    destruct (op_state op); try reflexivity. contradiction. }
  rewrite update_where_none by exact Hstale.
  rewrite set_outbox_same.
  rewrite filter_none by exact Hstale.
  reflexivity.
Qed.

Lemma in_scope_rows :
  forall (scope : Scope) (l : list OutboxOp) (rows : list OutboxOp),
    Permutation (filter (in_scope scope) l) rows ->
    (forall op, In op l -> in_scope scope op = true -> In op rows)
    /\ (forall op, In op rows -> In op l /\ in_scope scope op = true).
Proof.
  intros scope l rows Hperm. split.
  - intros op Hin Hs.
    apply (Permutation_in _ Hperm). apply filter_In. split; assumption.
  - intros op Hin.
    apply filter_In. apply (Permutation_in _ (Permutation_sym Hperm)). exact Hin.
Qed.

(** C6. Let the ops of a scope be three pending ops created at
    [t1 < t2 < t3] (the ids of the table being unique, as its primary key
    makes them).  Then [claimPending(scope, 2)] returns the ops created at
    [t1] and [t2], and no other, each now [in_flight] with the time of the
    claim as [updatedAt]; the returned rows are rows of the table after the
    call, and the op created at [t3] is still there as it was, [pending]. *)
Theorem claimPending_fifo :
  forall (scope : Scope) (w : World) (o1 o2 o3 : OutboxOp),
    NoDup (map op_id (outbox_ops (db w))) ->
    Permutation (filter (in_scope scope) (outbox_ops (db w))) [o1; o2; o3] ->
    op_state o1 = Pending ->
    op_state o2 = Pending ->
    op_state o3 = Pending ->
    op_createdAt o1 < op_createdAt o2 ->
    op_createdAt o2 < op_createdAt o3 ->
    let now := clock w (S (clock_reads w)) in
    exists (w' : World) (claimed : list OutboxOp),
      Outbox.claimPending scope 2 w = (w', Ok claimed)
      /\ Permutation claimed
                     [set_op_state InFlight now o1; set_op_state InFlight now o2]
      /\ (forall op, In op claimed ->
                     In op (outbox_ops (db w')) /\ op_state op = InFlight)
      /\ In o3 (outbox_ops (db w'))
      /\ op_state o3 = Pending.
Proof.
  intros scope w o1 o2 o3 Hnd Hperm Hs1 Hs2 Hs3 Ht12 Ht23 now.
  set (l := outbox_ops (db w)) in *.
  destruct (in_scope_rows scope l _ Hperm) as [Hall Hrows].
  destruct (Hrows o1) as [Hin1 Hsc1]; [simpl; auto |].
  destruct (Hrows o2) as [Hin2 Hsc2]; [simpl; auto |].
  destruct (Hrows o3) as [Hin3 Hsc3]; [simpl; auto |].
  assert (Hpending : forall op, In op l -> in_scope scope op = true ->
                                op_state op = Pending).
  { intros op Hin Hsc. destruct (Hall op Hin Hsc) as [E | [E | [E | []]]];
      subst op; assumption. }
  (* the ids of the three ops differ *)
  assert (Hid12 : op_id o1 <> op_id o2).
  { intros E. assert (o1 = o2) by (eapply NoDup_map_inj; eauto). subst. lia. }
  assert (Hid13 : op_id o1 <> op_id o3).
  { intros E. assert (o1 = o3) by (eapply NoDup_map_inj; eauto). subst. lia. }
  assert (Hid23 : op_id o2 <> op_id o3).
  { intros E. assert (o2 = o3) by (eapply NoDup_map_inj; eauto). subst. lia. }
  (* the pending rows of the scope, in the order of creation *)
  assert (Hsorted :
            order_by op_createdAt
              (filter (fun op => (String.eqb (op_scopeKey op) (scopeKey scope)
                                  && OutboxOpState_eqb (op_state op) Pending)%bool) l)
            = [o1; o2; o3]).
  { rewrite (filter_ext_in _ (in_scope scope)).
    - rewrite (order_by_Permutation _ _ _ _ Hperm).
      + simpl.
        assert (E23 : (op_createdAt o2 <=? op_createdAt o3) = true)
          by (apply Z.leb_le; lia).
        assert (E12 : (op_createdAt o1 <=? op_createdAt o2) = true)
          by (apply Z.leb_le; lia).
        rewrite E23. simpl. rewrite E12. reflexivity.
      + eapply Permutation_NoDup.
        * apply Permutation_map. apply Permutation_sym. exact Hperm.
        * simpl. repeat constructor; simpl; intuition lia.
    - intros op Hin. unfold in_scope.
      destruct (String.eqb (op_scopeKey op) (scopeKey scope)) eqn:Hsc; [| reflexivity].
      rewrite (Hpending op Hin Hsc). reflexivity. }
  unfold Outbox.claimPending.
  unfold bind at 1.
  rewrite resetStaleInFlight_no_in_flight.
  2:{ intros op Hin Hsc. rewrite (Hpending op Hin Hsc). discriminate. }
  unfold Outbox.getPending, Outbox.claimByIds, Outbox.getByIds,
    bind, nowMs, getDB, putDB, ret.
  cbn [db after_clock_read clock clock_reads set_db].
  fold l. rewrite Hsorted.
  cbn [firstn map].
  cbn [db after_clock_read clock clock_reads set_db set_outbox outbox_ops].
  fold now.
  set (ids := [op_id o1; op_id o2]).
  set (claim := fun op : OutboxOp =>
                  (id_in ids (op_id op) && OutboxOpState_eqb (op_state op) Pending)%bool).
  assert (Hc1 : claim o1 = true).
  { unfold claim, ids, id_in. simpl. rewrite String.eqb_refl, Hs1. reflexivity. }
  assert (Hc2 : claim o2 = true).
  { unfold claim, ids, id_in. simpl. rewrite String.eqb_refl, Hs2.
    rewrite orb_true_r. reflexivity. }
  assert (Hc3 : claim o3 = false).
  { unfold claim, ids, id_in. simpl.
    apply not_eq_sym in Hid13. apply not_eq_sym in Hid23.
    apply String.eqb_neq in Hid13. apply String.eqb_neq in Hid23.
    rewrite Hid13, Hid23. reflexivity. }
  eexists. eexists. split; [reflexivity |].
  set (l2 := update_where claim (set_op_state InFlight now) l).
  assert (Hclaimed : forall op, In op (filter (fun r => id_in ids (op_id r)) l2) <->
                                op = set_op_state InFlight now o1
                                \/ op = set_op_state InFlight now o2).
  { intros op. rewrite filter_In. unfold l2, update_where. rewrite in_map_iff.
    split.
    - intros [[x [Hx Hinx]] Hid].
      assert (Hidx : id_in ids (op_id x) = true).
      { destruct (claim x); subst op; exact Hid. }
      unfold ids, id_in in Hidx. simpl in Hidx.
      rewrite orb_false_r in Hidx. apply orb_true_iff in Hidx.
      destruct Hidx as [E | E]; apply String.eqb_eq in E.
      + assert (x = o1) by (eapply NoDup_map_inj; eauto). subst x.
        rewrite Hc1 in Hx. left. symmetry. exact Hx.
      + assert (x = o2) by (eapply NoDup_map_inj; eauto). subst x.
        rewrite Hc2 in Hx. right. symmetry. exact Hx.
    - intros [E | E]; subst op; split.
      + exists o1. rewrite Hc1. auto.
      + unfold ids, id_in. simpl. rewrite String.eqb_refl. reflexivity.
      + exists o2. rewrite Hc2. auto.
      + unfold ids, id_in. simpl. rewrite String.eqb_refl, orb_true_r. reflexivity. }
  split; [| split; [| split]].
  - apply NoDup_Permutation.
    + apply NoDup_filter.
      apply (NoDup_map_inv op_id).
      unfold l2. rewrite update_where_map_key; [exact Hnd | reflexivity].
    + repeat constructor; simpl; [| tauto].
      intros [E | []].
      apply (f_equal op_id) in E. simpl in E. congruence.
    + intros op. split; intros H.
      * apply Hclaimed in H. simpl. destruct H as [E | E]; subst op; auto.
      * apply Hclaimed. simpl in H. destruct H as [E | [E | []]]; subst op; auto.
  - intros op Hin. split.
    + apply filter_In in Hin. exact (proj1 Hin).
    + apply Hclaimed in Hin. destruct Hin as [E | E]; subst op; reflexivity.
  - apply update_where_keeps; assumption.
  - exact Hs3.
Qed.

(** Three ops enqueued one after the other in the global scope (created at
    1000, 2000 and 3000 ms), then a claim of two. *)
Lemma claimPending_fifo_witness :
  let enq (i : string) (w : World) :=
    fst (Outbox.enqueue
           (mkEnqueueOptions globalScope "items" OpUpsert (JObj [("id", JStr i)]) None)
           w) in
  let w := enq "c" (enq "b" (enq "a" (world_of emptyDB (1 # 2)))) in
  let row (n : nat) :=
    nth n (outbox_ops (db w))
        (mkOutboxOp "" "" "" OpCustom "" "" 0 Blocked None 0 0) in
  map op_createdAt (outbox_ops (db w)) = [1000; 2000; 3000]
  /\ exists (w' : World) (claimed : list OutboxOp),
      Outbox.claimPending globalScope 2 w = (w', Ok claimed)
      /\ Permutation claimed
                     [set_op_state InFlight 5000 (row 0%nat);
                      set_op_state InFlight 5000 (row 1%nat)]
      /\ In (row 2%nat) (outbox_ops (db w')).
Proof.
  cbv zeta.
  split; [vm_compute; reflexivity |].
  match goal with
  | |- context [Outbox.claimPending ?s 2 ?w] =>
      destruct (claimPending_fifo s w
                  (nth 0 (outbox_ops (db w))
                       (mkOutboxOp "" "" "" OpCustom "" "" 0 Blocked None 0 0))
                  (nth 1 (outbox_ops (db w))
                       (mkOutboxOp "" "" "" OpCustom "" "" 0 Blocked None 0 0))
                  (nth 2 (outbox_ops (db w))
                       (mkOutboxOp "" "" "" OpCustom "" "" 0 Blocked None 0 0)))
        as [w' [claimed [H1 [H2 [_ [H4 _]]]]]]
  end.
  - vm_compute. repeat constructor; simpl; intuition discriminate.
  - vm_compute. apply Permutation_refl.
  - vm_compute. reflexivity.
  - vm_compute. reflexivity.
  - vm_compute. reflexivity.
  - vm_compute. reflexivity.
  - vm_compute. reflexivity.
  - exists w', claimed. repeat split; assumption.
Defined.

(** ** Batches of remote changes *)

Lemma add_result_no_result : forall acc, add_result acc no_result = acc.
Proof.
  intros [a c e]. unfold add_result, no_result. simpl.
  rewrite !Nat.add_0_r, app_nil_r. reflexivity.
Qed.

Lemma applyOne_acc :
  forall options handler change acc w,
    applyOne options handler change acc w
    = (fst (applyOne options handler change no_result w),
       add_result acc (snd (applyOne options handler change no_result w))).
Proof.
  intros options handler change [a c e] w.
  unfold applyOne, add_result, no_result.
  destruct (applyOneTry options handler change w) as [w' [[|] | err]]; simpl;
    rewrite ?Nat.add_0_r, ?Nat.add_1_r, ?app_nil_r; reflexivity.
Qed.

Lemma add_result_assoc :
  forall a b c, add_result (add_result a b) c = add_result a (add_result b c).
Proof.
  intros [a1 a2 a3] [b1 b2 b3] [c1 c2 c3]. unfold add_result. simpl.
  rewrite !Nat.add_assoc, app_assoc. reflexivity.
Qed.

(** The loop adds to its accumulator what it counts from zero. *)
Lemma applyLoop_acc :
  forall options handler changes acc w,
    applyLoop options handler changes acc w
    = (fst (applyLoop options handler changes no_result w),
       add_result acc (snd (applyLoop options handler changes no_result w))).
Proof.
  intros options handler changes.
  induction changes as [| c rest IH]; intros acc w.
  - simpl. rewrite add_result_no_result. reflexivity.
  - simpl.
    rewrite (applyOne_acc options handler c acc w).
    destruct (applyOne options handler c no_result w) as [w1 r1] eqn:E1.
    simpl.
    rewrite (IH (add_result acc r1) w1), (IH r1 w1).
    simpl. rewrite add_result_assoc. reflexivity.
Qed.

Lemma applyLoop_app :
  forall options handler l1 l2 acc w,
    applyLoop options handler (l1 ++ l2) acc w
    = applyLoop options handler l2
                (snd (applyLoop options handler l1 acc w))
                (fst (applyLoop options handler l1 acc w)).
Proof.
  intros options handler l1.
  induction l1 as [| c rest IH]; intros l2 acc w.
  - reflexivity.
  - simpl. destruct (applyOne options handler c acc w) as [w1 a1].
    apply IH.
Qed.

(** What [applyChanges] returns, by the errors the loop collected. *)
Lemma applyChanges_by_errors :
  forall changes handler options w,
    let w1 := fst (applyLoop options handler changes no_result w) in
    let acc := snd (applyLoop options handler changes no_result w) in
    applyChanges changes handler options w
    = match errors acc with
      | [] => (w1, Ok acc)
      | _ :: _ =>
          (set_db w1 (db w),
           Ok (mkApplyResult 0 (conflicts_count acc) (errors acc)))
      end.
Proof.
  intros changes handler options w. cbv zeta.
  unfold applyChanges, withTransaction, applyChanges_transaction.
  fold no_result.
  destruct (applyLoop options handler changes no_result w) as [w1 acc].
  simpl. destruct (errors acc); reflexivity.
Qed.

(** A batch with a change that throws, split at that change: the result of
    the loop over the whole batch. *)
Lemma applyLoop_with_throw :
  forall options handler pre c post w w2 e,
    applyOneTry options handler c
                (fst (applyLoop options handler pre no_result w)) = (w2, Err e) ->
    let a1 := snd (applyLoop options handler pre no_result w) in
    let r := applyLoop options handler post no_result w2 in
    applyLoop options handler (pre ++ c :: post) no_result w
    = (fst r,
       mkApplyResult (applied a1 + applied (snd r))
                     (conflicts_count a1 + conflicts_count (snd r))
                     (errors a1 ++ (c, e) :: errors (snd r))).
Proof.
  intros options handler pre c post w w2 e Hthrow. cbv zeta.
  rewrite applyLoop_app.
  destruct (applyLoop options handler pre no_result w) as [w1 a1].
  simpl in *. unfold applyOne. rewrite Hthrow.
  rewrite applyLoop_acc.
  destruct (applyLoop options handler post no_result w2) as [w3 r].
  simpl. unfold add_result. simpl.
  rewrite <- app_assoc. reflexivity.
Qed.

Lemma errors_with_throw_nonempty :
  forall (l1 l2 : list (DeltaChange * Error)) (x : DeltaChange * Error),
    exists y rest, (l1 ++ x :: l2)%list = y :: rest.
Proof.
  intros [| y l1] l2 x; simpl; eauto.
Qed.

(** A batch with a change that throws: what [applyChanges] returns. *)
Lemma applyChanges_with_throw :
  forall options handler pre c post w w2 e,
    applyOneTry options handler c
                (fst (applyLoop options handler pre no_result w)) = (w2, Err e) ->
    let a1 := snd (applyLoop options handler pre no_result w) in
    let r := applyLoop options handler post no_result w2 in
    applyChanges (pre ++ c :: post) handler options w
    = (set_db (fst r) (db w),
       Ok (mkApplyResult 0 (conflicts_count a1 + conflicts_count (snd r))
                         (errors a1 ++ (c, e) :: errors (snd r)))).
Proof.
  intros options handler pre c post w w2 e Hthrow. cbv zeta.
  rewrite applyChanges_by_errors. cbv zeta.
  rewrite (applyLoop_with_throw options handler pre c post w w2 e Hthrow).
  cbv zeta. simpl.
  destruct (errors_with_throw_nonempty
              (errors (snd (applyLoop options handler pre no_result w)))
              (errors (snd (applyLoop options handler post no_result w2)))
              (c, e)) as [y [rest Hy]].
  rewrite Hy. reflexivity.
Qed.

(** The claim as it is stated fails when a change after the throwing one
    is held back as well: the loop goes on after it has caught an error.
    Two local upserts wait in the outbox, for [e1] and for [e3]; the batch
    holds a remote upsert of [e1] (a conflict), an upsert with [null] data
    (it throws) and a remote upsert of [e3] (a conflict).  One conflict is
    detected before the throw, and the result reports two. *)
Lemma applyChanges_counts_conflicts_after_throw :
  let p1 := JObj [("id", JStr "e1"); ("name", JStr "local")] in
  let p3 := JObj [("id", JStr "e3"); ("name", JStr "local")] in
  let options :=
    mkApplyOptions (Some globalScope)
                   (Some (DefaultConflictDetector (JSON_parse_known [p1; p3]))) in
  let handler := ExampleDeltaHandler (fun _ => None) in
  let enq (payload : json) (w : World) :=
    fst (Outbox.enqueue
           (mkEnqueueOptions globalScope "example_items" OpUpsert payload None) w) in
  let w := enq p3 (enq p1 (world_of emptyDB (1 # 2))) in
  let first := Upsert "example_items" "e1" (JObj [("id", JStr "e1")]) 5000 in
  let broken := Upsert "example_items" "e2" JNull 6000 in
  let last := Upsert "example_items" "e3" (JObj [("id", JStr "e3")]) 7000 in
  conflicts_count (snd (applyLoop options handler [first] no_result w)) = 1%nat
  /\ snd (applyOneTry options handler broken
                      (fst (applyLoop options handler [first] no_result w)))
     = Err (mkError "TypeError: Cannot read properties of null")
  /\ exists (w' : World) (r : ApplyResult),
      applyChanges [first; broken; last] handler options w = (w', Ok r)
      /\ applied r = 0%nat
      /\ conflicts_count r = 2%nat
      /\ map fst (errors r) = [broken]
      /\ conflicts (db w') = [].
Proof.
  cbv zeta.
  split; [vm_compute; reflexivity |].
  split; [vm_compute; reflexivity |].
  eexists. eexists.
  split; [vm_compute; reflexivity |].
  repeat split.
Qed.

(** C9, amended. Let [k] conflicts be detected in the changes [pre] of a
    batch and let the next change [c] throw.  Then [applyChanges] returns
    normally with [applied = 0] and with the thrown error among [errors];
    the store is the one before the batch, so the conflict rows that
    [onConflictDetected] wrote inside the transaction are gone; and
    [conflicts] is [k] plus the conflicts detected in the changes after
    [c], for the loop goes on after a caught error: exactly [k] when [c] is
    the last change.  The witness below is a batch with [conflicts = 1]
    after which the conflicts table is empty. *)
Theorem applyChanges_reports_rolled_back_conflicts :
  forall (options : ApplyOptions) (handler : DeltaChangeHandler)
         (pre post : list DeltaChange) (c : DeltaChange)
         (w w2 : World) (e : Error) (k : nat),
    conflicts_count (snd (applyLoop options handler pre no_result w)) = k ->
    applyOneTry options handler c
                (fst (applyLoop options handler pre no_result w)) = (w2, Err e) ->
    (exists (w' : World) (r : ApplyResult),
        applyChanges (pre ++ c :: post) handler options w = (w', Ok r)
        /\ db w' = db w
        /\ applied r = 0%nat
        /\ conflicts_count r
           = (k + conflicts_count (snd (applyLoop options handler post no_result w2)))%nat
        /\ In (c, e) (errors r))
    /\ (exists (w' : World) (r : ApplyResult),
           applyChanges (pre ++ [c]) handler options w = (w', Ok r)
           /\ db w' = db w
           /\ applied r = 0%nat
           /\ conflicts_count r = k
           /\ In (c, e) (errors r)).
Proof.
  intros options handler pre post c w w2 e k Hk Hthrow.
  split.
  - rewrite (applyChanges_with_throw options handler pre c post w w2 e Hthrow).
    cbv zeta. eexists. eexists. split; [reflexivity |].
    simpl. rewrite Hk.
    repeat split; try reflexivity.
    apply in_or_app. right. left. reflexivity.
  - rewrite (applyChanges_with_throw options handler pre c [] w w2 e Hthrow).
    cbv zeta. eexists. eexists. split; [reflexivity |].
    simpl. rewrite Hk, Nat.add_0_r.
    repeat split; try reflexivity.
    apply in_or_app. right. left. reflexivity.
Qed.

(** A pending local op for the entity [e1]; a page with a remote upsert of
    [e1] (a conflict) followed by an upsert whose data is [null] (the
    example handler throws on it): one conflict is reported, no conflict row
    is left. *)
Lemma applyChanges_reports_rolled_back_conflicts_witness :
  let payload := JObj [("id", JStr "e1"); ("name", JStr "local")] in
  let parse := JSON_parse_known [payload] in
  let options := mkApplyOptions (Some globalScope) (Some (DefaultConflictDetector parse)) in
  let handler := ExampleDeltaHandler (fun _ => None) in
  let w :=
    fst (Outbox.enqueue
           (mkEnqueueOptions globalScope "example_items" OpUpsert payload None)
           (world_of emptyDB (1 # 2))) in
  let remote := Upsert "example_items" "e1" (JObj [("id", JStr "e1")]) 5000 in
  let broken := Upsert "example_items" "e2" JNull 6000 in
  length (conflicts (db (fst (applyLoop options handler [remote] no_result w)))) = 1%nat
  /\ exists (w' : World) (r : ApplyResult),
      applyChanges [remote; broken] handler options w = (w', Ok r)
      /\ applied r = 0%nat
      /\ conflicts_count r = 1%nat
      /\ conflicts (db w') = [].
Proof.
  cbv zeta.
  split; [vm_compute; reflexivity |].
  match goal with
  | |- context [applyChanges [?remote; ?broken] ?handler ?options ?w] =>
      destruct (applyChanges_reports_rolled_back_conflicts
                  options handler [remote] [] broken w
                  (fst (applyOneTry options handler broken
                          (fst (applyLoop options handler [remote] no_result w))))
                  (mkError "TypeError: Cannot read properties of null")
                  1%nat)
        as [_ [w' [r [H1 [H2 [H3 [H4 _]]]]]]]
  end.
  - vm_compute. reflexivity.
  - vm_compute. reflexivity.
  - exists w', r. simpl in H1. repeat split; try assumption.
    rewrite H2. vm_compute. reflexivity.
Defined.

(** The conflict scenario of the specification: a local upsert of [e1]
    waits in the outbox when a page delivers a remote upsert of [e1]; the
    page reports one conflict and nothing applied, and one unresolved
    conflict row exists. *)
Example applyChanges_conflict_scenario :
  let payload := JObj [("id", JStr "e1"); ("name", JStr "local")] in
  let parse := JSON_parse_known [payload] in
  let w :=
    fst (Outbox.enqueue
           (mkEnqueueOptions globalScope "example_items" OpUpsert payload None)
           (world_of emptyDB (1 # 2))) in
  let '(w', r) :=
    applyChanges [Upsert "example_items" "e1" (JObj [("id", JStr "e1")]) 5000]
                 (ExampleDeltaHandler (fun _ => None))
                 (mkApplyOptions (Some globalScope) (Some (DefaultConflictDetector parse)))
                 w in
  r = Ok (mkApplyResult 0 1 [])
  /\ map c_resolvedAt (conflicts (db w')) = [None]
  /\ example_items (db w') = [].
Proof.
  vm_compute. repeat split; reflexivity.
Qed.

(** ** The pull loop *)

(** The loop of [runDeltaPull] started with [maxPagesPerRun] turns of fuel
    never stops for want of fuel: with fuel enough to bring [pagesPulled]
    to [maxPagesPerRun], one more turn of fuel changes nothing. *)
Lemma runDeltaPull_loop_fuel :
  forall (S : Type) (runner : DeltaRunner S) (scope : Scope) (collectionKey : string)
         (fuel : nat) (locals : PullLocals) (s : S) (w : World),
    (maxPagesPerRun runner <= pagesPulled (pl_stats locals) + fuel)%nat ->
    runDeltaPull_loop fuel runner scope collectionKey locals s w
    = runDeltaPull_loop (Datatypes.S fuel) runner scope collectionKey locals s w.
Proof.
  intros S runner scope collectionKey fuel.
  induction fuel as [| fuel IH]; intros locals s w Hsum.
  - cbn [runDeltaPull_loop].
    assert (E : (pagesPulled (pl_stats locals) <? maxPagesPerRun runner)%nat = false)
      by (apply Nat.ltb_ge; lia).
    rewrite E, andb_false_r. reflexivity.
  - remember (Datatypes.S fuel) as fuel1 eqn:Hfuel1.
    cbn [runDeltaPull_loop]. rewrite Hfuel1 at 1. cbn [runDeltaPull_loop].
    destruct (negb (pl_hasMore locals
                    && (pagesPulled (pl_stats locals) <? maxPagesPerRun runner)%nat));
      [reflexivity |].
    destruct (pullChanges (dr_adapter runner) s scope collectionKey (currentCursor locals))
      as [s' [response | e]]; [| reflexivity].
    assert (Hnext : forall st2 more s2 w2,
               pagesPulled st2 = Datatypes.S (pagesPulled (pl_stats locals)) ->
               runDeltaPull_loop fuel runner scope collectionKey
                                 (mkPullLocals st2 (nextCursor response) more) s2 w2
               = runDeltaPull_loop fuel1 runner scope collectionKey
                                   (mkPullLocals st2 (nextCursor response) more) s2 w2).
    { intros st2 more s2 w2 Hst2. apply IH. simpl. lia. }
    destruct (dr_handler runner) as [handler |];
      [destruct (0 <? length (changes response))%nat;
       [destruct (applyChanges (changes response) handler
                               (mkApplyOptions (Some scope) (dr_conflictDetector runner)) w)
          as [w1 [result | e]];
        [destruct (0 <? length (errors result))%nat |] |] |];
      try reflexivity;
      match goal with
      | |- context [setCursor ?sc ?k ?c ?w0] =>
          destruct (setCursor sc k c w0) as [w2 [[] | e]]; [| reflexivity]
      end;
      match goal with
      | |- (if ?b then _ else _) = _ => destruct b; [reflexivity |]
      end;
      apply Hnext; reflexivity.
Qed.

(** C4. Let the loop of [runDeltaPull] pull a page (a handler is configured)
    in which the application of some change [c] throws.  Then the run ends
    at that page, and the store after the run is the store before the page
    was pulled: the persisted cursor of [(scope, collectionKey)] is the one
    before the page, the entity tables show none of the changes of the
    page, and [applyChanges] reported [applied = 0] for it. *)
Theorem runDeltaPull_failed_page_keeps_cursor :
  forall (S : Type) (runner : DeltaRunner S) (scope : Scope) (collectionKey : string)
         (fuel : nat) (locals : PullLocals) (s s' : S) (w w2 : World)
         (response : DeltaPullResponse) (handler : DeltaChangeHandler)
         (pre post : list DeltaChange) (c : DeltaChange) (e : Error),
    dr_handler runner = Some handler ->
    pl_hasMore locals = true ->
    (pagesPulled (pl_stats locals) < maxPagesPerRun runner)%nat ->
    pullChanges (dr_adapter runner) s scope collectionKey (currentCursor locals)
    = (s', Ok response) ->
    changes response = (pre ++ c :: post)%list ->
    applyOneTry (mkApplyOptions (Some scope) (dr_conflictDetector runner)) handler c
                (fst (applyLoop (mkApplyOptions (Some scope) (dr_conflictDetector runner))
                                handler pre no_result w))
    = (w2, Err e) ->
    exists (w' : World) (stats : DeltaPullStats) (r : ApplyResult),
      runDeltaPull_loop (Datatypes.S fuel) runner scope collectionKey locals s w
      = (s', w', Ok stats)
      /\ db w' = db w
      /\ snd (getCursor scope collectionKey w') = snd (getCursor scope collectionKey w)
      /\ example_items (db w') = example_items (db w)
      /\ snd (applyChanges (changes response) handler
                           (mkApplyOptions (Some scope) (dr_conflictDetector runner)) w)
         = Ok r
      /\ applied r = 0%nat
      /\ In (c, e) (errors r)
      /\ totalApplied stats = totalApplied (pl_stats locals)
      /\ pagesPulled stats = Datatypes.S (pagesPulled (pl_stats locals))
      /\ totalErrors stats = (totalErrors (pl_stats locals) + length (errors r))%nat.
Proof.
  intros S runner scope collectionKey fuel locals s s' w w2 response handler
         pre post c e Hhandler Hmore Hpages Hpull Hchanges Hthrow.
  set (options := mkApplyOptions (Some scope) (dr_conflictDetector runner)) in *.
  pose proof (applyChanges_with_throw options handler pre c post w w2 e Hthrow)
    as Happly.
  cbv zeta in Happly. rewrite <- Hchanges in Happly.
  cbn [runDeltaPull_loop].
  rewrite Hmore.
  apply Nat.ltb_lt in Hpages. rewrite Hpages.
  cbn [andb negb].
  rewrite Hpull, Hhandler.
  assert (Hlen : (0 <? length (changes response))%nat = true).
  { rewrite Hchanges, length_app. simpl. apply Nat.ltb_lt. lia. }
  rewrite Hlen.
  fold options. rewrite Happly.
  destruct (errors_with_throw_nonempty
              (errors (snd (applyLoop options handler pre no_result w)))
              (errors (snd (applyLoop options handler post no_result w2)))
              (c, e)) as [y [rest Hy]].
  cbn [errors applied conflicts_count].
  assert (Hpos : (0 <? length
                         (errors (snd (applyLoop options handler pre no_result w))
                          ++ (c, e)
                          :: errors (snd (applyLoop options handler post no_result w2))))%nat
                 = true).
  { rewrite Hy. reflexivity. }
  rewrite Hpos.
  eexists. eexists. eexists.
  split; [reflexivity |].
  split; [reflexivity |].
  split.
  { unfold getCursor, bind, getDB, ret. cbn [db set_db].
    destruct (find (cursor_key_is (scopeKey scope) collectionKey)
                   (sync_cursors (db w))); reflexivity. }
  split; [reflexivity |].
  split; [reflexivity |].
  split; [reflexivity |].
  split; [apply in_or_app; right; left; reflexivity |].
  cbn. repeat split; lia.
Qed.

(** A run over that page, from a store whose cursor is ["cursor-0"]: the
    cursor is still ["cursor-0"] and [example_items] is still empty. *)
Lemma runDeltaPull_failed_page_keeps_cursor_witness :
  let runner :=
    mkDeltaRunner failing_page_adapter (Some (ExampleDeltaHandler (fun _ => None)))
                  10 None in
  let w :=
    fst (setCursor globalScope "example_items" "cursor-0" (world_of emptyDB (1 # 2))) in
  snd (getCursor globalScope "example_items" w) = Ok "cursor-0"
  /\ exists (w' : World) (stats : DeltaPullStats),
      runDeltaPull runner globalScope "example_items" tt w = (tt, w', Ok stats)
      /\ snd (getCursor globalScope "example_items" w') = Ok "cursor-0"
      /\ example_items (db w') = []
      /\ totalApplied stats = 0%nat.
Proof.
  cbv zeta.
  split; [reflexivity |].
  match goal with
  | |- context [runDeltaPull ?runner ?scope ?key tt ?w] =>
      assert (E : runDeltaPull runner scope key tt w
                  = runDeltaPull_loop 10 runner scope key
                      (mkPullLocals (mkDeltaPullStats 0 0 0 0 0) "cursor-0" true) tt w)
        by reflexivity;
      destruct (runDeltaPull_failed_page_keeps_cursor
                  unit runner scope key 9
                  (mkPullLocals (mkDeltaPullStats 0 0 0 0 0) "cursor-0" true)
                  tt tt w
                  (fst (ExampleDeltaHandler_applyUpsert
                          (fun _ => None) "example_items" "i2" JNull 6000
                          (fst (applyLoop (mkApplyOptions (Some scope) None)
                                          (ExampleDeltaHandler (fun _ => None))
                                          [Upsert "example_items" "i1"
                                                  (JObj [("name", JStr "Item 1")]) 5000]
                                          no_result w))))
                  (mkDeltaPullResponse
                     [Upsert "example_items" "i1" (JObj [("name", JStr "Item 1")]) 5000;
                      Upsert "example_items" "i2" JNull 6000]
                     "cursor-1" (Some false))
                  (ExampleDeltaHandler (fun _ => None))
                  [Upsert "example_items" "i1" (JObj [("name", JStr "Item 1")]) 5000]
                  []
                  (Upsert "example_items" "i2" JNull 6000)
                  (mkError "TypeError: Cannot read properties of null"))
        as [w' [stats [r [H1 [H2 [H3 [H4 [_ [_ [_ [H8 _]]]]]]]]]]]
  end.
  - reflexivity.
  - reflexivity.
  - cbn. lia.
  - reflexivity.
  - reflexivity.
  - vm_compute. reflexivity.
  - exists w', stats. rewrite E.
    split; [exact H1 |].
    split; [rewrite H3; reflexivity |].
    split; [rewrite H4; reflexivity |].
    exact H8.
Defined.

(** ** Terminal states of the outbox *)

Lemma In_firstn :
  forall (A : Type) (n : nat) (l : list A) (x : A), In x (firstn n l) -> In x l.
Proof.
  intros A n l x Hin.
  rewrite <- (firstn_skipn n l). apply in_or_app. left. exact Hin.
Qed.

Lemma NoDup_firstn :
  forall (A : Type) (n : nat) (l : list A), NoDup l -> NoDup (firstn n l).
Proof.
  intros A n l Hnd.
  rewrite <- (firstn_skipn n l) in Hnd.
  apply NoDup_app_remove_r in Hnd. exact Hnd.
Qed.

Lemma insert_by_Permutation :
  forall (A : Type) (key : A -> Z) (x : A) (l : list A),
    Permutation (x :: l) (insert_by key x l).
Proof.
  intros A key x l.
  induction l as [| y ys IH]; simpl; [apply Permutation_refl |].
  destruct (key x <=? key y); [apply Permutation_refl |].
  eapply Permutation_trans; [apply perm_swap |].
  apply perm_skip. exact IH.
Qed.

Lemma order_by_is_Permutation :
  forall (A : Type) (key : A -> Z) (l : list A), Permutation l (order_by key l).
Proof.
  intros A key l.
  induction l as [| x xs IH]; simpl; [apply Permutation_refl |].
  eapply Permutation_trans; [| apply insert_by_Permutation].
  apply perm_skip. exact IH.
Qed.

Lemma hoare_bind :
  forall (A B : Type) (P : World -> Prop) (m : Async A) (k : A -> Async B)
         (Q : A -> World -> Prop) (R : B -> World -> Prop) (E : World -> Prop),
    hoare P m Q E ->
    (forall a, hoare (Q a) (k a) R E) ->
    hoare P (bind m k) R E.
Proof.
  intros A B P m k Q R E Hm Hk w HP.
  unfold bind. specialize (Hm w HP).
  destruct (m w) as [w' [a | e]]; [| exact Hm].
  apply Hk. exact Hm.
Qed.

Lemma hoare_ret :
  forall (A : Type) (P : World -> Prop) (a : A) (Q : A -> World -> Prop)
         (E : World -> Prop),
    (forall w, P w -> Q a w) -> hoare P (ret a) Q E.
Proof.
  intros A P a Q E H w HP. simpl. apply H. exact HP.
Qed.

Lemma hoare_weaken :
  forall (A : Type) (P P' : World -> Prop) (m : Async A)
         (Q Q' : A -> World -> Prop) (E : World -> Prop),
    hoare P m Q E ->
    (forall w, P' w -> P w) ->
    (forall a w, Q a w -> Q' a w) ->
    hoare P' m Q' E.
Proof.
  intros A P P' m Q Q' E Hm HP HQ w HP'.
  specialize (Hm w (HP w HP')).
  destruct (m w) as [w' [a | e]]; [apply HQ |]; exact Hm.
Qed.

Lemma hoare_reads_only :
  forall (A : Type) (m : Async A) (P : DB -> Prop),
    reads_only m ->
    hoare (fun w => P (db w)) m (fun _ w => P (db w)) (fun w => P (db w)).
Proof.
  intros A m P Hro w HP.
  specialize (Hro w).
  destruct (m w) as [w' [a | e]]; simpl in Hro; rewrite Hro; exact HP.
Qed.

Lemma nowMs_reads_only : reads_only nowMs.
Proof. intros w. reflexivity. Qed.

Lemma isBackoffElapsed_reads_only :
  forall op cfg, reads_only (isBackoffElapsed op cfg).
Proof.
  intros op cfg w. unfold isBackoffElapsed.
  destruct (op_attemptCount op =? 0); reflexivity.
Qed.

Lemma row_kept_update :
  forall (op0 : OutboxOp) (d : DB) (cond : OutboxOp -> bool) (set : OutboxOp -> OutboxOp),
    row_kept op0 d ->
    cond op0 = false ->
    (forall x, op_id (set x) = op_id x) ->
    row_kept op0 (set_outbox d (update_where cond set (outbox_ops d))).
Proof.
  intros op0 d cond set [Hin Hnd] Hcond Hid.
  split; simpl.
  - apply update_where_keeps; assumption.
  - rewrite update_where_map_key; assumption.
Qed.

(** A loop keeps what each of its turns keeps. *)
Lemma forEachM_inv :
  forall (A : Type) (I : World -> Prop) (body : A -> Async unit) (l : list A),
    (forall x, In x l -> hoare I (body x) (fun _ => I) I) ->
    hoare I (forEachM body l) (fun _ => I) I.
Proof.
  intros A I body l Hbody.
  induction l as [| x rest IH]; simpl.
  - apply hoare_ret. auto.
  - eapply hoare_bind.
    + apply Hbody. left. reflexivity.
    + intros ?. apply IH. intros y Hy. apply Hbody. right. exact Hy.
Qed.

(** A filter whose predicate only reads keeps every property of the
    store, and returns rows of its argument, without repeating ids. *)
Lemma filterM_inv :
  forall (P : DB -> Prop) (pred : OutboxOp -> Async bool) (ops : list OutboxOp),
    (forall r, reads_only (pred r)) ->
    hoare (fun w => P (db w)) (filterM pred ops)
          (fun res w =>
             P (db w) /\ incl res ops
             /\ (NoDup (map op_id ops) -> NoDup (map op_id res)))
          (fun w => P (db w)).
Proof.
  intros P pred ops Hpred.
  induction ops as [| r rest IH]; simpl.
  - apply hoare_ret. intros w Hk.
    split; [exact Hk |]. split; [apply incl_refl | auto].
  - eapply hoare_bind.
    + apply (hoare_reads_only _ (pred r) P). apply Hpred.
    + intros keep. eapply hoare_bind; [exact IH |].
      intros res. apply hoare_ret. intros w [Hk [Hincl Hnd]].
      split; [exact Hk |].
      destruct keep.
      * split.
        -- intros x [Hx | Hx]; [left; exact Hx | right; apply Hincl; exact Hx].
        -- intros Hnd'. simpl. inversion Hnd' as [| ? ? Hnotin Hnd'']; subst.
           constructor; [| apply Hnd; exact Hnd''].
           intros Hin. apply Hnotin.
           apply in_map_iff in Hin. destruct Hin as [x [Hx Hinx]].
           apply in_map_iff. exists x. split; [exact Hx | apply Hincl; exact Hinx].
      * split; [apply incl_tl; exact Hincl |].
        intros Hnd'. inversion Hnd'; subst. apply Hnd. assumption.
Qed.

Lemma hoare_pure_r :
  forall (A : Type) (P : World -> Prop) (phi : Prop) (m : Async A)
         (Q : A -> World -> Prop) (E : World -> Prop),
    (phi -> hoare P m Q E) -> hoare (fun w => P w /\ phi) m Q E.
Proof.
  intros A P phi m Q E H w [HP Hphi]. apply H; assumption.
Qed.

Section TerminalRow.

Variable op0 : OutboxOp.
Hypothesis op0_terminal : terminal op0.

(** The invariant: [op0] is a row of the outbox, as it was. *)
Let kept (w : World) : Prop := row_kept op0 (db w).

Lemma op0_not_pending : OutboxOpState_eqb (op_state op0) Pending = false.
Proof. destruct op0_terminal as [E | E]; rewrite E; reflexivity. Qed.

Lemma op0_not_in_flight : OutboxOpState_eqb (op_state op0) InFlight = false.
Proof. destruct op0_terminal as [E | E]; rewrite E; reflexivity. Qed.

Lemma resetStaleInFlight_keeps :
  forall scope, hoare kept (Outbox.resetStaleInFlight scope) (fun _ => kept) kept.
Proof.
  intros scope w Hk.
  unfold Outbox.resetStaleInFlight, Outbox.resetStaleInFlight_with,
    bind, nowMs, getDB, putDB, ret.
  cbn [db set_db]. unfold kept. cbn [db set_db].
  apply row_kept_update; [exact Hk | | reflexivity].
  rewrite op0_not_in_flight, andb_false_r. reflexivity.
Qed.

Lemma claimByIds_keeps :
  forall ids, hoare kept (Outbox.claimByIds ids) (fun _ => kept) kept.
Proof.
  intros ids w Hk.
  destruct ids as [| i ids]; [exact Hk |].
  unfold Outbox.claimByIds, bind, nowMs, getDB, putDB, ret.
  cbn [db set_db]. unfold kept. cbn [db set_db].
  apply row_kept_update; [exact Hk | | reflexivity].
  rewrite op0_not_pending, andb_false_r. reflexivity.
Qed.

Lemma updateState_keeps :
  forall opId st err,
    opId <> op_id op0 ->
    hoare kept (Outbox.updateState opId st err) (fun _ => kept) kept.
Proof.
  intros opId st err Hne w Hk.
  unfold Outbox.updateState, bind, nowMs, getDB, putDB, ret.
  cbn [db set_db]. unfold kept. cbn [db set_db].
  apply row_kept_update; [exact Hk | | reflexivity].
  apply String.eqb_neq. congruence.
Qed.

Lemma markForRetry_keeps :
  forall opId,
    opId <> op_id op0 ->
    hoare kept (Outbox.markForRetry opId) (fun _ => kept) kept.
Proof.
  intros opId Hne w Hk.
  unfold Outbox.markForRetry, bind, nowMs, getDB, putDB, ret.
  cbn [db set_db]. unfold kept. cbn [db set_db].
  apply row_kept_update; [exact Hk | | reflexivity].
  apply String.eqb_neq. congruence.
Qed.

(** The rows [getPending] returns are pending rows of the table, so none
    of them is [op0]. *)
Lemma getPending_avoids :
  forall scope limit,
    hoare kept (Outbox.getPending scope limit)
          (fun ops w => kept w /\ avoids op0 ops) kept.
Proof.
  intros scope limit w Hk.
  unfold Outbox.getPending, bind, getDB, ret.
  split; [exact Hk |].
  intros r Hr Heq.
  apply In_firstn in Hr.
  apply (Permutation_in _ (Permutation_sym (order_by_is_Permutation _ _ _))) in Hr.
  apply filter_In in Hr. destruct Hr as [Hin Hcond].
  destruct Hk as [Hin0 Hnd].
  assert (r = op0) by (eapply NoDup_map_inj; eauto).
  subst r. rewrite op0_not_pending, andb_false_r in Hcond. discriminate.
Qed.

(** The ops [processBatch] selects and claims are other ops than [op0],
    and [op0] is kept while they are selected. *)
Lemma selectReadyOps_avoids :
  forall cfg scope,
    hoare kept (selectReadyOps cfg scope)
          (fun ready w =>
             kept w /\ match ready with
                       | Some ops => avoids op0 ops
                       | None => True
                       end)
          kept.
Proof.
  intros cfg scope. unfold selectReadyOps.
  eapply hoare_bind; [apply resetStaleInFlight_keeps |]. intros ?.
  eapply hoare_bind; [apply getPending_avoids |]. intros pendingOps.
  destruct (length pendingOps =? 0)%nat.
  { apply hoare_ret. intros w [Hk _]. split; [exact Hk | exact I]. }
  apply hoare_pure_r. intros Hav.
  eapply hoare_bind.
  { apply forEachM_inv. intros r Hr. apply updateState_keeps.
    apply Hav. apply filter_In in Hr. exact (proj1 Hr). }
  intros ?.
  eapply hoare_bind.
  { apply (filterM_inv (row_kept op0)). intros r. apply isBackoffElapsed_reads_only. }
  intros elapsed.
  assert (Hready : forall w,
             kept w
             /\ incl elapsed
                     (filter (fun op => op_attemptCount op <? maxAttempts cfg) pendingOps)
             /\ (NoDup (map op_id
                            (filter (fun op => op_attemptCount op <? maxAttempts cfg)
                                    pendingOps)) ->
                 NoDup (map op_id elapsed)) ->
             avoids op0 (firstn (batchSize cfg) elapsed)).
  { intros w [_ [Hincl _]] r Hr. apply Hav.
    apply In_firstn in Hr. apply Hincl in Hr.
    apply filter_In in Hr. exact (proj1 Hr). }
  destruct (length (firstn (batchSize cfg) elapsed) =? 0)%nat.
  { apply hoare_ret. intros w [Hk _]. split; [exact Hk | exact I]. }
  intros w Hpre.
  pose proof (Hready w Hpre) as Hav'.
  destruct Hpre as [Hk _].
  pose proof (claimByIds_keeps (map op_id (firstn (batchSize cfg) elapsed)) w Hk) as Hc.
  unfold bind.
  destruct (Outbox.claimByIds (map op_id (firstn (batchSize cfg) elapsed)) w)
    as [w' [[] | e]]; [| exact Hc].
  simpl. split; assumption.
Qed.

Lemma reconcileOp_keeps :
  forall cfg results op,
    op_id op <> op_id op0 ->
    hoare kept (reconcileOp cfg results op) (fun _ => kept) kept.
Proof.
  intros cfg results op Hne. unfold reconcileOp.
  destruct (resultsById_get results (op_id op)) as [[i | i retryable err | i reason] |].
  - eapply hoare_bind; [apply updateState_keeps; exact Hne |].
    intros ?. apply hoare_ret. auto.
  - destruct (retryable && (op_attemptCount op + 1 <? maxAttempts cfg))%bool.
    + eapply hoare_bind; [apply markForRetry_keeps; exact Hne |]. intros ?.
      eapply hoare_bind; [apply updateState_keeps; exact Hne |]. intros ?.
      apply hoare_ret. auto.
    + eapply hoare_bind; [apply updateState_keeps; exact Hne |].
      intros ?. apply hoare_ret. auto.
  - eapply hoare_bind; [apply updateState_keeps; exact Hne |].
    intros ?. apply hoare_ret. auto.
  - eapply hoare_bind; [apply markForRetry_keeps; exact Hne |]. intros ?.
    eapply hoare_bind; [apply updateState_keeps; exact Hne |]. intros ?.
    apply hoare_ret. auto.
Qed.

Lemma reconcile_keeps :
  forall cfg results ready,
    avoids op0 ready ->
    hoare kept (reconcile cfg results ready) (fun _ => kept) kept.
Proof.
  intros cfg results ready.
  induction ready as [| op rest IH]; intros Hav; simpl.
  - apply hoare_ret. auto.
  - eapply hoare_bind.
    + apply reconcileOp_keeps. apply Hav. left. reflexivity.
    + intros n. eapply hoare_bind.
      * apply IH. intros r Hr. apply Hav. right. exact Hr.
      * intros m. apply hoare_ret. auto.
Qed.

(** [claimPending] keeps [op0] and returns other ops. *)
Lemma claimPending_avoids :
  forall scope limit,
    hoare kept (Outbox.claimPending scope limit)
          (fun claimed w => kept w /\ avoids op0 claimed) kept.
Proof.
  intros scope limit. unfold Outbox.claimPending.
  eapply hoare_bind; [apply resetStaleInFlight_keeps |]. intros ?.
  eapply hoare_bind; [apply getPending_avoids |]. intros pending.
  apply hoare_pure_r. intros Hav.
  eapply hoare_bind; [apply claimByIds_keeps |]. intros ?.
  intros w Hk.
  unfold Outbox.getByIds.
  destruct (map op_id pending) as [| i ids] eqn:Hids.
  - simpl. split; [exact Hk |]. intros r [].
  - unfold bind, getDB, ret. split; [exact Hk |].
    intros r Hr.
    apply filter_In in Hr. destruct Hr as [_ Hid].
    unfold id_in in Hid. apply existsb_exists in Hid.
    destruct Hid as [j [Hj Heq]]. apply String.eqb_eq in Heq. subst j.
    rewrite <- Hids in Hj. apply in_map_iff in Hj.
    destruct Hj as [q [Hq Hinq]]. rewrite <- Hq. apply Hav. exact Hinq.
Qed.

End TerminalRow.

Lemma NoDup_map_filter :
  forall (A B : Type) (f : A -> B) (g : A -> bool) (l : list A),
    NoDup (map f l) -> NoDup (map f (filter g l)).
Proof.
  intros A B f g l.
  induction l as [| x xs IH]; simpl; intros Hnd; [constructor |].
  inversion Hnd as [| ? ? Hnotin Hnd']; subst.
  destruct (g x); [| apply IH; exact Hnd'].
  simpl. constructor; [| apply IH; exact Hnd'].
  intros Hin. apply Hnotin.
  apply in_map_iff in Hin. destruct Hin as [y [Hy Hiny]].
  apply filter_In in Hiny.
  apply in_map_iff. exists y. split; [exact Hy | exact (proj1 Hiny)].
Qed.

Lemma hoare_forall :
  forall (A X : Type) (P : X -> World -> Prop) (m : Async A)
         (Q : X -> A -> World -> Prop) (E : X -> World -> Prop),
    (forall x, hoare (P x) m (Q x) (E x)) ->
    hoare (fun w => forall x, P x w) m
          (fun a w => forall x, Q x a w) (fun w => forall x, E x w).
Proof.
  intros A X P m Q E H w HP.
  destruct (m w) as [w' [a | e]] eqn:Hm; intros x;
    specialize (H x w (HP x)); rewrite Hm in H; exact H.
Qed.

Lemma hoare_conseq :
  forall (A : Type) (P P' : World -> Prop) (m : Async A)
         (Q Q' : A -> World -> Prop) (E E' : World -> Prop),
    hoare P m Q E ->
    (forall w, P' w -> P w) ->
    (forall a w, Q a w -> Q' a w) ->
    (forall w, E w -> E' w) ->
    hoare P' m Q' E'.
Proof.
  intros A P P' m Q Q' E E' Hm HP HQ HE w HP'.
  specialize (Hm w (HP w HP')).
  destruct (m w) as [w' [a | e]]; [apply HQ | apply HE]; exact Hm.
Qed.

Lemma resetStaleInFlight_unique_ids :
  forall scope,
    hoare unique_ids (Outbox.resetStaleInFlight scope) (fun _ => unique_ids) unique_ids.
Proof.
  intros scope w Hnd.
  unfold Outbox.resetStaleInFlight, Outbox.resetStaleInFlight_with,
    bind, nowMs, getDB, putDB, ret.
  cbn [db set_db]. unfold unique_ids. cbn [db set_db set_outbox outbox_ops].
  rewrite update_where_map_key; [exact Hnd | reflexivity].
Qed.

(** The rows [getPending] returns are pending rows of the table, with
    unique ids. *)
Lemma getPending_rows :
  forall scope limit,
    hoare unique_ids (Outbox.getPending scope limit)
          (fun ops w =>
             rows_kept ops w
             /\ (NoDup (map op_id ops)
                 /\ forall op, In op ops -> op_state op = Pending))
          unique_ids.
Proof.
  intros scope limit w Hnd.
  unfold Outbox.getPending, bind, getDB, ret.
  set (sel := filter _ (outbox_ops (db w))).
  assert (Hsel : forall op, In op (firstn limit (order_by op_createdAt sel)) ->
                            In op (outbox_ops (db w)) /\ op_state op = Pending).
  { intros op Hop. apply In_firstn in Hop.
    apply (Permutation_in _ (Permutation_sym (order_by_is_Permutation _ _ _))) in Hop.
    apply filter_In in Hop. destruct Hop as [Hin Hcond].
    split; [exact Hin |].
    apply andb_true_iff in Hcond. destruct Hcond as [_ Hst].
    destruct (op_state op); try discriminate. reflexivity. }
  split; [| split].
  - split; [exact Hnd |]. intros op Hop. apply Hsel. exact Hop.
  - rewrite <- firstn_map. apply NoDup_firstn.
    eapply Permutation_NoDup.
    + apply Permutation_map. apply order_by_is_Permutation.
    + unfold sel. apply NoDup_map_filter. exact Hnd.
  - intros op Hop. apply Hsel. exact Hop.
Qed.

Lemma updateState_rows_kept :
  forall (ops : list OutboxOp) (opId : string) (st : OutboxOpState)
         (err : option OpError),
    (forall op, In op ops -> op_id op <> opId) ->
    hoare (rows_kept ops) (Outbox.updateState opId st err)
          (fun _ => rows_kept ops) (rows_kept ops).
Proof.
  intros ops opId st err Hne w [Hnd Hrows].
  unfold Outbox.updateState, bind, nowMs, getDB, putDB, ret.
  cbn [db set_db]. unfold rows_kept, unique_ids.
  cbn [db set_db set_outbox outbox_ops].
  split.
  - rewrite update_where_map_key; [exact Hnd | reflexivity].
  - intros op Hop. apply update_where_keeps; [apply Hrows; exact Hop |].
    apply String.eqb_neq. apply Hne. exact Hop.
Qed.

Lemma selectReadyOps_claims :
  forall cfg scope,
    hoare unique_ids (selectReadyOps cfg scope)
          (fun ready w =>
             match ready with
             | Some ops => claimed_rows cfg ops w
             | None => unique_ids w
             end)
          unique_ids.
Proof.
  intros cfg scope. unfold selectReadyOps.
  eapply hoare_bind; [apply resetStaleInFlight_unique_ids |]. intros ?.
  eapply hoare_bind; [apply getPending_rows |]. intros pendingOps.
  apply hoare_pure_r. intros [Hndp Hpend].
  destruct (length pendingOps =? 0)%nat.
  { apply hoare_ret. intros w [Hnd _]. exact Hnd. }
  set (candidates := filter (fun op => op_attemptCount op <? maxAttempts cfg) pendingOps).
  assert (Hcand : forall op, In op candidates ->
                             In op pendingOps /\ op_attemptCount op < maxAttempts cfg).
  { intros op Hop. apply filter_In in Hop. destruct Hop as [Hin Hlt].
    split; [exact Hin | apply Z.ltb_lt; exact Hlt]. }
  eapply hoare_bind.
  { eapply hoare_conseq with (P := rows_kept candidates)
                             (Q := fun _ => rows_kept candidates)
                             (E := rows_kept candidates).
    - apply forEachM_inv. intros e He. apply updateState_rows_kept.
      intros op Hop Heq.
      apply filter_In in He. destruct He as [Hine Hge].
      destruct (Hcand op Hop) as [Hinop Hlt].
      assert (op = e) by (eapply NoDup_map_inj; eauto). subst e.
      apply Z.leb_le in Hge. lia.
    - intros w [Hnd Hrows]. split; [exact Hnd |].
      intros op Hop. apply Hrows. apply Hcand. exact Hop.
    - intros ? ? H. exact H.
    - intros w [Hnd _]. exact Hnd. }
  intros ?.
  eapply hoare_bind.
  { eapply hoare_conseq.
    - apply (filterM_inv (fun d => NoDup (map op_id (outbox_ops d))
                                   /\ forall op, In op candidates -> In op (outbox_ops d))).
      intros r. apply isBackoffElapsed_reads_only.
    - intros w H. exact H.
    - intros ? ? H. exact H.
    - intros w [Hnd _]. exact Hnd. }
  intros elapsed.
  set (ready := firstn (batchSize cfg) elapsed).
  destruct (length ready =? 0)%nat.
  { apply hoare_ret. intros w [[Hnd _] _]. exact Hnd. }
  intros w [[Hnd Hrows] [Hincl Hnde]].
  assert (Hready : forall op, In op ready -> In op candidates).
  { intros op Hop. apply Hincl. apply In_firstn in Hop. exact Hop. }
  assert (Hndr : NoDup (map op_id ready)).
  { unfold ready. rewrite <- firstn_map. apply NoDup_firstn. apply Hnde.
    unfold candidates. apply NoDup_map_filter. exact Hndp. }
  destruct ready as [| r0 rest] eqn:Hr.
  { simpl. split; [exact Hnd |]. split; [constructor |]. intros op []. }
  rewrite <- Hr in *.
  unfold Outbox.claimByIds. rewrite Hr. cbn [map]. rewrite <- Hr.
  change (op_id r0 :: map op_id rest) with (map op_id (r0 :: rest)).
  rewrite <- Hr.
  unfold bind, nowMs, getDB, putDB, ret.
  cbn [db set_db]. unfold claimed_rows, unique_ids.
  cbn [db set_db set_outbox outbox_ops].
  split; [| split].
  - rewrite update_where_map_key; [exact Hnd | reflexivity].
  - exact Hndr.
  - intros op Hop.
    destruct (Hcand op (Hready op Hop)) as [Hinp Hlt].
    split; [exact Hlt |].
    exists (clock w (clock_reads w)).
    apply update_where_hits.
    + apply Hrows. apply Hready. exact Hop.
    + rewrite (Hpend op Hinp). rewrite andb_true_r.
      unfold id_in. apply existsb_exists. exists (op_id op).
      split; [apply in_map; exact Hop | apply String.eqb_refl].
Qed.

Lemma updateState_row :
  forall (opId : string) (st : OutboxOpState) (err : option OpError)
         (row : OutboxOp) (w : World),
    unique_ids w ->
    In row (outbox_ops (db w)) ->
    op_id row = opId ->
    exists w' row',
      Outbox.updateState opId st err w = (w', Ok tt)
      /\ unique_ids w'
      /\ In row' (outbox_ops (db w'))
      /\ op_id row' = opId
      /\ op_state row' = st
      /\ op_attemptCount row' = op_attemptCount row.
Proof.
  intros opId st err row w Hnd Hin Hid.
  unfold Outbox.updateState, bind, nowMs, getDB, putDB, ret.
  cbn [db set_db].
  eexists. eexists. split; [reflexivity |].
  unfold unique_ids. cbn [db set_db set_outbox outbox_ops].
  split; [rewrite update_where_map_key; [exact Hnd | reflexivity] |].
  split.
  - apply update_where_hits; [exact Hin |]. apply String.eqb_eq. exact Hid.
  - simpl. auto.
Qed.

Lemma markForRetry_row :
  forall (opId : string) (row : OutboxOp) (w : World),
    unique_ids w ->
    In row (outbox_ops (db w)) ->
    op_id row = opId ->
    exists w' row',
      Outbox.markForRetry opId w = (w', Ok tt)
      /\ unique_ids w'
      /\ In row' (outbox_ops (db w'))
      /\ op_id row' = opId
      /\ op_state row' = Pending
      /\ op_attemptCount row' = op_attemptCount row + 1.
Proof.
  intros opId row w Hnd Hin Hid.
  unfold Outbox.markForRetry, bind, nowMs, getDB, putDB, ret.
  cbn [db set_db].
  eexists. eexists. split; [reflexivity |].
  unfold unique_ids. cbn [db set_db set_outbox outbox_ops].
  split; [rewrite update_where_map_key; [exact Hnd | reflexivity] |].
  split.
  - apply update_where_hits; [exact Hin |]. apply String.eqb_eq. exact Hid.
  - simpl. auto.
Qed.

(** One turn of the loop leaves the row [reconciled] describes. *)
Lemma reconcileOp_row :
  forall cfg results op,
    hoare (fun w => unique_ids w /\ has_row op w)
          (reconcileOp cfg results op)
          (fun _ w => unique_ids w /\ has_reconciled_row cfg results op w)
          (fun _ => False).
Proof.
  intros cfg results op w [Hnd [row [Hin [Hid Hatt]]]].
  unfold reconcileOp, has_reconciled_row, reconciled.
  destruct (resultsById_get results (op_id op)) as [[i | i retryable err | i reason] |].
  - destruct (updateState_row (op_id op) Succeeded None row w Hnd Hin Hid)
      as [w' [row' [E [Hnd' [Hin' [Hid' [Hst' Hatt']]]]]]].
    unfold bind. rewrite E. simpl.
    split; [exact Hnd' |]. exists row'. rewrite Hst', Hatt', Hatt. auto.
  - destruct (retryable && (op_attemptCount op + 1 <? maxAttempts cfg))%bool.
    + destruct (markForRetry_row (op_id op) row w Hnd Hin Hid)
        as [w1 [row1 [E1 [Hnd1 [Hin1 [Hid1 [_ Hatt1]]]]]]].
      destruct (updateState_row (op_id op) Pending (Some err) row1 w1 Hnd1 Hin1 Hid1)
        as [w' [row' [E [Hnd' [Hin' [Hid' [Hst' Hatt']]]]]]].
      unfold bind. rewrite E1, E. simpl.
      split; [exact Hnd' |]. exists row'. rewrite Hst', Hatt', Hatt1, Hatt. auto.
    + destruct (updateState_row (op_id op) Failed (Some err) row w Hnd Hin Hid)
        as [w' [row' [E [Hnd' [Hin' [Hid' [Hst' Hatt']]]]]]].
      unfold bind. rewrite E. simpl.
      split; [exact Hnd' |]. exists row'. rewrite Hst', Hatt', Hatt. auto.
  - destruct (updateState_row (op_id op) Blocked (Some (mkOpError "blocked" reason))
                              row w Hnd Hin Hid)
      as [w' [row' [E [Hnd' [Hin' [Hid' [Hst' Hatt']]]]]]].
    unfold bind. rewrite E. simpl.
    split; [exact Hnd' |]. exists row'. rewrite Hst', Hatt', Hatt. auto.
  - destruct (markForRetry_row (op_id op) row w Hnd Hin Hid)
      as [w1 [row1 [E1 [Hnd1 [Hin1 [Hid1 [_ Hatt1]]]]]]].
    destruct (updateState_row (op_id op) Pending
                (Some (mkOpError "missing_result"
                                 "Adapter did not return a result for this operation"))
                row1 w1 Hnd1 Hin1 Hid1)
      as [w' [row' [E [Hnd' [Hin' [Hid' [Hst' Hatt']]]]]]].
    unfold bind. rewrite E1, E. simpl.
    split; [exact Hnd' |]. exists row'. rewrite Hst', Hatt', Hatt1, Hatt. auto.
Qed.

(** The loop leaves, for every claimed op, the row [reconciled] describes. *)
Lemma reconcile_rows :
  forall cfg results ready,
    NoDup (map op_id ready) ->
    hoare (fun w => unique_ids w /\ forall op, In op ready -> has_row op w)
          (reconcile cfg results ready)
          (fun _ w =>
             unique_ids w
             /\ forall op, In op ready -> has_reconciled_row cfg results op w)
          (fun _ => False).
Proof.
  intros cfg results ready.
  induction ready as [| op rest IH]; intros Hndr w [Hnd Hrows].
  - simpl. split; [exact Hnd |]. intros op [].
  - simpl in Hndr. inversion Hndr as [| ? ? Hnotin Hndrest]; subst.
    cbn [reconcile]. unfold bind at 1.
    (* the turn of [op] *)
    pose proof (reconcileOp_row cfg results op w
                  (conj Hnd (Hrows op (or_introl eq_refl)))) as Hop.
    assert (Hothers : forall r, In r rest ->
              match reconcileOp cfg results op w with
              | (w1, Ok _) => has_row r w1
              | (w1, Err _) => True
              end).
    { intros r Hr.
      destruct (Hrows r (or_intror Hr)) as [row [Hin [Hid Hatt]]].
      assert (Hne : op_id op <> op_id row).
      { rewrite Hid. intros Heq. apply Hnotin. rewrite Heq. apply in_map. exact Hr. }
      pose proof (reconcileOp_keeps row cfg results op Hne w (conj Hin Hnd)) as Hk.
      destruct (reconcileOp cfg results op w) as [w1 [n | e]]; [| exact I].
      exists row. split; [exact (proj1 Hk) | auto]. }
    destruct (reconcileOp cfg results op w) as [w1 [n | e]]; [| exact Hop].
    destruct Hop as [Hnd1 [row' [Hin' [Hid' Hrec']]]].
    (* the turns of the other ops *)
    unfold bind.
    pose proof (IH Hndrest w1 (conj Hnd1 Hothers)) as Hrest.
    assert (Hav : avoids row' rest).
    { intros r Hr Heq. apply Hnotin. rewrite <- Hid', <- Heq. apply in_map. exact Hr. }
    pose proof (reconcile_keeps row' cfg results rest Hav w1 (conj Hin' Hnd1)) as Hk.
    destruct (reconcile cfg results rest w1) as [w2 [m | e]]; [| exact Hrest].
    simpl. destruct Hrest as [Hnd2 Hrows2].
    split; [exact Hnd2 |].
    intros r [Hr | Hr].
    + subst r. exists row'. split; [exact (proj1 Hk) | auto].
    + apply Hrows2. exact Hr.
Qed.

Lemma reconciled_retryable_failure :
  forall cfg i err op,
    reconciled cfg (Some (PushFailed i true err)) op
    = retry_or_fail cfg (op_attemptCount op).
Proof. reflexivity. Qed.

(** The rows after [resetStaleInFlight] are the rows before it, with their
    ids and attempt counts. *)
Lemma resetStaleInFlight_from_rows :
  forall scope w op,
    In op (outbox_ops (db (fst (Outbox.resetStaleInFlight scope w)))) -> has_row op w.
Proof.
  intros scope w op Hin.
  unfold Outbox.resetStaleInFlight, Outbox.resetStaleInFlight_with,
    bind, nowMs, getDB, putDB, ret in Hin.
  cbn in Hin. unfold update_where in Hin.
  apply in_map_iff in Hin. destruct Hin as [x [Hx Hin]].
  exists x. split; [exact Hin |].
  destruct (_ && _ && _)%bool in Hx; subst op; split; reflexivity.
Qed.

(** The ops [getPending] returns are rows of the outbox. *)
Lemma getPending_from_rows :
  forall scope limit w op,
    match Outbox.getPending scope limit w with
    | (w', Ok ops) => w' = w /\ (In op ops -> In op (outbox_ops (db w)))
    | (_, Err _) => False
    end.
Proof.
  intros scope limit w op.
  unfold Outbox.getPending, bind, getDB, ret.
  split; [reflexivity |].
  intros Hin.
  apply In_firstn in Hin.
  apply (Permutation_in _ (Permutation_sym (order_by_is_Permutation _ _ _))) in Hin.
  apply filter_In in Hin. exact (proj1 Hin).
Qed.

(** The ops a batch selects are rows the outbox had before the batch, with
    their ids and attempt counts. *)
Lemma selectReadyOps_from_rows :
  forall cfg scope w,
    match selectReadyOps cfg scope w with
    | (_, Ok (Some ready)) => forall op, In op ready -> has_row op w
    | _ => True
    end.
Proof.
  intros cfg scope w.
  unfold selectReadyOps.
  unfold bind at 1.
  pose proof (resetStaleInFlight_from_rows scope w) as Hreset.
  destruct (Outbox.resetStaleInFlight scope w) as [w1 [n | e]]; [| exact I].
  cbn [fst] in Hreset.
  unfold bind at 1.
  pose proof (getPending_from_rows scope (batchSize cfg * 5) w1) as Hget.
  destruct (Outbox.getPending scope (batchSize cfg * 5) w1) as [w2 [pendingOps | e]];
    [| exact I].
  assert (Hpending : forall op, In op pendingOps -> has_row op w).
  { intros op Hop. apply Hreset. apply (Hget op). exact Hop. }
  destruct (length pendingOps =? 0)%nat; [exact I |].
  unfold bind at 1.
  destruct (forEachM _ _ w2) as [w3 [[] | e]]; [| exact I].
  unfold bind at 1.
  match goal with
  | |- context [filterM ?pred ?ops w3] =>
      pose proof (filterM_inv (fun _ => True) pred ops
                              (fun r => isBackoffElapsed_reads_only r cfg) w3 I)
        as Hfilter;
      destruct (filterM pred ops w3) as [w4 [elapsed | e]]; [| exact I]
  end.
  destruct Hfilter as [_ [Hincl _]].
  destruct (length (firstn (batchSize cfg) elapsed) =? 0)%nat; [exact I |].
  unfold bind at 1.
  destruct (Outbox.claimByIds _ w4) as [w5 [[] | e]]; [| exact I].
  unfold ret.
  intros op Hop. apply Hpending.
  apply In_firstn in Hop. apply Hincl in Hop.
  apply filter_In in Hop. exact (proj1 Hop).
Qed.

(** A terminal row is not pushed. *)
Lemma terminal_not_pushed :
  forall (parse : string -> option json) (S : Type) (p : OutboxProcessor S)
         (scope : Scope) (w : World) (row : OutboxOp),
    unique_ids w -> In row (outbox_ops (db w)) -> terminal row ->
    pushed_and_failed parse p scope (op_id row) w = false.
Proof.
  intros parse S p scope w row Hnd Hin Hterm.
  unfold pushed_and_failed.
  destruct (isProcessing p); [reflexivity |]. cbn [negb andb].
  pose proof (selectReadyOps_avoids row Hterm (config p) scope w (conj Hin Hnd)) as Hsel.
  destruct (selectReadyOps (config p) scope w) as [w1 [[ready |] | e]]; try reflexivity.
  destruct Hsel as [_ Hav].
  destruct (id_in (map op_id ready) (op_id row)) eqn:Hid; [| reflexivity].
  exfalso. unfold id_in in Hid. apply existsb_exists in Hid.
  destruct Hid as [i [Hi Heq]]. apply String.eqb_eq in Heq. subst i.
  apply in_map_iff in Hi. destruct Hi as [r [Hr Hinr]].
  exact (Hav r Hinr Hr).
Qed.

(** One batch that pushes the op of a row and is told of a retryable
    failure: the op had attempts left, and its row is left [pending] with
    one attempt more, or [failed] when that was the last attempt. *)
Lemma pushed_and_failed_batch :
  forall (parse : string -> option json) (S : Type) (p : OutboxProcessor S)
         (scope : Scope) (w : World) (row0 : OutboxOp),
    unique_ids w -> In row0 (outbox_ops (db w)) ->
    pushed_and_failed parse p scope (op_id row0) w = true ->
    config (fst (fst (processBatch parse p scope w))) = config p
    /\ unique_ids (snd (fst (processBatch parse p scope w)))
    /\ op_attemptCount row0 < maxAttempts (config p)
    /\ exists row,
        In row (outbox_ops (db (snd (fst (processBatch parse p scope w)))))
        /\ op_id row = op_id row0
        /\ (op_state row, op_attemptCount row)
           = retry_or_fail (config p) (op_attemptCount row0).
Proof.
  intros parse S p scope w row0 Hnd Hin Hpush.
  unfold pushed_and_failed in Hpush.
  unfold processBatch.
  destruct (isProcessing p); [discriminate |]. cbn [negb andb] in Hpush.
  pose proof (selectReadyOps_claims (config p) scope w Hnd) as Hclaims.
  pose proof (selectReadyOps_from_rows (config p) scope w) as Hrows.
  destruct (selectReadyOps (config p) scope w) as [w1 [[ready |] | e]];
    try discriminate.
  apply andb_true_iff in Hpush. destruct Hpush as [Hid Hres].
  destruct (pushOps (adapter p) (adapterState p) scope (map (toAdapterOp parse) ready))
    as [s' [results | e]]; [| discriminate].
  destruct (resultsById_get results (op_id row0)) as [[i | i retryable err | i reason] |]
    eqn:Hresult; try discriminate.
  destruct retryable; [| discriminate].
  unfold id_in in Hid. apply existsb_exists in Hid.
  destruct Hid as [j [Hj Heq]]. apply String.eqb_eq in Heq. subst j.
  apply in_map_iff in Hj. destruct Hj as [op [Hop Hinop]].
  destruct (Hrows op Hinop) as [x [Hx [Hxid Hxatt]]].
  assert (x = row0) by (eapply NoDup_map_inj; eauto; congruence). subst x.
  destruct Hclaims as [Hnd1 [Hndr Hclaimed]].
  assert (Hpre : unique_ids w1 /\ forall o, In o ready -> has_row o w1).
  { split; [exact Hnd1 |]. intros o Ho.
    destruct (Hclaimed o Ho) as [_ [now Hrow]].
    exists (set_op_state InFlight now o). auto. }
  pose proof (reconcile_rows (config p) results ready Hndr w1 Hpre) as Hrec.
  destruct (reconcile (config p) results ready w1) as [w2 [n | e]]; [| contradiction].
  cbn [fst snd config].
  split; [reflexivity |].
  split; [exact (proj1 Hrec) |].
  split; [rewrite Hxatt; exact (proj1 (Hclaimed op Hinop)) |].
  destruct (proj2 Hrec op Hinop) as [row [Hrow [Hrid Hrst]]].
  exists row. split; [exact Hrow |]. split; [congruence |].
  rewrite Hrst, Hop, Hresult. cbn [reconciled andb].
  unfold retry_or_fail. rewrite Hxatt. reflexivity.
Qed.

(** [k] batches in a row that push the op of a row and are told of a
    retryable failure each time. *)
Lemma failing_batches_run :
  forall (parse : string -> option json) (S : Type) (scope : Scope) (opId : string)
         (k : nat) (p p' : OutboxProcessor S) (w w' : World) (row0 : OutboxOp),
    unique_ids w -> In row0 (outbox_ops (db w)) -> op_id row0 = opId ->
    (0 < k)%nat ->
    failing_batches parse scope opId k p w = Some (p', w') ->
    config p' = config p
    /\ unique_ids w'
    /\ op_attemptCount row0 + Z.of_nat k <= maxAttempts (config p)
    /\ exists row,
        In row (outbox_ops (db w'))
        /\ op_id row = opId
        /\ if op_attemptCount row0 + Z.of_nat k <? maxAttempts (config p)
           then op_state row = Pending
                /\ op_attemptCount row = op_attemptCount row0 + Z.of_nat k
           else op_state row = Failed
                /\ op_attemptCount row = maxAttempts (config p) - 1.
Proof.
  intros parse S scope opId k.
  induction k as [| k IH]; intros p p' w w' row0 Hnd Hin Hid Hk Hrun; [lia |].
  cbn [failing_batches] in Hrun.
  destruct (pushed_and_failed parse p scope opId w) eqn:Hpush; [| discriminate].
  rewrite <- Hid in Hpush.
  destruct (pushed_and_failed_batch parse S p scope w row0 Hnd Hin Hpush)
    as [Hcfg [Hnd1 [Hlt [row1 [Hin1 [Hid1 Hst1]]]]]].
  set (p1 := fst (fst (processBatch parse p scope w))) in *.
  set (w1 := snd (fst (processBatch parse p scope w))) in *.
  unfold retry_or_fail in Hst1.
  destruct k as [| k].
  - cbn [failing_batches] in Hrun. inversion Hrun; subst p' w'.
    split; [exact Hcfg |]. split; [exact Hnd1 |]. split; [lia |].
    exists row1. split; [exact Hin1 |]. split; [congruence |].
    change (Z.of_nat 1) with 1.
    destruct (op_attemptCount row0 + 1 <? maxAttempts (config p)) eqn:E;
      (split; [congruence |]).
    + congruence.
    + apply Z.ltb_ge in E.
      assert (Ha : op_attemptCount row1 = op_attemptCount row0) by congruence.
      lia.
  - destruct (op_attemptCount row0 + 1 <? maxAttempts (config p)) eqn:E.
    + assert (Hs : op_state row1 = Pending) by congruence.
      assert (Ha : op_attemptCount row1 = op_attemptCount row0 + 1) by congruence.
      assert (Hid1' : op_id row1 = opId) by congruence.
      destruct (IH p1 p' w1 w' row1 Hnd1 Hin1 Hid1' ltac:(lia) Hrun)
        as [Hcfg' [Hnd' [Hle' [row [Hrow [Hrid Hform]]]]]].
      rewrite Hcfg in Hcfg', Hle', Hform.
      rewrite Ha in Hle', Hform.
      replace (op_attemptCount row0 + 1 + Z.of_nat (Datatypes.S k))
        with (op_attemptCount row0 + Z.of_nat (Datatypes.S (Datatypes.S k)))
        in Hle', Hform by lia.
      split; [exact Hcfg' |]. split; [exact Hnd' |]. split; [exact Hle' |].
      exists row. split; [exact Hrow |]. split; [exact Hrid |]. exact Hform.
    + exfalso.
      assert (Hs : op_state row1 = Failed) by congruence.
      cbn [failing_batches] in Hrun.
      assert (Hterm : terminal row1) by (right; exact Hs).
      pose proof (terminal_not_pushed parse S p1 scope w1 row1 Hnd1 Hin1 Hterm) as Hno.
      rewrite Hid1, Hid in Hno. rewrite Hno in Hrun. discriminate.
Qed.

(** The rows [getPending] counts after [resetStaleInFlight] were [pending]
    or [in_flight] before it. *)
Lemma pending_after_reset_length :
  forall (scope : Scope) (stale : OutboxOp -> bool) (now : Z) (l : list OutboxOp),
    (forall x, stale x = true -> active_in_scope scope x = true) ->
    (length (filter (pending_in_scope scope)
                    (update_where stale (set_op_state Pending now) l))
     <= length (filter (active_in_scope scope) l))%nat.
Proof.
  intros scope stale now l Hstale.
  unfold update_where.
  induction l as [| x xs IH]; cbn [map filter length]; [lia |].
  destruct (stale x) eqn:Hx.
  - rewrite (Hstale x Hx).
    destruct (pending_in_scope scope (set_op_state Pending now x)); cbn [length]; lia.
  - assert (Hp : pending_in_scope scope x = true -> active_in_scope scope x = true).
    { unfold pending_in_scope, active_in_scope. intros H.
      apply andb_true_iff in H. destruct H as [H1 H2]. rewrite H1, H2. reflexivity. }
    destruct (pending_in_scope scope x); [rewrite Hp by reflexivity |];
      destruct (active_in_scope scope x); cbn [length]; lia.
Qed.

Lemma firstn_all_le :
  forall (A : Type) (n : nat) (l : list A), (length l <= n)%nat -> firstn n l = l.
Proof.
  intros A n l H. apply firstn_all2. exact H.
Qed.

(** [updateState] for the op of a row of the outbox writes the row. *)
Lemma updateState_marks :
  forall (r : OutboxOp) (w : World),
    unique_ids w -> In r (outbox_ops (db w)) ->
    exists w' now,
      Outbox.updateState (op_id r) Failed
        (Some (mkOpError "max_attempts" "Max retry attempts reached")) w
      = (w', Ok tt)
      /\ row_kept (exhausted_row now r) (db w').
Proof.
  intros r w Hnd Hin.
  unfold Outbox.updateState, bind, nowMs, getDB, putDB, ret.
  cbn [db set_db].
  eexists. exists (clock w (clock_reads w)).
  split; [reflexivity |].
  unfold row_kept. cbn [db set_db set_outbox outbox_ops].
  split.
  - apply (update_where_hits _ _ _ _ r Hin). apply String.eqb_refl.
  - rewrite update_where_map_key; [exact Hnd | reflexivity].
Qed.

(** The loop over the exhausted ops turns the row of each of them into its
    [failed] row. *)
Lemma forEachM_marks_exhausted :
  forall (l : list OutboxOp) (r : OutboxOp) (w : World),
    NoDup (map op_id l) -> In r l ->
    unique_ids w -> In r (outbox_ops (db w)) ->
    match forEachM
            (fun op =>
               Outbox.updateState (op_id op) Failed
                 (Some (mkOpError "max_attempts" "Max retry attempts reached")))
            l w with
    | (w', _) => exists now, row_kept (exhausted_row now r) (db w')
    end.
Proof.
  induction l as [| x rest IH]; intros r w Hndl Hr Hnd Hin; [destruct Hr |].
  cbn [forEachM]. unfold bind.
  inversion Hndl as [| ? ? Hx Hrest]; subst.
  destruct Hr as [Hr | Hr].
  - subst x.
    destruct (updateState_marks r w Hnd Hin) as [w1 [now [Hrun Hkept]]].
    cbv beta. rewrite Hrun. cbv beta iota.
    assert (Hinv : hoare (fun w => row_kept (exhausted_row now r) (db w))
                         (forEachM
                            (fun op =>
                               Outbox.updateState (op_id op) Failed
                                 (Some (mkOpError "max_attempts"
                                                  "Max retry attempts reached")))
                            rest)
                         (fun _ w => row_kept (exhausted_row now r) (db w))
                         (fun w => row_kept (exhausted_row now r) (db w))).
    { apply forEachM_inv. intros y Hy.
      apply (updateState_keeps (exhausted_row now r)).
      cbn. intros Heq. apply Hx. rewrite <- Heq. apply in_map. exact Hy. }
    specialize (Hinv w1 Hkept).
    destruct (forEachM _ rest w1) as [w2 [[] | e]]; exists now; exact Hinv.
  - assert (Hne : op_id x <> op_id r).
    { intros Heq. apply Hx. rewrite Heq. apply in_map. exact Hr. }
    cbv beta.
    pose proof (updateState_keeps r (op_id x) Failed
                  (Some (mkOpError "max_attempts" "Max retry attempts reached"))
                  Hne w (conj Hin Hnd)) as Hkeep.
    assert (Hok : snd (Outbox.updateState
                         (op_id x) Failed
                         (Some (mkOpError "max_attempts" "Max retry attempts reached")) w)
                  = Ok tt) by reflexivity.
    destruct (Outbox.updateState (op_id x) Failed
                (Some (mkOpError "max_attempts" "Max retry attempts reached")) w)
      as [w1 res].
    cbn [snd] in Hok. subst res. cbv beta iota.
    destruct Hkeep as [Hin1 Hnd1].
    apply (IH r w1 Hrest Hr Hnd1 Hin1).
Qed.

Lemma resetStaleInFlight_run :
  forall (scope : Scope) (w : World),
    exists n,
      Outbox.resetStaleInFlight scope w
      = (set_db (after_clock_read w)
                (set_outbox
                   (db w)
                   (update_where
                      (fun op =>
                         (String.eqb (op_scopeKey op) (scopeKey scope)
                          && OutboxOpState_eqb (op_state op) InFlight
                          && (op_updatedAt op
                              <? clock w (clock_reads w) - 5 * 60 * 1000))%bool)
                      (set_op_state Pending (clock w (clock_reads w)))
                      (outbox_ops (db w)))),
         Ok n).
Proof.
  intros scope w. eexists.
  unfold Outbox.resetStaleInFlight, Outbox.resetStaleInFlight_with,
    bind, nowMs, getDB, putDB, ret.
  cbv beta iota zeta.
  unfold set_db, after_clock_read.
  cbn [db clock clock_reads random random_reads uuids uuid_reads].
  reflexivity.
Qed.

(** A batch of an idle processor marks a [pending] op of the scope whose
    attempts are used up as [failed], whatever else it does: the row is the
    [failed] row when the batch ends.  (The op is among the rows the batch
    reads when the scope holds no more than [batchSize * 5] ops that are
    [pending] or [in_flight].) *)
Lemma processBatch_fails_exhausted :
  forall (parse : string -> option json) (S : Type) (p : OutboxProcessor S)
         (scope : Scope) (w : World) (r : OutboxOp),
    isProcessing p = false ->
    unique_ids w ->
    In r (outbox_ops (db w)) ->
    pending_in_scope scope r = true ->
    maxAttempts (config p) <= op_attemptCount r ->
    (length (filter (active_in_scope scope) (outbox_ops (db w)))
     <= batchSize (config p) * 5)%nat ->
    exists now,
      row_kept (exhausted_row now r) (db (snd (fst (processBatch parse p scope w)))).
Proof.
  intros parse S p scope w r Hidle Hnd Hin Hpend Hmax Hcount.
  set (cfg := config p) in *.
  assert (Hsel :
            match selectReadyOps cfg scope w with
            | (w1, Ok (Some ready)) =>
                exists now, row_kept (exhausted_row now r) (db w1)
                            /\ avoids (exhausted_row now r) ready
            | (w1, _) => exists now, row_kept (exhausted_row now r) (db w1)
            end).
  { unfold selectReadyOps. unfold bind at 1.
    destruct (resetStaleInFlight_run scope w) as [n Hreset]. rewrite Hreset.
    match type of Hreset with
    | _ = (?w1', _) => set (w1 := w1') in *
    end.
    assert (Hnd1 : unique_ids w1).
    { unfold unique_ids, w1. cbn [db set_db set_outbox outbox_ops].
      rewrite update_where_map_key; [exact Hnd | reflexivity]. }
    assert (Hpend_state : op_state r = Pending).
    { unfold pending_in_scope in Hpend. apply andb_true_iff in Hpend.
      destruct (op_state r); try (destruct Hpend; discriminate). reflexivity. }
    assert (Hin1 : In r (outbox_ops (db w1))).
    { unfold w1. cbn [db set_db set_outbox outbox_ops].
      apply update_where_keeps; [exact Hin |].
      rewrite Hpend_state. cbn. rewrite andb_false_r. reflexivity. }
    assert (Hcount1 : (length (filter (pending_in_scope scope) (outbox_ops (db w1)))
                       <= batchSize cfg * 5)%nat).
    { unfold w1. cbn [db set_db set_outbox outbox_ops].
      eapply Nat.le_trans; [apply pending_after_reset_length | exact Hcount].
      intros x Hx. unfold active_in_scope.
      apply andb_true_iff in Hx. destruct Hx as [Hx _].
      apply andb_true_iff in Hx. destruct Hx as [Hs Hf].
      rewrite Hs, Hf, orb_true_r. reflexivity. }
    unfold bind at 1.
    pose proof (getPending_rows scope (batchSize cfg * 5) w1 Hnd1) as Hget.
    assert (Hall : snd (Outbox.getPending scope (batchSize cfg * 5) w1)
                   = Ok (order_by op_createdAt
                           (filter (pending_in_scope scope) (outbox_ops (db w1))))).
    { unfold Outbox.getPending, bind, getDB, ret. cbn [snd]. f_equal.
      apply firstn_all_le.
      rewrite <- (Permutation_length (order_by_is_Permutation _ op_createdAt _)).
      exact Hcount1. }
    destruct (Outbox.getPending scope (batchSize cfg * 5) w1)
      as [w2 [pendingOps | e]]; [| discriminate].
    cbn [snd] in Hall. injection Hall as Hall.
    destruct Hget as [[Hnd2 Hrows2] [Hndp Hstates]].
    assert (Hrp : In r pendingOps).
    { rewrite Hall.
      apply (Permutation_in _ (order_by_is_Permutation _ _ _)).
      apply filter_In. split; assumption. }
    assert (Hin2 : In r (outbox_ops (db w2))) by (apply Hrows2; exact Hrp).
    destruct (length pendingOps =? 0)%nat eqn:Hlen.
    { apply Nat.eqb_eq in Hlen. destruct pendingOps; [destruct Hrp | discriminate]. }
    unfold bind at 1.
    set (exhausted := filter (fun op => maxAttempts cfg <=? op_attemptCount op) pendingOps).
    assert (Hmark := forEachM_marks_exhausted exhausted r w2).
    destruct (forEachM _ exhausted w2) as [w3 res3].
    destruct Hmark as [now Hk3].
    { apply NoDup_map_filter. exact Hndp. }
    { apply filter_In. split; [exact Hrp | apply Z.leb_le; exact Hmax]. }
    { exact Hnd2. }
    { exact Hin2. }
    destruct res3 as [[] | e]; [| exists now; exact Hk3].
    unfold bind at 1.
    set (candidates := filter (fun op => op_attemptCount op <? maxAttempts cfg) pendingOps).
    pose proof (filterM_inv (row_kept (exhausted_row now r))
                            (fun op => isBackoffElapsed op cfg) candidates
                            (fun op => isBackoffElapsed_reads_only op cfg) w3 Hk3)
      as Hfilter.
    destruct (filterM (fun op => isBackoffElapsed op cfg) candidates w3)
      as [w4 [elapsed | e]]; [| exists now; exact Hfilter].
    destruct Hfilter as [Hk4 [Hincl _]].
    assert (Hav : avoids (exhausted_row now r) (firstn (batchSize cfg) elapsed)).
    { intros op Hop Heq. cbn [exhausted_row op_id] in Heq.
      apply In_firstn in Hop. apply Hincl in Hop.
      apply filter_In in Hop. destruct Hop as [Hopp Hlt].
      assert (op = r) by (eapply NoDup_map_inj; eauto). subst op.
      apply Z.ltb_lt in Hlt. lia. }
    destruct (length (firstn (batchSize cfg) elapsed) =? 0)%nat.
    { exists now. exact Hk4. }
    unfold bind at 1.
    assert (Hterm : terminal (exhausted_row now r)) by (right; reflexivity).
    pose proof (claimByIds_keeps (exhausted_row now r) Hterm
                                 (map op_id (firstn (batchSize cfg) elapsed)) w4 Hk4)
      as Hclaim.
    destruct (Outbox.claimByIds (map op_id (firstn (batchSize cfg) elapsed)) w4)
      as [w5 [[] | e]]; exists now; [| exact Hclaim].
    split; [exact Hclaim | exact Hav]. }
  unfold processBatch. rewrite Hidle. fold cfg.
  destruct (selectReadyOps cfg scope w) as [w1 [[ready |] | e]];
    try (cbn [fst snd]; exact Hsel).
  destruct Hsel as [now [Hk Hav]].
  exists now.
  destruct (pushOps (adapter p) (adapterState p) scope (map (toAdapterOp parse) ready))
    as [s' [results | e]]; [| exact Hk].
  pose proof (reconcile_keeps (exhausted_row now r) cfg results ready Hav w1 Hk) as Hrec.
  destruct (reconcile cfg results ready w1) as [w2 [n | e]]; exact Hrec.
Qed.

(** A batch leaves a terminal row as it is. *)
Lemma processBatch_keeps_terminal :
  forall (parse : string -> option json) (S : Type) (p : OutboxProcessor S)
         (scope : Scope) (w : World) (op0 : OutboxOp),
    unique_ids w -> In op0 (outbox_ops (db w)) -> terminal op0 ->
    In op0 (outbox_ops (db (snd (fst (processBatch parse p scope w))))).
Proof.
  intros parse S p scope w op0 Hnd Hin Hterm.
  pose proof (selectReadyOps_avoids op0 Hterm (config p) scope w (conj Hin Hnd)) as Hsel.
  unfold processBatch.
  destruct (isProcessing p); [exact Hin |].
  destruct (selectReadyOps (config p) scope w) as [w1 [[ready |] | e]];
    try (simpl; exact (proj1 Hsel)); try (simpl; exact (proj1 (proj1 Hsel))).
  destruct Hsel as [Hk1 Hav].
  destruct (pushOps (adapter p) (adapterState p) scope (map (toAdapterOp parse) ready))
    as [s' [results | e]]; [| simpl; exact (proj1 Hk1)].
  pose proof (reconcile_keeps op0 (config p) results ready Hav w1 Hk1) as Hrec.
  destruct (reconcile (config p) results ready w1) as [w2 [n | e]];
    simpl; exact (proj1 Hrec).
Qed.

(** C5. Let the ids of the outbox be unique, as its primary key makes
    them.
    - A row [op0] in state [succeeded] or [failed] is terminal.  After
      [processBatch], whatever the adapter returns, [op0] is a row of the
      outbox as it was, state included; the ops the batch selects and
      claims are other ops than [op0], and [op0] is not pushed.  After
      [claimPending], [op0] is a row of the outbox as it was, and it is not
      among the returned ops.
    - In a batch that runs, every claimed op is left with the state and
      attempt count of [reconciled]: for a failure, [failed] as soon as it
      is not retryable or [attemptCount + 1] reaches [maxAttempts], and
      [pending] with one attempt more otherwise.
    - Let [k >= 1] batches follow one another, each of which pushes the op
      of the row [row0] and is told of a retryable failure for it.  Then
      the attempt count of [row0] and [k] are together no more than
      [maxAttempts]; below [maxAttempts] the row is [pending] with [k]
      attempts more, and at [maxAttempts] it is [failed]: an op that fails
      [maxAttempts] times ends [failed].  From then on no batch, of
      whatever processor and scope, pushes it, and every batch leaves the
      row as it is.
    - A [pending] op whose attempts are used up ([attemptCount] not below
      [maxAttempts], as [markForRetry] leaves it after a missing result) is
      marked [failed], with the error [max_attempts], by the next batch of
      an idle processor that reads it: a batch reads [batchSize * 5] rows,
      so it reads the op when the scope has no more [pending] and
      [in_flight] rows than that. *)
Theorem outbox_terminal_states :
  forall (parse : string -> option json) (S : Type) (p : OutboxProcessor S)
         (scope : Scope) (limit : nat) (w : World),
    unique_ids w ->
    let cfg := config p in
    let after_batch := snd (fst (processBatch parse p scope w)) in
    (forall op0 : OutboxOp,
        In op0 (outbox_ops (db w)) ->
        terminal op0 ->
        In op0 (outbox_ops (db after_batch))
        /\ match selectReadyOps cfg scope w with
           | (_, Ok (Some ready)) => ~ In (op_id op0) (map op_id ready)
           | _ => True
           end
        /\ pushed_and_failed parse p scope (op_id op0) w = false
        /\ match Outbox.claimPending scope limit w with
           | (w', Ok claimed) =>
               In op0 (outbox_ops (db w')) /\ ~ In (op_id op0) (map op_id claimed)
           | (w', Err _) => In op0 (outbox_ops (db w'))
           end)
    /\ (if isProcessing p then True
        else
          match selectReadyOps cfg scope w with
          | (w1, Ok (Some ready)) =>
              match pushOps (adapter p) (adapterState p) scope
                            (map (toAdapterOp parse) ready) with
              | (_, Ok results) =>
                  forall op, In op ready ->
                             has_reconciled_row cfg results op after_batch
              | (_, Err _) => True
              end
          | _ => True
          end)
    /\ (forall i retryable err op,
           (retryable && (op_attemptCount op + 1 <? maxAttempts cfg))%bool = false ->
           reconciled cfg (Some (PushFailed i retryable err)) op
           = (Failed, op_attemptCount op))
    /\ (forall (row0 : OutboxOp) (k : nat) (p' : OutboxProcessor S) (w' : World),
           In row0 (outbox_ops (db w)) ->
           (0 < k)%nat ->
           failing_batches parse scope (op_id row0) k p w = Some (p', w') ->
           config p' = cfg
           /\ unique_ids w'
           /\ op_attemptCount row0 + Z.of_nat k <= maxAttempts cfg
           /\ exists row : OutboxOp,
               In row (outbox_ops (db w'))
               /\ op_id row = op_id row0
               /\ (if op_attemptCount row0 + Z.of_nat k <? maxAttempts cfg
                   then op_state row = Pending
                        /\ op_attemptCount row = op_attemptCount row0 + Z.of_nat k
                   else op_state row = Failed
                        /\ op_attemptCount row = maxAttempts cfg - 1)
               /\ (op_attemptCount row0 + Z.of_nat k = maxAttempts cfg ->
                   forall (q : OutboxProcessor S) (scope' : Scope),
                     pushed_and_failed parse q scope' (op_id row0) w' = false
                     /\ In row (outbox_ops
                                  (db (snd (fst (processBatch parse q scope' w')))))))
    /\ (forall r : OutboxOp,
           isProcessing p = false ->
           In r (outbox_ops (db w)) ->
           pending_in_scope scope r = true ->
           maxAttempts cfg <= op_attemptCount r ->
           (length (filter (active_in_scope scope) (outbox_ops (db w)))
            <= batchSize cfg * 5)%nat ->
           exists now : Z, In (exhausted_row now r) (outbox_ops (db after_batch))).
Proof.
  intros parse S p scope limit w Hnd cfg after_batch.
  assert (Hnotin : forall op0 ready,
             avoids op0 ready -> ~ In (op_id op0) (map op_id ready)).
  { intros op0 ready Hav Hi. apply in_map_iff in Hi. destruct Hi as [r [Hr Hinr]].
    exact (Hav r Hinr Hr). }
  split; [| split; [| split; [| split]]].
  - (* terminal rows *)
    intros op0 Hin Hterm.
    assert (Hkept : row_kept op0 (db w)) by (split; assumption).
    pose proof (selectReadyOps_avoids op0 Hterm cfg scope w Hkept) as Hsel.
    split; [| split; [| split]].
    + apply processBatch_keeps_terminal; assumption.
    + destruct (selectReadyOps cfg scope w) as [w1 [[ready |] | e]]; try exact I.
      apply Hnotin. exact (proj2 Hsel).
    + apply terminal_not_pushed; assumption.
    + pose proof (claimPending_avoids op0 Hterm scope limit w Hkept) as Hcp.
      destruct (Outbox.claimPending scope limit w) as [w' [claimed | e]].
      * destruct Hcp as [Hk Hav]. split; [exact (proj1 Hk) | apply Hnotin; exact Hav].
      * exact (proj1 Hcp).
  - (* the rows of the claimed ops *)
    pose proof (selectReadyOps_claims cfg scope w Hnd) as Hclaims.
    unfold after_batch, processBatch.
    destruct (isProcessing p); [exact I |].
    fold cfg.
    destruct (selectReadyOps cfg scope w) as [w1 [[ready |] | e]]; try exact I.
    destruct (pushOps (adapter p) (adapterState p) scope (map (toAdapterOp parse) ready))
      as [s' [results | e]]; [| exact I].
    destruct Hclaims as [Hnd1 [Hndr Hrows]].
    assert (Hpre : unique_ids w1 /\ forall op, In op ready -> has_row op w1).
    { split; [exact Hnd1 |]. intros op Hop.
      destruct (Hrows op Hop) as [_ [now Hrow]].
      exists (set_op_state InFlight now op). auto. }
    pose proof (reconcile_rows cfg results ready Hndr w1 Hpre) as Hrec.
    destruct (reconcile cfg results ready w1) as [w2 [n | e]]; [| contradiction].
    simpl. exact (proj2 Hrec).
  - (* a failure that is not retried *)
    intros i retryable err op Hcond. unfold reconciled. rewrite Hcond. reflexivity.
  - (* an op that fails again and again *)
    intros row0 k p' w' Hin Hk Hrun.
    destruct (failing_batches_run parse S scope (op_id row0) k p p' w w' row0
                                  Hnd Hin eq_refl Hk Hrun)
      as [Hcfg [Hnd' [Hle [row [Hrow [Hrid Hform]]]]]].
    fold cfg in Hcfg, Hle, Hform.
    split; [exact Hcfg |]. split; [exact Hnd' |]. split; [exact Hle |].
    exists row. split; [exact Hrow |]. split; [exact Hrid |]. split; [exact Hform |].
    intros Hexact q scope'.
    assert (Hterm : terminal row).
    { right.
      destruct (op_attemptCount row0 + Z.of_nat k <? maxAttempts cfg) eqn:E.
      - apply Z.ltb_lt in E. lia.
      - exact (proj1 Hform). }
    split.
    + rewrite <- Hrid. apply terminal_not_pushed; assumption.
    + apply processBatch_keeps_terminal; assumption.
  - (* an op whose attempts are used up *)
    intros r Hidle Hin Hpend Hmax Hcount.
    destruct (processBatch_fails_exhausted parse S p scope w r
                                           Hidle Hnd Hin Hpend Hmax Hcount)
      as [now [Hrow _]].
    exists now. exact Hrow.
Qed.

(** Five failing batches leave the op [failed], and a sixth leaves the
    [failed] row as it is; five batches without a result leave the op
    [pending] with five attempts, and the sixth marks it [failed]. *)
Lemma outbox_terminal_states_witness :
  let parse := JSON_parse_known [JObj [("id", JStr "x1")]] in
  failing_batches parse globalScope "id-0" 5 (fst failing_start) (snd failing_start)
  = Some failing_end
  /\ (exists row : OutboxOp,
         In row (outbox_ops (db (snd failing_end)))
         /\ op_id row = "id-0"
         /\ op_state row = Failed
         /\ op_attemptCount row = 4)
  /\ op_state failing_row = Failed
  /\ In failing_row (outbox_ops (db (snd (failing_batch failing_end))))
  /\ map (fun op => (op_state op, op_attemptCount op)) (outbox_ops (db silent_end))
     = [(Pending, 5)]
  /\ (exists now : Z,
         In (exhausted_row now (hd failing_row (outbox_ops (db silent_end))))
            (outbox_ops
               (db (snd (fst (processBatch
                                parse (newOutboxProcessor silent_adapter tt DEFAULT_CONFIG)
                                globalScope silent_end)))))).
Proof.
  cbv zeta.
  assert (Hrun : failing_batches (JSON_parse_known [JObj [("id", JStr "x1")]])
                                 globalScope "id-0" 5
                                 (fst failing_start) (snd failing_start)
                 = Some failing_end)
    by (vm_compute; reflexivity).
  split; [exact Hrun |].
  split.
  { pose proof
         (outbox_terminal_states
            (JSON_parse_known [JObj [("id", JStr "x1")]])
            (StubBehavior * nat) (fst failing_start) globalScope 2
            (snd failing_start)) as H.
    cbv zeta in H.
    destruct H as [_ [_ [_ [H _]]]].
    - vm_compute. repeat constructor. intros [].
    - pose proof (H (hd failing_row (outbox_ops (db (snd failing_start)))) 5%nat
                    (fst failing_end) (snd failing_end)) as H2.
      destruct H2 as [_ [_ [_ [row [Hrow [Hid [Hform _]]]]]]].
      + vm_compute. left. reflexivity.
      + lia.
      + vm_compute. reflexivity.
      + assert (E1 : (op_attemptCount
                        (hd failing_row (outbox_ops (db (snd failing_start))))
                      + Z.of_nat 5 <? maxAttempts (config (fst failing_start)))
                     = false)
          by (vm_compute; reflexivity).
        assert (E2 : op_id (hd failing_row (outbox_ops (db (snd failing_start))))
                     = "id-0")
          by (vm_compute; reflexivity).
        assert (E3 : maxAttempts (config (fst failing_start)) - 1 = 4)
          by (vm_compute; reflexivity).
        rewrite E1, E3 in Hform. rewrite E2 in Hid.
        exists row. split; [exact Hrow |]. split; [exact Hid |]. exact Hform. }
  split; [vm_compute; reflexivity |].
  split.
  { pose proof
         (outbox_terminal_states
            (JSON_parse_known [JObj [("id", JStr "x1")]])
            (StubBehavior * nat) (fst failing_end) globalScope 2
            (snd failing_end)) as H.
    cbv zeta in H.
    destruct H as [H _].
    - vm_compute. repeat constructor. intros [].
    - pose proof (H failing_row) as H1.
      destruct H1 as [H1 _].
      + vm_compute. left. reflexivity.
      + right. vm_compute. reflexivity.
      + exact H1. }
  split; [vm_compute; reflexivity |].
  pose proof
       (outbox_terminal_states
          (JSON_parse_known [JObj [("id", JStr "x1")]])
          unit (newOutboxProcessor silent_adapter tt DEFAULT_CONFIG) globalScope 2
          silent_end) as H.
  cbv zeta in H.
  destruct H as [_ [_ [_ [_ H]]]].
  - vm_compute. repeat constructor. intros [].
  - apply H.
    + reflexivity.
    + vm_compute. left. reflexivity.
    + vm_compute. reflexivity.
    + vm_compute. discriminate.
    + vm_compute. lia.
Defined.

(** * More properties *)

(** ** The outbox queue, continued *)

Lemma id_in_false_not_In :
  forall (ids : list string) (i : string), id_in ids i = false -> ~ In i ids.
Proof.
  intros ids i H Hin.
  unfold id_in in H.
  assert (existsb (String.eqb i) ids = true).
  { apply existsb_exists. exists i. split; [exact Hin | apply String.eqb_refl]. }
  congruence.
Qed.

Lemma id_in_true_In :
  forall (ids : list string) (i : string), id_in ids i = true -> In i ids.
Proof.
  intros ids i H. unfold id_in in H.
  apply existsb_exists in H. destruct H as [j [Hj E]].
  apply String.eqb_eq in E. subst j. exact Hj.
Qed.

(** X1. With an identifier that no row has yet, [enqueue] returns that
    identifier and appends one row to the outbox, after the rows that were
    there: [pending], no attempt, the key of the scope, the payload
    encoded.  The other tables are as they were, the ids stay unique, and
    [getByIds] finds exactly the new row under the returned id. *)
Theorem enqueue_appends_pending_row :
  forall (options : EnqueueOptions) (w : World),
    unique_ids w ->
    id_in (map op_id (outbox_ops (db w))) (uuids w (uuid_reads w)) = false ->
    exists w' : World,
      Outbox.enqueue options w = (w', Ok (uuids w (uuid_reads w)))
      /\ outbox_ops (db w') = (outbox_ops (db w) ++ [enqueued_row options w])%list
      /\ conflicts (db w') = conflicts (db w)
      /\ sync_cursors (db w') = sync_cursors (db w)
      /\ example_items (db w') = example_items (db w)
      /\ unique_ids w'
      /\ snd (Outbox.getByIds [uuids w (uuid_reads w)] w') = Ok [enqueued_row options w].
Proof.
  intros options w Hnd Hfresh.
  assert (Hrun : exists w', Outbox.enqueue options w = (w', Ok (uuids w (uuid_reads w)))
                            /\ db w' = set_outbox (db w)
                                         (outbox_ops (db w) ++ [enqueued_row options w])).
  { unfold Outbox.enqueue, enqueued_row, insert_outbox, withTransaction,
      bind, generateUUID, nowMs, getDB, putDB, throw, ret.
    destruct (truthy_string (eo_idempotencyKey options));
      cbn [db clock clock_reads random random_reads uuids uuid_reads op_id];
      rewrite Hfresh; eexists; split; reflexivity. }
  destruct Hrun as [w' [Hrun Hdb]].
  exists w'. split; [exact Hrun |].
  rewrite Hdb. cbn [set_outbox outbox_ops conflicts sync_cursors example_items].
  repeat split.
  - unfold unique_ids. rewrite Hdb. cbn [set_outbox outbox_ops].
    rewrite map_app. simpl.
    apply NoDup_app; [exact Hnd | repeat constructor; intros [] |].
    intros x Hx [E | []]. subst x.
    apply (id_in_false_not_In _ _ Hfresh). exact Hx.
  - unfold Outbox.getByIds, bind, getDB, ret. rewrite Hdb.
    cbn [set_outbox outbox_ops snd]. f_equal.
    rewrite filter_app.
    rewrite filter_none.
    + simpl. unfold id_in. simpl. rewrite String.eqb_refl. reflexivity.
    + intros x Hx. unfold id_in. simpl. rewrite orb_false_r.
      apply String.eqb_neq. intros E.
      apply (id_in_false_not_In _ _ Hfresh). rewrite <- E. apply in_map. exact Hx.
Qed.

(** An empty store, the first identifier. *)
Lemma enqueue_appends_pending_row_witness :
  let options :=
    mkEnqueueOptions globalScope "items" OpUpsert (JObj [("id", JStr "x1")]) None in
  let w := world_of emptyDB (1 # 2) in
  exists w' : World,
    Outbox.enqueue options w = (w', Ok "id-0")
    /\ outbox_ops (db w') = [enqueued_row options w].
Proof.
  cbv zeta.
  destruct (enqueue_appends_pending_row
              (mkEnqueueOptions globalScope "items" OpUpsert (JObj [("id", JStr "x1")]) None)
              (world_of emptyDB (1 # 2)))
    as [w' [H1 [H2 _]]].
  - constructor.
  - reflexivity.
  - exists w'. split; [exact H1 | exact H2].
Defined.

(** X2. With an identifier that a row has already, [enqueue] throws (the
    insert violates the primary key) and the store is the one before the
    call. *)
Theorem enqueue_duplicate_id_throws :
  forall (options : EnqueueOptions) (w : World),
    id_in (map op_id (outbox_ops (db w))) (uuids w (uuid_reads w)) = true ->
    exists (w' : World) (e : Error),
      Outbox.enqueue options w = (w', Err e)
      /\ db w' = db w.
Proof.
  intros options w Hdup.
  unfold Outbox.enqueue, insert_outbox, withTransaction,
    bind, generateUUID, nowMs, getDB, putDB, throw, ret.
  destruct (truthy_string (eo_idempotencyKey options));
    cbn [db clock clock_reads random random_reads uuids uuid_reads op_id];
    rewrite Hdup; eexists; eexists; split; reflexivity.
Qed.

(** Two worlds that hand out the same identifier: the second [enqueue]
    throws. *)
Lemma enqueue_duplicate_id_throws_witness :
  let options :=
    mkEnqueueOptions globalScope "items" OpUpsert (JObj [("id", JStr "x1")]) None in
  let w1 := fst (Outbox.enqueue options (world_of emptyDB (1 # 2))) in
  let w := world_of (db w1) (1 # 2) in
  length (outbox_ops (db w)) = 1%nat
  /\ exists (w' : World) (e : Error),
      Outbox.enqueue options w = (w', Err e) /\ db w' = db w.
Proof.
  cbv zeta. split; [reflexivity |].
  apply enqueue_duplicate_id_throws.
  vm_compute. reflexivity.
Defined.

(** [ORDER BY key ASC] gives a list in the order of the keys. *)
Lemma insert_by_sorted :
  forall (A : Type) (key : A -> Z) (x : A) (l : list A),
    StronglySorted (fun a b => key a <= key b) l ->
    StronglySorted (fun a b => key a <= key b) (insert_by key x l).
Proof.
  intros A key x l Hs.
  induction Hs as [| y ys Hys IH Hall]; simpl.
  - constructor; constructor.
  - destruct (key x <=? key y) eqn:E.
    + apply Z.leb_le in E.
      constructor; [constructor; assumption |].
      constructor; [exact E |].
      eapply Forall_impl; [| exact Hall]. simpl. intros a Ha. lia.
    + apply Z.leb_gt in E.
      constructor; [exact IH |].
      apply (Permutation_Forall (insert_by_Permutation A key x ys)).
      constructor; [lia | exact Hall].
Qed.

Lemma order_by_sorted :
  forall (A : Type) (key : A -> Z) (l : list A),
    StronglySorted (fun a b => key a <= key b) (order_by key l).
Proof.
  intros A key l.
  induction l as [| x xs IH]; simpl; [constructor |].
  apply insert_by_sorted. exact IH.
Qed.

Lemma sorted_app_le :
  forall (A : Type) (R : A -> A -> Prop) (l1 l2 : list A) (x y : A),
    StronglySorted R (l1 ++ l2) -> In x l1 -> In y l2 -> R x y.
Proof.
  intros A R l1 l2 x y.
  induction l1 as [| a l1 IH]; intros Hs Hx Hy; [contradiction |].
  simpl in Hs. inversion Hs as [| ? ? Hs' Hall]; subst.
  destruct Hx as [Hx | Hx].
  - subst a. rewrite Forall_forall in Hall. apply Hall.
    apply in_or_app. right. exact Hy.
  - apply IH; assumption.
Qed.

Lemma sorted_firstn :
  forall (A : Type) (R : A -> A -> Prop) (n : nat) (l : list A),
    StronglySorted R l -> StronglySorted R (firstn n l).
Proof.
  intros A R n l Hs. revert n.
  induction Hs as [| y ys Hys IH Hall]; intros n.
  - rewrite firstn_nil. constructor.
  - destruct n; simpl; [constructor |].
    constructor; [apply IH |].
    rewrite Forall_forall in *. intros a Ha. apply Hall.
    eapply In_firstn. exact Ha.
Qed.

(** X3. [getPending] reads and does not write.  It returns at most [limit]
    rows, all of them pending rows of the scope, in the order of their
    creation times; a pending row of the scope that it leaves out was
    created no earlier than any row it returns (first in, first out); and
    when the scope has no more than [limit] pending rows it returns them
    all. *)
Theorem getPending_first_in_first_out :
  forall (scope : Scope) (limit : nat) (w : World),
    exists ops : list OutboxOp,
      Outbox.getPending scope limit w = (w, Ok ops)
      /\ (length ops <= limit)%nat
      /\ StronglySorted (fun a b => op_createdAt a <= op_createdAt b) ops
      /\ (forall op, In op ops ->
                     In op (outbox_ops (db w)) /\ pending_in_scope scope op = true)
      /\ (forall q r,
             In q (outbox_ops (db w)) -> pending_in_scope scope q = true ->
             ~ In q ops -> In r ops -> op_createdAt r <= op_createdAt q)
      /\ ((length (filter (pending_in_scope scope) (outbox_ops (db w))) <= limit)%nat ->
          forall q, In q (outbox_ops (db w)) -> pending_in_scope scope q = true ->
                    In q ops).
Proof.
  intros scope limit w.
  unfold Outbox.getPending, bind, getDB, ret.
  change (fun op : OutboxOp =>
            (String.eqb (op_scopeKey op) (scopeKey scope)
             && OutboxOpState_eqb (op_state op) Pending)%bool)
    with (pending_in_scope scope).
  set (sorted := order_by op_createdAt (filter (pending_in_scope scope) (outbox_ops (db w)))).
  assert (Hperm : Permutation (filter (pending_in_scope scope) (outbox_ops (db w))) sorted)
    by apply order_by_is_Permutation.
  assert (Hsorted : StronglySorted (fun a b => op_createdAt a <= op_createdAt b) sorted)
    by apply order_by_sorted.
  exists (firstn limit sorted).
  split; [reflexivity |].
  split; [apply firstn_le_length |].
  split; [apply sorted_firstn; exact Hsorted |].
  split; [| split].
  - intros op Hop. apply In_firstn in Hop.
    apply (Permutation_in _ (Permutation_sym Hperm)) in Hop.
    apply filter_In in Hop. exact Hop.
  - intros q r Hq Hpq Hnot Hr.
    assert (Hqs : In q sorted).
    { apply (Permutation_in _ Hperm). apply filter_In. split; assumption. }
    rewrite <- (firstn_skipn limit sorted) in Hqs, Hsorted.
    apply in_app_or in Hqs. destruct Hqs as [Hqs | Hqs]; [contradiction |].
    exact (sorted_app_le _ _ _ _ r q Hsorted Hr Hqs).
  - intros Hlen q Hq Hpq.
    rewrite firstn_all2.
    + apply (Permutation_in _ Hperm). apply filter_In. split; assumption.
    + rewrite <- (Permutation_length Hperm). exact Hlen.
Qed.

Lemma filter_by_ids_length :
  forall (ids : list string) (l : list OutboxOp),
    NoDup (map op_id l) ->
    (length (filter (fun op => id_in ids (op_id op)) l) <= length ids)%nat.
Proof.
  intros ids l Hnd.
  rewrite <- (length_map op_id (filter _ l)).
  apply NoDup_incl_length.
  - apply NoDup_map_filter. exact Hnd.
  - intros i Hi. apply in_map_iff in Hi. destruct Hi as [x [Hx Hin]].
    apply filter_In in Hin. subst i. apply id_in_true_In. exact (proj2 Hin).
Qed.

(** X4. With unique ids, [claimPending] returns at most [limit] rows; each
    is a row of the outbox after the call, in state [in_flight], of the
    scope; the ids stay unique; and no later [getPending], for whatever
    scope and limit, returns a row with the id of a claimed one: an op is
    not claimed twice while its claim stands. *)
Theorem claimPending_claims_once :
  forall (scope : Scope) (limit : nat) (w : World),
    unique_ids w ->
    exists (w' : World) (claimed : list OutboxOp),
      Outbox.claimPending scope limit w = (w', Ok claimed)
      /\ (length claimed <= limit)%nat
      /\ unique_ids w'
      /\ (forall op, In op claimed ->
                     In op (outbox_ops (db w'))
                     /\ op_state op = InFlight
                     /\ op_scopeKey op = scopeKey scope)
      /\ (forall scope' limit' again,
             snd (Outbox.getPending scope' limit' w') = Ok again ->
             forall q, In q again -> ~ In (op_id q) (map op_id claimed)).
Proof.
  intros scope limit w Hnd.
  unfold Outbox.claimPending.
  unfold bind at 1.
  pose proof (resetStaleInFlight_unique_ids scope w Hnd) as Hreset.
  destruct (Outbox.resetStaleInFlight scope w) as [w1 [n | e]] eqn:Ereset.
  2:{ exfalso. revert Ereset.
      unfold Outbox.resetStaleInFlight, Outbox.resetStaleInFlight_with,
        bind, nowMs, getDB, putDB, ret. discriminate. }
  unfold bind at 1.
  pose proof (getPending_rows scope limit w1 Hreset) as Hpend.
  destruct (getPending_first_in_first_out scope limit w1)
    as [pending [Eget [Hlen [_ [Hin _]]]]].
  rewrite Eget in Hpend |- *.
  destruct Hpend as [_ [Hndp _]].
  assert (Hlater : forall w2 (claimed : list OutboxOp),
             unique_ids w2 ->
             (forall op, In op claimed ->
                         In op (outbox_ops (db w2)) /\ op_state op = InFlight) ->
             forall scope' limit' again,
               snd (Outbox.getPending scope' limit' w2) = Ok again ->
               forall q, In q again -> ~ In (op_id q) (map op_id claimed)).
  { intros w2 claimed Hnd2 Hcl scope' limit' again Hagain q Hq Hid.
    destruct (getPending_first_in_first_out scope' limit' w2)
      as [ops' [Eget' [_ [_ [Hin' _]]]]].
    rewrite Eget' in Hagain. simpl in Hagain. inversion Hagain; subst again.
    destruct (Hin' q Hq) as [Hq2 Hpq].
    apply in_map_iff in Hid. destruct Hid as [r [Hr Hrin]].
    destruct (Hcl r Hrin) as [Hr2 Hst].
    assert (r = q) by (eapply NoDup_map_inj; eauto). subst r.
    unfold pending_in_scope in Hpq. rewrite Hst, andb_false_r in Hpq. discriminate. }
  destruct pending as [| p0 rest] eqn:Epending.
  - (* nothing pending: nothing claimed *)
    simpl. exists w1, []. split; [reflexivity |].
    split; [simpl; lia |]. split; [exact Hreset |].
    split; [intros op [] |].
    apply Hlater; [exact Hreset | intros op []].
  - rewrite <- Epending in *.
    assert (Hids : map op_id pending <> []) by (rewrite Epending; discriminate).
    unfold Outbox.claimByIds, Outbox.getByIds.
    destruct (map op_id pending) as [| i0 ids0] eqn:Eids; [contradiction |].
    rewrite <- Eids in *.
    unfold bind, nowMs, getDB, putDB, ret.
    cbn [db set_db clock clock_reads].
    set (ids := map op_id pending) in *.
    set (now := clock w1 (clock_reads w1)).
    set (cond := fun op : OutboxOp =>
                   (id_in ids (op_id op) && OutboxOpState_eqb (op_state op) Pending)%bool).
    set (l2 := update_where cond (set_op_state InFlight now) (outbox_ops (db w1))).
    assert (Hnd2 : NoDup (map op_id l2)).
    { unfold l2. rewrite update_where_map_key; [exact Hreset | reflexivity]. }
    assert (Hclaimed : forall op, In op (filter (fun r => id_in ids (op_id r)) l2) ->
                                  In op l2 /\ op_state op = InFlight
                                  /\ op_scopeKey op = scopeKey scope).
    { intros op Hop. apply filter_In in Hop. destruct Hop as [Hop Hid].
      split; [exact Hop |].
      unfold l2, update_where in Hop. apply in_map_iff in Hop.
      destruct Hop as [x [Hx Hxin]].
      assert (Hidx : id_in ids (op_id x) = true).
      { destruct (cond x); subst op; exact Hid. }
      apply id_in_true_In in Hidx. unfold ids in Hidx.
      apply in_map_iff in Hidx. destruct Hidx as [p [Hp Hpin]].
      destruct (Hin p Hpin) as [Hpl Hpp].
      assert (p = x)
        by (eapply NoDup_map_inj; [exact Hreset | exact Hpl | exact Hxin | exact Hp]).
      subst p.
      unfold pending_in_scope in Hpp. apply andb_true_iff in Hpp.
      destruct Hpp as [Hsc Hst].
      assert (Hcx : cond x = true).
      { unfold cond. rewrite Hst, andb_true_r.
        unfold id_in. apply existsb_exists. exists (op_id x).
        split; [apply in_map; exact Hpin | apply String.eqb_refl]. }
      rewrite Hcx in Hx. subst op. simpl.
      split; [reflexivity | apply String.eqb_eq; exact Hsc]. }
    eexists. eexists. split; [reflexivity |].
    cbn [db set_db set_outbox outbox_ops].
    split.
    { eapply Nat.le_trans; [apply filter_by_ids_length; exact Hnd2 |].
      unfold ids. rewrite length_map. exact Hlen. }
    split; [exact Hnd2 |].
    split; [exact Hclaimed |].
    apply Hlater.
    + exact Hnd2.
    + intros op Hop. destruct (Hclaimed op Hop) as [H1 [H2 _]]. split; assumption.
Qed.

(** Three ops enqueued in the global scope, a claim of two. *)
Lemma claimPending_claims_once_witness :
  let enq (i : string) (w : World) :=
    fst (Outbox.enqueue
           (mkEnqueueOptions globalScope "items" OpUpsert (JObj [("id", JStr i)]) None)
           w) in
  let w := enq "c" (enq "b" (enq "a" (world_of emptyDB (1 # 2)))) in
  exists (w' : World) (claimed : list OutboxOp),
    Outbox.claimPending globalScope 2 w = (w', Ok claimed)
    /\ (length claimed <= 2)%nat
    /\ map op_state (outbox_ops (db w')) = [InFlight; InFlight; Pending].
Proof.
  cbv zeta.
  match goal with
  | |- context [Outbox.claimPending ?s 2 ?w] =>
      destruct (claimPending_claims_once s 2 w) as [w' [claimed [H1 [H2 _]]]]
  end.
  - vm_compute. repeat constructor; simpl; intuition discriminate.
  - exists w', claimed. split; [exact H1 |]. split; [exact H2 |].
    apply (f_equal fst) in H1. simpl in H1. rewrite <- H1.
    vm_compute. reflexivity.
Defined.

Lemma filter_negb_length :
  forall (A : Type) (f : A -> bool) (l : list A),
    (length (filter (fun x => negb (f x)) l) + length (filter f l) = length l)%nat.
Proof.
  intros A f l.
  induction l as [| x xs IH]; simpl; [reflexivity |].
  destruct (f x); simpl; lia.
Qed.

(** X5. [deleteSucceeded] deletes succeeded rows of the scope and no other
    row: a row of another scope, or in another state, stays; no row is
    added; the returned number is the number of rows deleted.  With a
    truthy [olderThanMs] a succeeded row updated at or after
    [now - olderThanMs] stays as well; with [olderThanMs] left out, or [0],
    no succeeded row of the scope stays, whatever its age. *)
Theorem deleteSucceeded_deletes_only_succeeded :
  forall (scope : Scope) (olderThanMs : option Z) (w : World),
    exists (w' : World) (n : nat),
      Outbox.deleteSucceeded scope olderThanMs w = (w', Ok n)
      /\ (length (outbox_ops (db w')) + n = length (outbox_ops (db w)))%nat
      /\ (forall op, In op (outbox_ops (db w')) -> In op (outbox_ops (db w)))
      /\ (forall op, In op (outbox_ops (db w)) ->
                     (in_scope scope op && OutboxOpState_eqb (op_state op) Succeeded)%bool
                     = false ->
                     In op (outbox_ops (db w')))
      /\ match olderThanMs with
         | Some ms =>
             if ms =? 0
             then forall op, In op (outbox_ops (db w')) ->
                             (in_scope scope op
                              && OutboxOpState_eqb (op_state op) Succeeded)%bool = false
             else forall op, In op (outbox_ops (db w)) ->
                             clock w (clock_reads w) - ms <= op_updatedAt op ->
                             In op (outbox_ops (db w'))
         | None =>
             forall op, In op (outbox_ops (db w')) ->
                        (in_scope scope op
                         && OutboxOpState_eqb (op_state op) Succeeded)%bool = false
         end
      /\ conflicts (db w') = conflicts (db w)
      /\ sync_cursors (db w') = sync_cursors (db w)
      /\ example_items (db w') = example_items (db w).
Proof.
  intros scope olderThanMs w.
  assert (Hall : forall (w0 : World) (gone : OutboxOp -> bool),
             (forall op, gone op = true ->
                         (in_scope scope op
                          && OutboxOpState_eqb (op_state op) Succeeded)%bool = true) ->
             let l' := filter (fun op => negb (gone op)) (outbox_ops (db w)) in
             (length l' + length (filter gone (outbox_ops (db w)))
              = length (outbox_ops (db w)))%nat
             /\ (forall op, In op l' -> In op (outbox_ops (db w)))
             /\ (forall op, In op (outbox_ops (db w)) ->
                            (in_scope scope op
                             && OutboxOpState_eqb (op_state op) Succeeded)%bool = false ->
                            In op l')).
  { intros w0 gone Hgone l'. split; [apply filter_negb_length |]. split.
    - intros op Hop. apply filter_In in Hop. exact (proj1 Hop).
    - intros op Hop Hkeep. apply filter_In. split; [exact Hop |].
      destruct (gone op) eqn:E; [| reflexivity].
      rewrite (Hgone op E) in Hkeep. discriminate. }
  unfold Outbox.deleteSucceeded.
  destruct olderThanMs as [ms |]; [destruct (ms =? 0) eqn:Ems |]; cbn [negb];
    unfold bind, nowMs, getDB, putDB, ret; cbn [db set_db clock clock_reads];
    eexists; eexists; (split; [reflexivity |]);
    cbn [db set_db set_outbox outbox_ops conflicts sync_cursors example_items].
  - destruct (Hall w (fun op => (String.eqb (op_scopeKey op) (scopeKey scope)
                                  && OutboxOpState_eqb (op_state op) Succeeded)%bool))
      as [H1 [H2 H3]]; [intros op H; exact H |].
    repeat split; try assumption.
    intros op Hop. apply filter_In in Hop. destruct Hop as [_ Hn].
    apply negb_true_iff in Hn. exact Hn.
  - destruct (Hall w (fun op => (String.eqb (op_scopeKey op) (scopeKey scope)
                                  && OutboxOpState_eqb (op_state op) Succeeded
                                  && (op_updatedAt op <? clock w (clock_reads w) - ms))%bool))
      as [H1 [H2 H3]].
    { intros op H. apply andb_true_iff in H. exact (proj1 H). }
    repeat split; try assumption.
    intros op Hop Hage. apply filter_In. split; [exact Hop |].
    apply negb_true_iff. apply andb_false_iff. right. apply Z.ltb_ge. exact Hage.
  - destruct (Hall w (fun op => (String.eqb (op_scopeKey op) (scopeKey scope)
                                  && OutboxOpState_eqb (op_state op) Succeeded)%bool))
      as [H1 [H2 H3]]; [intros op H; exact H |].
    repeat split; try assumption.
    intros op Hop. apply filter_In in Hop. destruct Hop as [_ Hn].
    apply negb_true_iff in Hn. exact Hn.
Qed.

(** X6. The five counts of [countByState] for a scope add up to the number
    of its rows, and [countPending] is the count of the state [pending]. *)
Theorem countByState_partitions_scope :
  forall (scope : Scope) (w : World),
    exists p f s x b : nat,
      Outbox.countByState scope Pending w = (w, Ok p)
      /\ Outbox.countByState scope InFlight w = (w, Ok f)
      /\ Outbox.countByState scope Succeeded w = (w, Ok s)
      /\ Outbox.countByState scope Failed w = (w, Ok x)
      /\ Outbox.countByState scope Blocked w = (w, Ok b)
      /\ Outbox.countPending scope w = (w, Ok p)
      /\ (p + f + s + x + b
          = length (filter (in_scope scope) (outbox_ops (db w))))%nat.
Proof.
  intros scope w.
  unfold Outbox.countByState, Outbox.countPending, bind, getDB, ret.
  do 5 eexists.
  do 6 (split; [reflexivity |]).
  unfold in_scope.
  induction (outbox_ops (db w)) as [| op l IH]; simpl; [reflexivity |].
  destruct (String.eqb (op_scopeKey op) (scopeKey scope)); simpl; [| exact IH].
  destruct (op_state op); simpl; lia.
Qed.

(** ** The processor, continued *)

Lemma updateState_returns :
  forall opId st err w, exists w', Outbox.updateState opId st err w = (w', Ok tt).
Proof. intros. eexists. reflexivity. Qed.

Lemma markForRetry_returns :
  forall opId w, exists w', Outbox.markForRetry opId w = (w', Ok tt).
Proof. intros. eexists. reflexivity. Qed.

Lemma reconcileOp_counts :
  forall cfg results op w,
    exists w',
      reconcileOp cfg results op w
      = (w', Ok (if reported_succeeded results op then 1%nat else 0%nat)).
Proof.
  intros cfg results op w.
  unfold reconcileOp, reported_succeeded.
  destruct (resultsById_get results (op_id op)) as [[i | i retryable err | i reason] |];
    try destruct (retryable && (op_attemptCount op + 1 <? maxAttempts cfg))%bool;
    eexists; reflexivity.
Qed.

(** The loop over the claimed ops does not throw, and counts the ops that
    the adapter reported succeeded. *)
Lemma reconcile_counts :
  forall cfg results ready w,
    exists w',
      reconcile cfg results ready w
      = (w', Ok (length (filter (reported_succeeded results) ready))).
Proof.
  intros cfg results ready.
  induction ready as [| op rest IH]; intros w.
  - eexists. reflexivity.
  - cbn [reconcile]. unfold bind.
    destruct (reconcileOp_counts cfg results op w) as [w1 E1]. rewrite E1.
    destruct (IH w1) as [w2 E2]. rewrite E2.
    eexists. unfold ret. cbn [filter].
    destruct (reported_succeeded results op); reflexivity.
Qed.

Lemma forEachM_never_throws :
  forall (A : Type) (body : A -> Async unit) (l : list A),
    (forall x, never_throws (body x)) -> never_throws (forEachM body l).
Proof.
  intros A body l Hbody.
  induction l as [| x rest IH]; simpl.
  - apply hoare_ret. auto.
  - eapply hoare_bind; [apply Hbody |]. intros ?. exact IH.
Qed.

Lemma filterM_never_throws :
  forall (A : Type) (pred : A -> Async bool) (l : list A),
    (forall x, never_throws (pred x)) -> never_throws (filterM pred l).
Proof.
  intros A pred l Hpred.
  induction l as [| x rest IH]; simpl.
  - apply hoare_ret. auto.
  - eapply hoare_bind; [apply Hpred |]. intros keep.
    eapply hoare_bind; [exact IH |]. intros res. apply hoare_ret. auto.
Qed.

(** [selectReadyOps] does not throw, and claims between one and
    [batchSize] ops when it claims any. *)
Lemma selectReadyOps_bounds :
  forall cfg scope w,
    match selectReadyOps cfg scope w with
    | (_, Ok (Some ready)) => ready <> [] /\ (length ready <= batchSize cfg)%nat
    | (_, Ok None) => True
    | (_, Err _) => False
    end.
Proof.
  intros cfg scope w.
  assert (Hno_throw : hoare (fun _ => True) (selectReadyOps cfg scope)
                            (fun ready _ =>
                               match ready with
                               | Some ops => ops <> [] /\ (length ops <= batchSize cfg)%nat
                               | None => True
                               end)
                            (fun _ => False)).
  { unfold selectReadyOps.
    eapply hoare_bind with (Q := fun _ _ => True).
    { intros w0 _. unfold Outbox.resetStaleInFlight, Outbox.resetStaleInFlight_with,
                    bind, nowMs, getDB, putDB, ret. exact I. }
    intros ?.
    eapply hoare_bind with (Q := fun _ _ => True).
    { intros w0 _. exact I. }
    intros pendingOps.
    destruct (length pendingOps =? 0)%nat; [apply hoare_ret; auto |].
    eapply hoare_bind with (Q := fun _ _ => True).
    { apply forEachM_never_throws. intros op w0 _.
      destruct (updateState_returns (op_id op) Failed
                  (Some (mkOpError "max_attempts" "Max retry attempts reached")) w0)
        as [w' E]. rewrite E. exact I. }
    intros ?.
    eapply hoare_bind with (Q := fun _ _ => True).
    { apply filterM_never_throws. intros op w0 _. unfold isBackoffElapsed.
      destruct (op_attemptCount op =? 0); exact I. }
    intros elapsed.
    destruct (length (firstn (batchSize cfg) elapsed) =? 0)%nat eqn:Elen;
      [apply hoare_ret; auto |].
    eapply hoare_bind with (Q := fun _ _ => True).
    { intros w0 _. unfold Outbox.claimByIds.
      destruct (map op_id (firstn (batchSize cfg) elapsed)); exact I. }
    intros ?. apply hoare_ret. intros w0 _.
    split; [| apply firstn_le_length].
    intros E. rewrite E in Elen. discriminate. }
  exact (Hno_throw w I).
Qed.

(** X7. When the adapter throws, [processBatch] throws the same error;
    the [finally] block has cleared [isProcessing] and [processingScope];
    and every op the batch had claimed is left as the claim made it:
    [in_flight], with the attempt count and the last error it had.  No
    retry is counted and no error is recorded for it. *)
Theorem processBatch_adapter_throws :
  forall (parse : string -> option json) (S : Type) (p : OutboxProcessor S)
         (scope : Scope) (w w1 : World) (ready : list OutboxOp) (s' : S) (e : Error),
    isProcessing p = false ->
    unique_ids w ->
    selectReadyOps (config p) scope w = (w1, Ok (Some ready)) ->
    pushOps (adapter p) (adapterState p) scope (map (toAdapterOp parse) ready)
    = (s', Err e) ->
    processBatch parse p scope w
    = (mkOutboxProcessor (config p) (adapter p) s' false None, w1, Err e)
    /\ forall op, In op ready ->
                  exists now, In (set_op_state InFlight now op) (outbox_ops (db w1)).
Proof.
  intros parse S p scope w w1 ready s' e Hidle Hnd Hsel Hpush.
  split.
  - unfold processBatch. rewrite Hidle, Hsel, Hpush. reflexivity.
  - pose proof (selectReadyOps_claims (config p) scope w Hnd) as Hclaims.
    rewrite Hsel in Hclaims. destruct Hclaims as [_ [_ Hrows]].
    intros op Hop. exact (proj2 (Hrows op Hop)).
Qed.

(** One pending op and an adapter that throws: the op is left
    [in_flight], without an attempt counted. *)
Lemma processBatch_adapter_throws_witness :
  let parse := JSON_parse_known [JObj [("id", JStr "x1")]] in
  let p := newOutboxProcessor throwing_adapter tt DEFAULT_CONFIG in
  let w :=
    fst (Outbox.enqueue
           (mkEnqueueOptions globalScope "items" OpUpsert (JObj [("id", JStr "x1")]) None)
           (world_of emptyDB (1 # 2))) in
  let w1 := fst (selectReadyOps DEFAULT_CONFIG globalScope w) in
  processBatch parse p globalScope w = (p, w1, Err (mkError "Network request failed"))
  /\ map (fun op => (op_state op, op_attemptCount op, op_lastErrorJson op))
         (outbox_ops (db w1))
     = [(InFlight, 0, None)].
Proof.
  cbv zeta.
  split; [| vm_compute; reflexivity].
  match goal with
  | |- processBatch ?parse ?p ?scope ?w = _ =>
      destruct (processBatch_adapter_throws
                  parse unit p scope w
                  (fst (selectReadyOps DEFAULT_CONFIG scope w))
                  (firstn 1 (outbox_ops (db w)))
                  tt (mkError "Network request failed")) as [H _]
  end.
  - reflexivity.
  - vm_compute. repeat constructor. intros [].
  - vm_compute. reflexivity.
  - reflexivity.
  - exact H.
Defined.

(** X8. A call of [processBatch] on an idle processor leaves the
    processor idle again ([isProcessing] false, no [processingScope]), with
    the configuration and the adapter it had, on every path.  It pushes at
    most [batchSize] ops, and at least one when it calls the adapter at
    all; it returns the number of claimed ops that the adapter reported
    [succeeded], which is at most [batchSize]; and it throws only what the
    adapter threw. *)
Theorem processBatch_returns_succeeded_count :
  forall (parse : string -> option json) (S : Type) (p : OutboxProcessor S)
         (scope : Scope) (w : World),
    isProcessing p = false ->
    let p' := fst (fst (processBatch parse p scope w)) in
    let r := snd (processBatch parse p scope w) in
    isProcessing p' = false
    /\ processingScope p' = None
    /\ config p' = config p
    /\ adapter p' = adapter p
    /\ match selectReadyOps (config p) scope w with
       | (_, Ok (Some ready)) =>
           ready <> [] /\ (length ready <= batchSize (config p))%nat
           /\ match pushOps (adapter p) (adapterState p) scope
                            (map (toAdapterOp parse) ready) with
              | (s', Ok results) =>
                  r = Ok (length (filter (reported_succeeded results) ready))
                  /\ adapterState p' = s'
              | (s', Err e) => r = Err e /\ adapterState p' = s'
              end
       | (_, Ok None) => r = Ok 0%nat /\ adapterState p' = adapterState p
       | (_, Err _) => False
       end
    /\ match r with
       | Ok n => (n <= batchSize (config p))%nat
       | Err _ => True
       end.
Proof.
  intros parse S p scope w Hidle p' r.
  unfold p', r, processBatch. rewrite Hidle.
  pose proof (selectReadyOps_bounds (config p) scope w) as Hb.
  destruct (selectReadyOps (config p) scope w) as [w1 [[ready |] | e]];
    [| cbn; repeat split; lia | contradiction].
  destruct Hb as [Hne Hlen].
  destruct (pushOps (adapter p) (adapterState p) scope (map (toAdapterOp parse) ready))
    as [s' [results | e]]; [| cbn; repeat split; auto].
  destruct (reconcile_counts (config p) results ready w1) as [w2 E]. rewrite E.
  cbn. repeat split; auto.
  eapply Nat.le_trans; [apply filter_length_le | exact Hlen].
Qed.

(** Three pending ops, an adapter that reports success: three is
    returned. *)
Lemma processBatch_returns_succeeded_count_witness :
  let enq (i : string) (w : World) :=
    fst (Outbox.enqueue
           (mkEnqueueOptions globalScope "items" OpUpsert (JObj [("id", JStr i)]) None)
           w) in
  let w := enq "c" (enq "b" (enq "a" (world_of emptyDB (1 # 2)))) in
  let p := newOutboxProcessor StubOutboxAdapter (StubSucceed, 0%nat) DEFAULT_CONFIG in
  snd (processBatch (JSON_parse_known []) p globalScope w) = Ok 3%nat
  /\ isProcessing (fst (fst (processBatch (JSON_parse_known []) p globalScope w))) = false.
Proof.
  cbv zeta.
  split; [vm_compute; reflexivity |].
  match goal with
  | |- isProcessing (fst (fst (processBatch ?parse ?p ?scope ?w))) = false =>
      pose proof (processBatch_returns_succeeded_count
                    parse (StubBehavior * nat) p scope w) as H
  end.
  cbv zeta in H.
  destruct H as [H _]; [reflexivity | exact H].
Defined.

(** X9. When the scope has neither a pending nor an in-flight row,
    [processBatch] (on an idle processor) returns [0] after one reading of
    the clock: the store is as it was and the adapter is not called. *)
Theorem processBatch_idle_scope :
  forall (parse : string -> option json) (S : Type) (p : OutboxProcessor S)
         (scope : Scope) (w : World),
    isProcessing p = false ->
    (forall op, In op (outbox_ops (db w)) -> in_scope scope op = true ->
                op_state op <> Pending /\ op_state op <> InFlight) ->
    processBatch parse p scope w
    = (mkOutboxProcessor (config p) (adapter p) (adapterState p) false None,
       after_clock_read w, Ok 0%nat).
Proof.
  intros parse S p scope w Hidle Hnone.
  unfold processBatch. rewrite Hidle.
  unfold selectReadyOps. unfold bind at 1.
  rewrite resetStaleInFlight_no_in_flight
    by (intros op Hin Hsc; exact (proj2 (Hnone op Hin Hsc))).
  unfold bind at 1.
  destruct (getPending_first_in_first_out scope (batchSize (config p) * 5)
                                          (after_clock_read w))
    as [ops [Eget [_ [_ [Hin _]]]]].
  rewrite Eget.
  destruct ops as [| op rest]; [reflexivity |].
  exfalso.
  destruct (Hin op (or_introl eq_refl)) as [Hop Hp].
  unfold pending_in_scope in Hp. apply andb_true_iff in Hp. destruct Hp as [Hsc Hst].
  destruct (Hnone op Hop Hsc) as [Hnp _].
  destruct (op_state op); try discriminate. contradiction.
Qed.

(** An empty outbox. *)
Lemma processBatch_idle_scope_witness :
  let p := newOutboxProcessor StubOutboxAdapter (StubFail, 0%nat) DEFAULT_CONFIG in
  let w := world_of emptyDB (1 # 2) in
  processBatch (JSON_parse_known []) p globalScope w = (p, after_clock_read w, Ok 0%nat).
Proof.
  cbv zeta.
  apply (processBatch_idle_scope (JSON_parse_known [])).
  - reflexivity.
  - intros op [].
Defined.

(** ** Conflicts *)

Lemma filter_update_where_length :
  forall (A : Type) (f cond : A -> bool) (set : A -> A) (l : list A),
    (forall x, f (set x) = f x) ->
    length (filter f (update_where cond set l)) = length (filter f l).
Proof.
  intros A f cond set l H.
  unfold update_where.
  induction l as [| x xs IH]; simpl; [reflexivity |].
  destruct (cond x); [rewrite H |]; destruct (f x); simpl; rewrite IH; reflexivity.
Qed.

Lemma find_some_filter_pos :
  forall (A : Type) (f : A -> bool) (l : list A) (x : A),
    find f l = Some x -> (1 <= length (filter f l))%nat.
Proof.
  intros A f l x H.
  induction l as [| y ys IH]; simpl in *; [discriminate |].
  destruct (f y); simpl; [lia | auto].
Qed.

Lemma find_none_filter_nil :
  forall (A : Type) (f : A -> bool) (l : list A),
    find f l = None -> filter f l = [].
Proof.
  intros A f l H.
  induction l as [| y ys IH]; simpl in *; [reflexivity |].
  destruct (f y); [discriminate | auto].
Qed.

Lemma unresolved_for_true :
  forall (sk k i : string) (c : Conflict),
    unresolved_for sk k i c = true ->
    c_scopeKey c = sk /\ c_entityKey c = k /\ c_entityId c = i /\ c_resolvedAt c = None.
Proof.
  intros sk k i c H. unfold unresolved_for in H.
  repeat (apply andb_true_iff in H; destruct H as [H ?]).
  repeat match goal with
         | E : String.eqb _ _ = true |- _ => apply String.eqb_eq in E
         end.
  destruct (c_resolvedAt c); [discriminate | auto].
Qed.

(** X10. [createConflict] keeps "at most one unresolved conflict for an
    entity": on a store where no entity has two, no entity has two
    afterwards, and when it returns the entity it was called for has exactly
    one.  When it throws the store is as it was. *)
Theorem createConflict_one_unresolved_per_entity :
  forall (scope : Scope) (k i : string) (lv rv : json) (useTransaction : bool)
         (w w' : World) (r : Result string),
    one_unresolved_per_entity w ->
    createConflict scope k i lv rv useTransaction w = (w', r) ->
    one_unresolved_per_entity w'
    /\ match r with
       | Ok _ => unresolved_count (scopeKey scope) k i w' = 1%nat
       | Err _ => db w' = db w
       end.
Proof.
  intros scope k i lv rv tx w w' r Hinv Hrun.
  unfold createConflict, bind, generateUUID, nowMs in Hrun.
  assert (Hbody :
    forall w0 id now,
      db w0 = db w ->
      let '(w1, r1) := createConflict_body (scopeKey scope) k i lv rv id now w0 in
      one_unresolved_per_entity w1
      /\ match r1 with
         | Ok _ => unresolved_count (scopeKey scope) k i w1 = 1%nat
         | Err _ => db w1 = db w
         end).
  { intros w0 id now Hdb.
    unfold createConflict_body, bind, getDB. rewrite Hdb.
    destruct (find (unresolved_for (scopeKey scope) k i) (conflicts (db w)))
      as [existing |] eqn:Hfind.
    - unfold putDB. cbn.
      assert (Hsame : forall sk' k' i',
                 length (filter (unresolved_for sk' k' i')
                           (update_where
                              (fun c => String.eqb (c_id c) (c_id existing))
                              (fun c =>
                                 mkConflict (c_id c) (c_scopeKey c) (c_entityKey c)
                                            (c_entityId c) (safeJsonEncode lv)
                                            (safeJsonEncode rv) now (c_resolvedAt c))
                              (conflicts (db w))))
                 = length (filter (unresolved_for sk' k' i') (conflicts (db w)))).
      { intros. apply filter_update_where_length. intros x. reflexivity. }
      split.
      + intros sk' k' i'. unfold unresolved_count. cbn. rewrite Hsame. apply Hinv.
      + unfold unresolved_count. cbn. rewrite Hsame.
        pose proof (find_some_filter_pos _ _ _ _ Hfind).
        pose proof (Hinv (scopeKey scope) k i) as Hle. unfold unresolved_count in Hle.
        lia.
    - unfold insert_conflict, bind, getDB. rewrite Hdb. cbn [c_id].
      destruct (id_in (map c_id (conflicts (db w))) id).
      + unfold throw. cbn. split; [| exact Hdb].
        intros sk' k' i'. unfold unresolved_count. rewrite Hdb. apply Hinv.
      + unfold putDB. cbn. split.
        * intros sk' k' i'. unfold unresolved_count. cbn.
          rewrite filter_app, length_app. cbn.
          destruct (unresolved_for sk' k' i'
                      (mkConflict id (scopeKey scope) k i (safeJsonEncode lv)
                                  (safeJsonEncode rv) now None)) eqn:Hnew.
          -- apply unresolved_for_true in Hnew. cbn in Hnew.
             destruct Hnew as [E1 [E2 [E3 _]]]. subst sk' k' i'.
             rewrite (find_none_filter_nil _ _ _ Hfind). cbn. lia.
          -- cbn. pose proof (Hinv sk' k' i') as Hle.
             unfold unresolved_count in Hle. lia.
        * unfold unresolved_count. cbn.
          rewrite filter_app, length_app.
          rewrite (find_none_filter_nil _ _ _ Hfind). cbn.
          unfold unresolved_for. cbn. rewrite !String.eqb_refl. reflexivity. }
  destruct tx; unfold withTransaction in Hrun; cbv beta iota zeta in Hrun;
    cbn [db clock clock_reads random random_reads uuids uuid_reads] in Hrun;
    match type of Hrun with
    | context [createConflict_body ?sk ?kk ?ii ?l ?rr ?id ?now ?w0] =>
        specialize (Hbody w0 id now eq_refl);
        destruct (createConflict_body sk kk ii l rr id now w0) as [w1 r1]
    end;
    destruct Hbody as [Hinv1 Hr1];
    destruct r1 as [[] | e]; unfold ret in Hrun; inversion Hrun; subst;
    try (split; assumption).
  cbn. split; [| reflexivity].
  intros sk' k' i'. unfold unresolved_count. cbn. apply Hinv.
Qed.

(** A second conflict for the same entity. *)
Lemma createConflict_one_unresolved_per_entity_witness :
  let w0 := world_of emptyDB (1 # 2) in
  let w1 := fst (createConflict globalScope "items" "a" (JStr "l1") (JStr "r1") true w0) in
  let w2 := fst (createConflict globalScope "items" "a" (JStr "l2") (JStr "r2") true w1) in
  one_unresolved_per_entity w2 /\ unresolved_count (scopeKey globalScope) "items" "a" w2 = 1%nat.
Proof.
  cbv zeta.
  match goal with
  | |- one_unresolved_per_entity (fst (createConflict ?s ?k ?i ?l ?r ?t ?w)) /\ _ =>
      pose proof (createConflict_one_unresolved_per_entity
                    s k i l r t w
                    (fst (createConflict s k i l r t w))
                    (snd (createConflict s k i l r t w))) as H
  end.
  apply H.
  - intros sk k i. unfold unresolved_count. cbn.
    destruct (unresolved_for sk k i _); cbn; lia.
  - vm_compute. reflexivity.
Defined.

(** X11. When the entity already has an unresolved conflict (and the
    coming identifier is not in use), [createConflict] updates that row in
    place and returns the identifier it generated, which names no row.
    Resolving the conflict by the returned identifier changes nothing: the
    entity still has its conflict. *)
Theorem createConflict_returns_unused_id :
  forall (scope : Scope) (k i : string) (lv rv : json) (useTransaction : bool)
         (w : World) (existing : Conflict),
    find (unresolved_for (scopeKey scope) k i) (conflicts (db w)) = Some existing ->
    id_in (map c_id (conflicts (db w))) (uuids w (uuid_reads w)) = false ->
    exists w1 w2 : World,
      createConflict scope k i lv rv useTransaction w = (w1, Ok (uuids w (uuid_reads w)))
      /\ map c_id (conflicts (db w1)) = map c_id (conflicts (db w))
      /\ resolveConflict (uuids w (uuid_reads w)) w1 = (w2, Ok tt)
      /\ conflicts (db w2) = conflicts (db w1)
      /\ snd (hasConflict scope k i w2) = Ok true.
Proof.
  intros scope k i lv rv tx w existing Hfind Hfresh.
  set (id := uuids w (uuid_reads w)) in *.
  assert (Hrun : exists w1,
             createConflict scope k i lv rv tx w = (w1, Ok id)
             /\ conflicts (db w1)
                = update_where
                    (fun c => String.eqb (c_id c) (c_id existing))
                    (fun c =>
                       mkConflict (c_id c) (c_scopeKey c) (c_entityKey c)
                                  (c_entityId c) (safeJsonEncode lv)
                                  (safeJsonEncode rv) (clock w (clock_reads w))
                                  (c_resolvedAt c))
                    (conflicts (db w))).
  { unfold createConflict, bind, generateUUID, nowMs.
    destruct tx; unfold withTransaction, createConflict_body, bind, getDB; cbn;
      rewrite Hfind; cbn; eexists; split; reflexivity. }
  destruct Hrun as [w1 [Hrun Hcs]].
  assert (Hids : map c_id (conflicts (db w1)) = map c_id (conflicts (db w))).
  { rewrite Hcs. apply update_where_map_key. reflexivity. }
  assert (Hres : conflicts (db (fst (resolveConflict id w1))) = conflicts (db w1)).
  { unfold resolveConflict, bind, nowMs, getDB, putDB. cbn.
    apply update_where_none.
    intros c Hc.
    destruct (String.eqb (c_id c) id) eqn:E; [| reflexivity].
    apply String.eqb_eq in E.
    exfalso. apply (id_in_false_not_In _ _ Hfresh).
    rewrite <- Hids, <- E. apply in_map. exact Hc. }
  exists w1, (fst (resolveConflict id w1)).
  split; [exact Hrun |].
  split; [exact Hids |].
  split; [reflexivity |].
  split; [exact Hres |].
  unfold hasConflict, bind, getDB, ret. cbn [snd].
  f_equal. rewrite Hres, Hcs.
  rewrite filter_update_where_length by (intros; reflexivity).
  apply Z.ltb_lt.
  pose proof (find_some_filter_pos _ _ _ _ Hfind). lia.
Qed.

(** Two detections for the same entity, then a resolution by the second
    identifier. *)
Lemma createConflict_returns_unused_id_witness :
  let w0 := world_of emptyDB (1 # 2) in
  let w := fst (createConflict globalScope "items" "a" (JStr "l1") (JStr "r1") true w0) in
  exists w1 w2 : World,
    createConflict globalScope "items" "a" (JStr "l2") (JStr "r2") true w
    = (w1, Ok "id-1")
    /\ map c_id (conflicts (db w1)) = ["id-0"]
    /\ resolveConflict "id-1" w1 = (w2, Ok tt)
    /\ conflicts (db w2) = conflicts (db w1)
    /\ snd (hasConflict globalScope "items" "a" w2) = Ok true.
Proof.
  cbv zeta.
  match goal with
  | |- exists w1 w2, createConflict ?s ?k ?i ?l ?r ?t ?w = _ /\ _ =>
      exact (createConflict_returns_unused_id
               s k i l r t w
               (mkConflict "id-0" "global" "items" "a"
                           (JSON_stringify (JStr "l1")) (JSON_stringify (JStr "r1"))
                           1000 None)
               eq_refl eq_refl)
  end.
Defined.

(** X12. A conflict that is created for an entity without one, under an
    identifier not in use, and then resolved by the returned identifier:
    the entity has a conflict in between and none afterwards. *)
Theorem createConflict_then_resolveConflict :
  forall (scope : Scope) (k i : string) (lv rv : json) (useTransaction : bool)
         (w : World),
    find (unresolved_for (scopeKey scope) k i) (conflicts (db w)) = None ->
    id_in (map c_id (conflicts (db w))) (uuids w (uuid_reads w)) = false ->
    exists (id : string) (w1 w2 : World),
      createConflict scope k i lv rv useTransaction w = (w1, Ok id)
      /\ snd (hasConflict scope k i w1) = Ok true
      /\ resolveConflict id w1 = (w2, Ok tt)
      /\ snd (hasConflict scope k i w2) = Ok false
      /\ length (conflicts (db w2)) = Datatypes.S (length (conflicts (db w))).
Proof.
  intros scope k i lv rv tx w Hfind Hfresh.
  set (id := uuids w (uuid_reads w)) in *.
  set (row := mkConflict id (scopeKey scope) k i (safeJsonEncode lv)
                         (safeJsonEncode rv) (clock w (clock_reads w)) None).
  assert (Hrun : exists w1,
             createConflict scope k i lv rv tx w = (w1, Ok id)
             /\ conflicts (db w1) = (conflicts (db w) ++ [row])%list).
  { unfold createConflict, bind, generateUUID, nowMs.
    destruct tx;
      unfold withTransaction, createConflict_body, insert_conflict, bind, getDB; cbn;
      rewrite Hfind; cbn; fold id; rewrite Hfresh; cbn; eexists; split; reflexivity. }
  destruct Hrun as [w1 [Hrun Hcs]].
  exists id, w1, (fst (resolveConflict id w1)).
  split; [exact Hrun |].
  split.
  { unfold hasConflict, bind, getDB, ret. cbn [snd]. f_equal.
    rewrite Hcs, filter_app, length_app. cbn.
    unfold unresolved_for at 2. cbn. rewrite !String.eqb_refl. cbn.
    apply Z.ltb_lt. lia. }
  split; [reflexivity |].
  assert (Hres : conflicts (db (fst (resolveConflict id w1)))
                 = (conflicts (db w)
                    ++ [mkConflict id (scopeKey scope) k i (safeJsonEncode lv)
                                   (safeJsonEncode rv) (clock w (clock_reads w))
                                   (Some (clock w1 (clock_reads w1)))])%list).
  { unfold resolveConflict, bind, nowMs, getDB, putDB. cbn.
    rewrite Hcs. unfold update_where. rewrite map_app. cbn.
    rewrite String.eqb_refl. f_equal.
    apply (update_where_none _ (fun c => String.eqb (c_id c) id)).
    intros c Hc.
    destruct (String.eqb (c_id c) id) eqn:E; [| reflexivity].
    apply String.eqb_eq in E.
    exfalso. apply (id_in_false_not_In _ _ Hfresh).
    rewrite <- E. apply in_map. exact Hc. }
  split.
  { unfold hasConflict, bind, getDB, ret. cbn [snd]. f_equal.
    rewrite Hres, filter_app, length_app.
    rewrite (find_none_filter_nil _ _ _ Hfind). cbn.
    unfold unresolved_for. cbn. rewrite !String.eqb_refl. reflexivity. }
  rewrite Hres, length_app. cbn. lia.
Qed.

Lemma createConflict_then_resolveConflict_witness :
  exists (id : string) (w1 w2 : World),
    createConflict globalScope "items" "a" (JStr "l") (JStr "r") false
                   (world_of emptyDB (1 # 2))
    = (w1, Ok id)
    /\ snd (hasConflict globalScope "items" "a" w1) = Ok true
    /\ resolveConflict id w1 = (w2, Ok tt)
    /\ snd (hasConflict globalScope "items" "a" w2) = Ok false
    /\ length (conflicts (db w2)) = 1%nat.
Proof.
  exact (createConflict_then_resolveConflict
           globalScope "items" "a" (JStr "l") (JStr "r") false
           (world_of emptyDB (1 # 2)) eq_refl eq_refl).
Defined.

(** X13. [resolveConflictsForEntity] returns the number of unresolved
    conflicts the entity had and leaves it none; the count of every other
    entity, and the number of rows, are as before. *)
Theorem resolveConflictsForEntity_clears_entity :
  forall (scope : Scope) (k i : string) (w : World),
    exists w' : World,
      resolveConflictsForEntity scope k i w
      = (w', Ok (unresolved_count (scopeKey scope) k i w))
      /\ snd (hasConflict scope k i w') = Ok false
      /\ length (conflicts (db w')) = length (conflicts (db w))
      /\ forall sk' k' i',
           unresolved_count sk' k' i' w'
           = if (String.eqb sk' (scopeKey scope) && String.eqb k' k
                 && String.eqb i' i)%bool
             then 0%nat
             else unresolved_count sk' k' i' w.
Proof.
  intros scope k i w.
  eexists. split; [reflexivity |].
  assert (Hcount : forall sk' k' i' now (l : list Conflict),
             length (filter (unresolved_for sk' k' i')
                       (update_where
                          (unresolved_for (scopeKey scope) k i)
                          (fun c =>
                             mkConflict (c_id c) (c_scopeKey c) (c_entityKey c)
                                        (c_entityId c) (c_localVersionJson c)
                                        (c_remoteVersionJson c) (c_createdAt c)
                                        (Some now))
                          l))
             = if (String.eqb sk' (scopeKey scope) && String.eqb k' k
                   && String.eqb i' i)%bool
               then 0%nat
               else length (filter (unresolved_for sk' k' i') l)).
  { intros sk' k' i' now l. unfold update_where.
    induction l as [| c cs IH]; cbn [map filter length].
    - destruct (_ && _ && _)%bool; reflexivity.
    - destruct (unresolved_for (scopeKey scope) k i c) eqn:Hc.
      + replace (unresolved_for sk' k' i'
                   (mkConflict (c_id c) (c_scopeKey c) (c_entityKey c) (c_entityId c)
                               (c_localVersionJson c) (c_remoteVersionJson c)
                               (c_createdAt c) (Some now)))
          with false by (unfold unresolved_for; cbn; rewrite andb_false_r; reflexivity).
        rewrite IH.
        destruct (String.eqb sk' (scopeKey scope) && String.eqb k' k
                  && String.eqb i' i)%bool eqn:Hk; [reflexivity |].
        destruct (unresolved_for sk' k' i' c) eqn:Hc'; [| reflexivity].
        exfalso.
        apply unresolved_for_true in Hc. apply unresolved_for_true in Hc'.
        destruct Hc as [E1 [E2 [E3 _]]]. destruct Hc' as [E1' [E2' [E3' _]]].
        rewrite <- E1', <- E2', <- E3', E1, E2, E3, !String.eqb_refl in Hk.
        discriminate.
      + destruct (unresolved_for sk' k' i' c) eqn:Hc'; cbn [length]; rewrite IH.
        * destruct (String.eqb sk' (scopeKey scope) && String.eqb k' k
                    && String.eqb i' i)%bool eqn:Hk; [| reflexivity].
          exfalso.
          repeat (apply andb_true_iff in Hk; destruct Hk as [Hk ?]).
          repeat match goal with
                 | E : String.eqb _ _ = true |- _ => apply String.eqb_eq in E
                 end.
          subst sk' k' i'. congruence.
        * reflexivity. }
  split.
  { unfold hasConflict, bind, getDB, ret. cbn [snd]. f_equal. cbn.
    rewrite Hcount, !String.eqb_refl. reflexivity. }
  split.
  { cbn. unfold update_where. apply length_map. }
  intros sk' k' i'. unfold unresolved_count. cbn. apply Hcount.
Qed.

Lemma filter_filter_implied :
  forall (A : Type) (f g : A -> bool) (l : list A),
    (forall x, f x = true -> g x = true) ->
    filter f (filter g l) = filter f l.
Proof.
  intros A f g l H.
  induction l as [| x xs IH]; cbn; [reflexivity |].
  destruct (g x) eqn:Hg; cbn.
  - destruct (f x); rewrite IH; reflexivity.
  - destruct (f x) eqn:Hf; [| exact IH].
    apply H in Hf. congruence.
Qed.

(** X14. [deleteResolvedConflicts] returns the number of rows it deleted.
    It deletes no unresolved conflict, whatever the age given (also a
    negative one): what [getUnresolvedConflicts] returns is the same for
    every scope.  A row it deleted belonged to the scope and was resolved
    before the cutoff; every other row is kept, in the order of the
    table. *)
Theorem deleteResolvedConflicts_keeps_unresolved :
  forall (scope : Scope) (olderThanMs : Z) (w : World),
    exists (w' : World) (n : nat),
      deleteResolvedConflicts scope olderThanMs w = (w', Ok n)
      /\ (n + length (conflicts (db w')) = length (conflicts (db w)))%nat
      /\ (forall scope', snd (getUnresolvedConflicts scope' w')
                         = snd (getUnresolvedConflicts scope' w))
      /\ conflicts (db w')
         = filter (fun c =>
                     negb (String.eqb (c_scopeKey c) (scopeKey scope)
                           && match c_resolvedAt c with
                              | Some t => t <? clock w (clock_reads w) - olderThanMs
                              | None => false
                              end))
                  (conflicts (db w)).
Proof.
  intros scope ms w.
  eexists. eexists.
  split; [unfold deleteResolvedConflicts, bind, nowMs, getDB, putDB, ret;
          cbv beta iota zeta; reflexivity |].
  split.
  { cbn. rewrite Nat.add_comm. apply filter_negb_length. }
  split; [| reflexivity].
  intros scope'.
  unfold getUnresolvedConflicts, bind, getDB, ret. cbv beta iota zeta.
  cbn [snd fst db conflicts set_db set_conflicts].
  rewrite filter_filter_implied; [reflexivity |].
  intros c Hc. apply andb_true_iff in Hc. destruct Hc as [_ Hc].
  destruct (c_resolvedAt c); [discriminate |].
  rewrite andb_false_r. reflexivity.
Qed.

(** ** Cursors and the delta runner *)

Lemma find_update_where :
  forall (A : Type) (f cond : A -> bool) (set : A -> A) (l : list A),
    (forall x, f (set x) = f x) ->
    find f (update_where cond set l)
    = option_map (fun x => if cond x then set x else x) (find f l).
Proof.
  intros A f cond set l H.
  unfold update_where.
  induction l as [| x xs IH]; cbn; [reflexivity |].
  destruct (cond x) eqn:Hc.
  - rewrite H. destruct (f x); [cbn; rewrite Hc; reflexivity | exact IH].
  - destruct (f x); [cbn; rewrite Hc; reflexivity | exact IH].
Qed.

Lemma find_app_snoc :
  forall (A : Type) (f : A -> bool) (l : list A) (x : A),
    find f (l ++ [x])
    = match find f l with
      | Some y => Some y
      | None => if f x then Some x else None
      end.
Proof.
  intros A f l x.
  induction l as [| y ys IH]; cbn; [reflexivity |].
  destruct (f y); [reflexivity | exact IH].
Qed.

Lemma find_some_true :
  forall (A : Type) (f : A -> bool) (l : list A) (x : A),
    find f l = Some x -> f x = true.
Proof.
  intros A f l x H. apply find_some in H. apply H.
Qed.

Lemma existsb_false_find :
  forall (A : Type) (f : A -> bool) (l : list A),
    existsb f l = false <-> find f l = None.
Proof.
  intros A f l.
  induction l as [| y ys IH]; cbn; [tauto |].
  destruct (f y); cbn; [split; discriminate | exact IH].
Qed.

Lemma cursor_key_is_same :
  forall sk ck sk' ck' r,
    cursor_key_is sk ck r = true -> cursor_key_is sk' ck' r = true ->
    (String.eqb sk' sk && String.eqb ck' ck)%bool = true.
Proof.
  intros sk ck sk' ck' r H H'.
  unfold cursor_key_is in *.
  apply andb_true_iff in H. apply andb_true_iff in H'.
  destruct H as [H1 H2]. destruct H' as [H1' H2'].
  apply String.eqb_eq in H1, H2, H1', H2'.
  rewrite <- H1, <- H2, <- H1', <- H2', !String.eqb_refl. reflexivity.
Qed.

(** What [getCursor] returns after a [setCursor]. *)
Lemma getCursor_after_setCursor :
  forall (scope scope' : Scope) (ck ck' cursor : string) (w : World),
    snd (getCursor scope' ck' (fst (setCursor scope ck cursor w)))
    = if (String.eqb (scopeKey scope') (scopeKey scope) && String.eqb ck' ck)%bool
      then Ok cursor
      else snd (getCursor scope' ck' w).
Proof.
  intros scope scope' ck ck' cursor w.
  unfold setCursor, getCursor, bind, nowMs, getDB, putDB, ret.
  cbv beta iota zeta. cbn [db fst].
  set (rows := sync_cursors (db w)).
  set (sk := scopeKey scope). set (sk' := scopeKey scope').
  destruct (String.eqb sk' sk && String.eqb ck' ck)%bool eqn:Hk.
  - apply andb_true_iff in Hk. destruct Hk as [E1 E2].
    apply String.eqb_eq in E1, E2. rewrite E1, E2.
    destruct (existsb (cursor_key_is sk ck) rows) eqn:Hex; cbn [db fst snd set_db set_sync_cursors sync_cursors].
    + rewrite find_update_where by reflexivity.
      destruct (find (cursor_key_is sk ck) rows) as [r |] eqn:Hf.
      * cbn. rewrite (find_some_true _ _ _ _ Hf). reflexivity.
      * apply existsb_false_find in Hf. congruence.
    + rewrite find_app_snoc.
      apply existsb_false_find in Hex. rewrite Hex.
      unfold cursor_key_is. cbn. rewrite !String.eqb_refl. reflexivity.
  - destruct (existsb (cursor_key_is sk ck) rows) eqn:Hex; cbn [db fst snd set_db set_sync_cursors sync_cursors].
    + rewrite find_update_where by reflexivity.
      destruct (find (cursor_key_is sk' ck') rows) as [r |] eqn:Hf; [| reflexivity].
      cbn.
      destruct (cursor_key_is sk ck r) eqn:Hr; [| reflexivity].
      pose proof (cursor_key_is_same _ _ _ _ _ Hr (find_some_true _ _ _ _ Hf)).
      congruence.
    + rewrite find_app_snoc.
      destruct (find (cursor_key_is sk' ck') rows) as [r |] eqn:Hf; [reflexivity |].
      replace (cursor_key_is sk' ck' (mkCursorRow sk ck cursor (clock w (clock_reads w))))
        with false; [reflexivity |].
      unfold cursor_key_is. cbn.
      rewrite (String.eqb_sym sk sk'), (String.eqb_sym ck ck'). symmetry. exact Hk.
Qed.

(** X15. [setCursor] then [getCursor]: the cursor just stored is read
    back, every other pair of scope key and collection keeps what it read
    before, and a pair never stored reads the default ["0"].  The table
    keeps one row for a pair that had one. *)
Theorem setCursor_getCursor_round_trip :
  forall (scope : Scope) (ck cursor : string) (w : World),
    exists w' : World,
      setCursor scope ck cursor w = (w', Ok tt)
      /\ snd (getCursor scope ck w') = Ok cursor
      /\ (forall scope' ck',
            snd (getCursor scope' ck' w')
            = if (String.eqb (scopeKey scope') (scopeKey scope)
                  && String.eqb ck' ck)%bool
              then Ok cursor
              else snd (getCursor scope' ck' w))
      /\ (forall scope' ck',
            find (cursor_key_is (scopeKey scope') ck') (sync_cursors (db w)) = None ->
            snd (getCursor scope' ck' w) = Ok DEFAULT_CURSOR)
      /\ length (sync_cursors (db w'))
         = if existsb (cursor_key_is (scopeKey scope) ck) (sync_cursors (db w))
           then length (sync_cursors (db w))
           else Datatypes.S (length (sync_cursors (db w))).
Proof.
  intros scope ck cursor w.
  exists (fst (setCursor scope ck cursor w)).
  split.
  { unfold setCursor, bind, nowMs, getDB, putDB. cbv beta iota zeta. cbn [db].
    destruct (existsb _ _); reflexivity. }
  split.
  { rewrite getCursor_after_setCursor, !String.eqb_refl. reflexivity. }
  split; [intros; apply getCursor_after_setCursor |].
  split.
  { intros scope' ck' Hnone. unfold getCursor, bind, getDB, ret.
    cbv beta iota zeta. rewrite Hnone. reflexivity. }
  unfold setCursor, bind, nowMs, getDB, putDB. cbv beta iota zeta. cbn [db].
  destruct (existsb _ _); cbn.
  - unfold update_where. apply length_map.
  - rewrite length_app. cbn. lia.
Qed.

(** The counters of a batch: every change is counted once. *)
Lemma applyLoop_counts :
  forall options handler changes w,
    let acc := snd (applyLoop options handler changes no_result w) in
    (applied acc + conflicts_count acc + length (errors acc) = length changes)%nat.
Proof.
  intros options handler changes.
  induction changes as [| c rest IH]; intros w; cbv zeta; [reflexivity |].
  cbn [applyLoop].
  destruct (applyOne options handler c no_result w) as [w1 r1] eqn:E1.
  rewrite applyLoop_acc. cbn [snd].
  specialize (IH w1). cbv zeta in IH.
  assert (H1 : (applied r1 + conflicts_count r1 + length (errors r1) = 1)%nat).
  { unfold applyOne, no_result in E1.
    destruct (applyOneTry options handler c w) as [w' [[|] | err]];
      inversion E1; subst; reflexivity. }
  unfold add_result. cbn [applied conflicts_count errors length].
  rewrite length_app. lia.
Qed.

(** X16. [applyChanges] is all or nothing.  Either no change threw, and
    every change of the batch is counted once, as applied or as a
    conflict; or some change threw, and then nothing is reported applied,
    the database is as it was before the batch, and the result still
    carries the errors and the conflicts the loop counted.  The call itself
    returns in both cases. *)
Theorem applyChanges_all_or_nothing :
  forall (changes : list DeltaChange) (handler : DeltaChangeHandler)
         (options : ApplyOptions) (w : World),
    exists (w' : World) (r : ApplyResult),
      applyChanges changes handler options w = (w', Ok r)
      /\ (length (errors r) + conflicts_count r <= length changes)%nat
      /\ ((errors r = []
           /\ (applied r + conflicts_count r = length changes)%nat)
          \/ (errors r <> []
              /\ applied r = 0%nat
              /\ db w' = db w)).
Proof.
  intros changes handler options w.
  rewrite applyChanges_by_errors. cbv zeta.
  pose proof (applyLoop_counts options handler changes w) as Hc. cbv zeta in Hc.
  destruct (errors (snd (applyLoop options handler changes no_result w)))
    as [| e es] eqn:He.
  - eexists. eexists. split; [reflexivity |].
    rewrite He in *. cbn [length] in *.
    split; [lia |]. left. split; [reflexivity | lia].
  - eexists. eexists. split; [reflexivity |].
    cbn [errors conflicts_count applied].
    split; [lia |]. right.
    split; [discriminate |]. split; reflexivity.
Qed.

Lemma applyOneTry_conflicted :
  forall options handler c w w',
    applyOneTry options handler c w = (w', Ok Conflicted) ->
    exists d sc,
      ao_conflictDetector options = Some d /\ ao_scope options = Some sc
      /\ is_upsert c = true.
Proof.
  intros options handler c w w' H.
  unfold applyOneTry in H.
  destruct (ao_conflictDetector options) as [d |];
    [destruct (ao_scope options) as [sc |];
     [destruct (is_upsert c); [exists d, sc; auto |] |] |];
    unfold bind, ret in H;
    destruct (applyChangeInternal c handler w) as [w3 [[] | e3]]; discriminate.
Qed.

Lemma applyLoop_conflicts :
  forall options handler changes w,
    let acc := snd (applyLoop options handler changes no_result w) in
    (conflicts_count acc
     <= match ao_conflictDetector options, ao_scope options with
        | Some _, Some _ => length (filter is_upsert changes)
        | _, _ => 0
        end)%nat.
Proof.
  intros options handler changes.
  induction changes as [| c rest IH]; intros w; cbv zeta.
  - cbn. destruct (ao_conflictDetector options), (ao_scope options); lia.
  - cbn [applyLoop].
    destruct (applyOne options handler c no_result w) as [w1 r1] eqn:E1.
    rewrite applyLoop_acc. cbn [snd].
    specialize (IH w1). cbv zeta in IH.
    unfold add_result. cbn [conflicts_count].
    assert (H1 : (conflicts_count r1
                  <= match ao_conflictDetector options, ao_scope options with
                     | Some _, Some _ => if is_upsert c then 1 else 0
                     | _, _ => 0
                     end)%nat).
    { unfold applyOne, no_result in E1.
      destruct (applyOneTry options handler c w) as [w' [[|] | err]] eqn:E;
        inversion E1; subst; cbn [conflicts_count]; try lia.
      destruct (applyOneTry_conflicted _ _ _ _ _ E) as [d [sc [Hd [Hs Hu]]]].
      rewrite Hd, Hs, Hu. lia. }
    cbn [filter].
    destruct (ao_conflictDetector options), (ao_scope options); try lia.
    destruct (is_upsert c); cbn [length]; lia.
Qed.

(** X17. Only an upsert can be counted as a conflict by [applyChanges],
    and only when both a conflict detector and a scope are given: the
    conflict count is at most the number of upserts of the batch, and it is
    zero when the detector or the scope is missing.  A delete is never held
    back. *)
Theorem applyChanges_conflicts_are_upserts :
  forall (changes : list DeltaChange) (handler : DeltaChangeHandler)
         (options : ApplyOptions) (w : World),
    exists (w' : World) (r : ApplyResult),
      applyChanges changes handler options w = (w', Ok r)
      /\ (conflicts_count r
          <= match ao_conflictDetector options, ao_scope options with
             | Some _, Some _ => length (filter is_upsert changes)
             | _, _ => 0
             end)%nat.
Proof.
  intros changes handler options w.
  rewrite applyChanges_by_errors. cbv zeta.
  pose proof (applyLoop_conflicts options handler changes w) as Hc. cbv zeta in Hc.
  destruct (errors (snd (applyLoop options handler changes no_result w)));
    eexists; eexists; (split; [reflexivity | exact Hc]).
Qed.

Lemma applyChanges_counts_le :
  forall changes handler options w w' r,
    applyChanges changes handler options w = (w', Ok r) ->
    (applied r + conflicts_count r + length (errors r) <= length changes)%nat.
Proof.
  intros changes handler options w w' r H.
  rewrite applyChanges_by_errors in H. cbv zeta in H.
  pose proof (applyLoop_counts options handler changes w) as Hc. cbv zeta in Hc.
  destruct (errors (snd (applyLoop options handler changes no_result w)))
    as [| e es] eqn:He; inversion H; subst.
  - rewrite He. cbn in *. lia.
  - cbn [applied conflicts_count errors]. lia.
Qed.

Lemma runDeltaPull_loop_within :
  forall (S : Type) (runner : DeltaRunner S) (scope : Scope) (collectionKey : string)
         (fuel : nat) (locals : PullLocals) (s s' : S) (w w' : World)
         (stats : DeltaPullStats),
    stats_within runner (pl_stats locals) ->
    runDeltaPull_loop fuel runner scope collectionKey locals s w = (s', w', Ok stats) ->
    stats_within runner stats.
Proof.
  intros S runner scope collectionKey fuel.
  induction fuel as [| fuel IH]; intros locals s s' w w' stats Hin Hrun.
  - cbn in Hrun. inversion Hrun; subst. exact Hin.
  - cbn [runDeltaPull_loop] in Hrun.
    destruct (pl_hasMore locals
              && (pagesPulled (pl_stats locals) <? maxPagesPerRun runner)%nat)%bool
      eqn:Hcond; cbn [negb] in Hrun; [| inversion Hrun; subst; exact Hin].
    apply andb_true_iff in Hcond. destruct Hcond as [_ Hlt].
    apply Nat.ltb_lt in Hlt.
    destruct Hin as [Hp Hc].
    destruct (pullChanges (dr_adapter runner) s scope collectionKey (currentCursor locals))
      as [s1 [response | e]]; [| discriminate].
    set (st1 := mkDeltaPullStats (Datatypes.S (pagesPulled (pl_stats locals)))
                                 (totalChanges (pl_stats locals)
                                  + length (changes response))
                                 (totalApplied (pl_stats locals))
                                 (totalConflicts (pl_stats locals))
                                 (totalErrors (pl_stats locals))) in *.
    assert (Hst1 : stats_within runner st1).
    { split; cbn; lia. }
    assert (Hnext : forall st2 w1,
               stats_within runner st2 ->
               match setCursor scope collectionKey (nextCursor response) w1 with
               | (w2, Err e) => (s1, w2, Err e)
               | (w2, Ok _) =>
                   if ((length (changes response) =? 0)%nat
                       && negb match hasMore response with
                               | Some b => b
                               | None => false
                               end)%bool
                   then (s1, w2, Ok st2)
                   else
                     runDeltaPull_loop fuel runner scope collectionKey
                       (mkPullLocals st2 (nextCursor response)
                                     match hasMore response with
                                     | Some b => b
                                     | None => false
                                     end) s1 w2
               end = (s', w', Ok stats) ->
               stats_within runner stats).
    { intros st2 w1 Hst2 H.
      destruct (setCursor scope collectionKey (nextCursor response) w1)
        as [w2 [[] | e]]; [| discriminate].
      destruct ((length (changes response) =? 0)%nat
                && negb match hasMore response with
                        | Some b => b
                        | None => false
                        end)%bool.
      - inversion H; subst. exact Hst2.
      - eapply IH; [| exact H]. exact Hst2. }
    destruct (dr_handler runner) as [handler |].
    + destruct (0 <? length (changes response))%nat.
      * destruct (applyChanges (changes response) handler
                               (mkApplyOptions (Some scope) (dr_conflictDetector runner)) w)
          as [w1 [result | e]] eqn:Happly; [| discriminate].
        pose proof (applyChanges_counts_le _ _ _ _ _ _ Happly) as Hle.
        assert (Hst2 : stats_within runner
                         (mkDeltaPullStats
                            (pagesPulled st1) (totalChanges st1)
                            (totalApplied st1 + applied result)
                            (totalConflicts st1 + conflicts_count result)
                            (totalErrors st1 + length (errors result)))).
        { split; cbn; lia. }
        destruct (0 <? length (errors result))%nat.
        -- inversion Hrun; subst. exact Hst2.
        -- eapply Hnext; [exact Hst2 | exact Hrun].
      * eapply Hnext; [exact Hst1 | exact Hrun].
    + eapply Hnext; [exact Hst1 | exact Hrun].
Qed.

(** X18. The loop of [runDeltaPull] keeps the page limit by its own test
    on the pages pulled.  Started with no more than [maxPagesPerRun] pages
    counted, and with whatever number of turns it is allowed (also far more
    than [maxPagesPerRun]), a run that returns has pulled at most
    [maxPagesPerRun] pages, whatever the adapter answers (also one that
    always reports more); and the changes it reports as applied, as
    conflicts and as errors are together no more than the changes it
    pulled.  [runDeltaPull] itself is the loop with any larger number of
    turns: it never stops for lack of them; so the same bounds hold of
    every run of [runDeltaPull] that returns. *)
Theorem runDeltaPull_within_page_limit :
  forall (S : Type) (runner : DeltaRunner S) (scope : Scope) (collectionKey : string)
         (fuel : nat) (locals : PullLocals) (s s' : S) (w w' : World)
         (stats : DeltaPullStats),
    (pagesPulled (pl_stats locals) <= maxPagesPerRun runner)%nat ->
    (totalApplied (pl_stats locals) + totalConflicts (pl_stats locals)
     + totalErrors (pl_stats locals) <= totalChanges (pl_stats locals))%nat ->
    runDeltaPull_loop fuel runner scope collectionKey locals s w = (s', w', Ok stats) ->
    (pagesPulled stats <= maxPagesPerRun runner)%nat
    /\ (totalApplied stats + totalConflicts stats + totalErrors stats
        <= totalChanges stats)%nat
    /\ (forall (extra : nat) (cursor : string) (s0 : S) (w0 : World),
         runDeltaPull_loop (maxPagesPerRun runner + extra) runner scope collectionKey
                           (mkPullLocals (mkDeltaPullStats 0 0 0 0 0) cursor true) s0 w0
         = runDeltaPull_loop (maxPagesPerRun runner) runner scope collectionKey
                             (mkPullLocals (mkDeltaPullStats 0 0 0 0 0) cursor true) s0 w0)
    /\ (forall (s0 s1 : S) (w0 w1 : World) (stats1 : DeltaPullStats),
           runDeltaPull runner scope collectionKey s0 w0 = (s1, w1, Ok stats1) ->
           (pagesPulled stats1 <= maxPagesPerRun runner)%nat
           /\ (totalApplied stats1 + totalConflicts stats1 + totalErrors stats1
               <= totalChanges stats1)%nat).
Proof.
  intros S runner scope collectionKey fuel locals s s' w w' stats Hp Hc Hrun.
  destruct (runDeltaPull_loop_within S runner scope collectionKey fuel locals
                                     s s' w w' stats (conj Hp Hc) Hrun) as [H1 H2].
  split; [exact H1 |]. split; [exact H2 |].
  split.
  - intros extra cursor s0 w0.
    induction extra as [| extra IH].
    + rewrite Nat.add_0_r. reflexivity.
    + rewrite <- IH, Nat.add_succ_r. symmetry.
      apply runDeltaPull_loop_fuel. cbn. lia.
  - intros s0 s1 w0 w1 stats1 Hpull.
    unfold runDeltaPull in Hpull.
    destruct (getCursor scope collectionKey w0) as [w00 [cursor | e]];
      [| discriminate].
    eapply runDeltaPull_loop_within; [| exact Hpull].
    split; cbn; lia.
Qed.

(** An adapter that always has more, a limit of three pages and a hundred
    turns allowed: three pages are pulled. *)
Lemma runDeltaPull_within_page_limit_witness :
  let runner := mkDeltaRunner endless_adapter None 3 None in
  let start := mkPullLocals (mkDeltaPullStats 0 0 0 0 0) "0" true in
  let run :=
    runDeltaPull_loop 100 runner globalScope "items" start tt
                      (world_of emptyDB (1 # 2)) in
  snd run = Ok (mkDeltaPullStats 3 3 0 0 0)
  /\ (pagesPulled (mkDeltaPullStats 3 3 0 0 0) <= maxPagesPerRun runner)%nat.
Proof.
  cbv zeta.
  split; [vm_compute; reflexivity |].
  match goal with
  | |- (pagesPulled ?st <= maxPagesPerRun ?runner)%nat =>
      destruct (runDeltaPull_within_page_limit
                  unit runner globalScope "items" 100
                  (mkPullLocals (mkDeltaPullStats 0 0 0 0 0) "0" true) tt
                  (fst (fst (runDeltaPull_loop
                               100 runner globalScope "items"
                               (mkPullLocals (mkDeltaPullStats 0 0 0 0 0) "0" true) tt
                               (world_of emptyDB (1 # 2)))))
                  (world_of emptyDB (1 # 2))
                  (snd (fst (runDeltaPull_loop
                               100 runner globalScope "items"
                               (mkPullLocals (mkDeltaPullStats 0 0 0 0 0) "0" true) tt
                               (world_of emptyDB (1 # 2)))))
                  st) as [H _]
  end.
  - cbn. lia.
  - cbn. lia.
  - vm_compute. reflexivity.
  - exact H.
Defined.

(** X19. A run whose first page is the last one (the adapter does not
    report more) and applies without an error: [runDeltaPull] pulls that one
    page, stores its [nextCursor], and returns; the next run starts from
    that cursor. *)
Theorem runDeltaPull_last_page_advances_cursor :
  forall (S : Type) (runner : DeltaRunner S) (scope : Scope) (collectionKey : string)
         (s s1 : S) (w : World) (response : DeltaPullResponse),
    (0 < maxPagesPerRun runner)%nat ->
    match snd (getCursor scope collectionKey w) with
    | Ok cursor =>
        pullChanges (dr_adapter runner) s scope collectionKey cursor = (s1, Ok response)
    | Err _ => False
    end ->
    hasMore response <> Some true ->
    page_applies runner scope response w ->
    exists (w' : World) (stats : DeltaPullStats),
      runDeltaPull runner scope collectionKey s w = (s1, w', Ok stats)
      /\ pagesPulled stats = 1%nat
      /\ totalChanges stats = length (changes response)
      /\ snd (getCursor scope collectionKey w') = Ok (nextCursor response).
Proof.
  intros S runner scope collectionKey s s1 w response Hmax Hpull Hlast Hpage.
  unfold runDeltaPull.
  assert (Hget : getCursor scope collectionKey w
                 = (w, snd (getCursor scope collectionKey w))).
  { unfold getCursor, bind, getDB, ret. cbv beta iota zeta.
    destruct (find _ _); reflexivity. }
  rewrite Hget.
  destruct (snd (getCursor scope collectionKey w)) as [cursor | e]; [| contradiction].
  destruct (maxPagesPerRun runner) as [| fuel] eqn:Hfuel; [lia |].
  cbn [runDeltaPull_loop pl_hasMore pl_stats pagesPulled currentCursor andb].
  rewrite Hfuel.
  replace (0 <? Datatypes.S fuel)%nat with true by reflexivity.
  cbn [negb]. rewrite Hpull.
  assert (Hmore : match hasMore response with Some b => b | None => false end = false).
  { destruct (hasMore response) as [[|] |]; congruence. }
  assert (Hnext : forall st2 w1,
             pagesPulled st2 = 1%nat ->
             totalChanges st2 = length (changes response) ->
             exists w' stats,
               match setCursor scope collectionKey (nextCursor response) w1 with
               | (w2, Err e) => (s1, w2, Err e)
               | (w2, Ok _) =>
                   if ((length (changes response) =? 0)%nat
                       && negb match hasMore response with
                               | Some b => b
                               | None => false
                               end)%bool
                   then (s1, w2, Ok st2)
                   else
                     runDeltaPull_loop fuel runner scope collectionKey
                       (mkPullLocals st2 (nextCursor response)
                                     match hasMore response with
                                     | Some b => b
                                     | None => false
                                     end) s1 w2
               end = (s1, w', Ok stats)
               /\ pagesPulled stats = 1%nat
               /\ totalChanges stats = length (changes response)
               /\ snd (getCursor scope collectionKey w') = Ok (nextCursor response)).
  { intros st2 w1 Hp Ht.
    pose proof (getCursor_after_setCursor scope scope collectionKey collectionKey
                                          (nextCursor response) w1) as Hrt.
    rewrite !String.eqb_refl in Hrt. cbn [andb] in Hrt.
    destruct (setCursor scope collectionKey (nextCursor response) w1)
      as [w2 [[] | e]] eqn:Hset.
    - cbn [fst] in Hrt. rewrite Hmore.
      destruct ((length (changes response) =? 0)%nat && negb false)%bool.
      + exists w2, st2. auto.
      + exists w2, st2. split; [| auto].
        destruct fuel; cbn [runDeltaPull_loop pl_hasMore pl_stats andb negb];
          reflexivity.
    - exfalso. unfold setCursor, bind, nowMs, getDB, putDB in Hset.
      cbv beta iota zeta in Hset.
      destruct (existsb _ _) in Hset; discriminate. }
  unfold page_applies, pull_options in Hpage.
  destruct (dr_handler runner) as [handler |].
  - destruct (0 <? length (changes response))%nat.
    + destruct (applyChanges (changes response) handler
                             (mkApplyOptions (Some scope) (dr_conflictDetector runner)) w)
        as [w1 [result | e]]; cbn [snd] in Hpage; [| contradiction].
      rewrite Hpage. cbn [length Nat.ltb Nat.leb].
      apply Hnext; reflexivity.
    + apply Hnext; reflexivity.
  - apply Hnext; reflexivity.
Qed.

Lemma runDeltaPull_last_page_advances_cursor_witness :
  let runner := mkDeltaRunner one_page_adapter None 10 None in
  exists (w' : World) (stats : DeltaPullStats),
    runDeltaPull runner globalScope "items" tt (world_of emptyDB (1 # 2))
    = (tt, w', Ok stats)
    /\ pagesPulled stats = 1%nat
    /\ totalChanges stats = 2%nat
    /\ snd (getCursor globalScope "items" w') = Ok "cursor-1".
Proof.
  cbv zeta.
  apply (runDeltaPull_last_page_advances_cursor
           unit (mkDeltaRunner one_page_adapter None 10 None) globalScope "items"
           tt tt (world_of emptyDB (1 # 2))
           (mkDeltaPullResponse
              [Delete "example_items" "a" 1; Delete "example_items" "b" 2]
              "cursor-1" (Some false))).
  - cbn. lia.
  - reflexivity.
  - discriminate.
  - exact I.
Defined.

(** ** Handlers *)

Lemma filter_negb_then_nil :
  forall (A : Type) (f : A -> bool) (l : list A),
    filter f (filter (fun x => negb (f x)) l) = [].
Proof.
  intros A f l.
  induction l as [| x xs IH]; cbn; [reflexivity |].
  destruct (f x) eqn:Hf; cbn; [| rewrite Hf]; exact IH.
Qed.

(** X20. [ExampleDeltaHandler.applyUpsert] does not compare with what is
    stored: after an upsert of an item (with data other than [null]) the
    table has exactly one row for the id, and that row is the same whatever
    the table held before, also when it held a row with a later
    [updated_at].  The rows of other ids are as they were. *)
Theorem ExampleDeltaHandler_applyUpsert_overwrites :
  forall (ToNumber : json -> option Z) (entityId : string) (data : json)
         (updatedAt : Z) (w1 w2 : World),
    data <> JNull ->
    let after w :=
      fst (ExampleDeltaHandler_applyUpsert ToNumber "example_items" entityId data
                                           updatedAt w) in
    items_with_id entityId (after w1) = items_with_id entityId (after w2)
    /\ length (items_with_id entityId (after w1)) = 1%nat
    /\ items_without_id entityId (after w1) = items_without_id entityId w1
    /\ snd (ExampleDeltaHandler_applyUpsert ToNumber "example_items" entityId data
                                            updatedAt w1) = Ok tt.
Proof.
  intros ToNumber entityId data updatedAt w1 w2 Hdata. cbv zeta.
  unfold items_with_id, items_without_id, ExampleDeltaHandler_applyUpsert.
  cbn [String.eqb Ascii.eqb Bool.eqb negb].
  destruct data; try contradiction;
    unfold bind, getDB, putDB, ret; cbv beta iota zeta;
    cbn [fst snd db set_db example_items set_example_items];
    rewrite !filter_app, !filter_negb_then_nil, filter_idem;
    cbn [filter item_id app]; rewrite String.eqb_refl; cbn [negb app length];
    rewrite app_nil_r; auto.
Qed.

(** A stored row of time 5000, then an upsert of time 1000: the row of time
    1000 is what is stored. *)
Lemma ExampleDeltaHandler_applyUpsert_overwrites_witness :
  let stored :=
    mkDB [] [] [] [mkExampleItemRow "a" (JStr "new") (JNum 5000) (JNum 1)] in
  let upsert :=
    ExampleDeltaHandler_applyUpsert (fun _ => None) "example_items" "a"
                                    (JObj [("name", JStr "old")]) 1000 in
  items_with_id "a" (fst (upsert (world_of stored (1 # 2))))
  = [mkExampleItemRow "a" (JStr "old") (JNum 1000) (JNum 1000)]
  /\ items_with_id "a" (fst (upsert (world_of stored (1 # 2))))
     = items_with_id "a" (fst (upsert (world_of emptyDB (1 # 2)))).
Proof.
  cbv zeta.
  split; [vm_compute; reflexivity |].
  apply (ExampleDeltaHandler_applyUpsert_overwrites
           (fun _ => None) "a" (JObj [("name", JStr "old")]) 1000).
  discriminate.
Defined.

Lemma CompositeDeltaHandler_get_unregistered :
  forall (handlers : list (string * DeltaChangeHandler)) (k : string),
    ~ In k (map fst handlers) -> CompositeDeltaHandler_get handlers k = None.
Proof.
  intros handlers k Hk.
  induction handlers as [| [k' h'] rest IH]; cbn; [reflexivity |].
  rewrite IH by (intros H; apply Hk; right; exact H).
  destruct (String.eqb k' k) eqn:E; [| reflexivity].
  apply String.eqb_eq in E. exfalso. apply Hk. left. exact E.
Qed.

Lemma CompositeDeltaHandler_get_last :
  forall (before after : list (string * DeltaChangeHandler)) (k : string)
         (h : DeltaChangeHandler),
    ~ In k (map fst after) ->
    CompositeDeltaHandler_get (before ++ (k, h) :: after)%list k = Some h.
Proof.
  intros before after k h Hk.
  induction before as [| [k' h'] rest IH]; cbn.
  - rewrite (CompositeDeltaHandler_get_unregistered after k Hk).
    rewrite String.eqb_refl. reflexivity.
  - cbn in IH. rewrite IH. reflexivity.
Qed.

(** X21. [CompositeDeltaHandler] keeps one handler for an entity key, the
    last one registered for it: an upsert or a delete of that key goes to
    that handler, with the same arguments, and to no handler registered for
    the key earlier. *)
Theorem CompositeDeltaHandler_last_registration_wins :
  forall (before after : list (string * DeltaChangeHandler)) (k : string)
         (h : DeltaChangeHandler) (entityId : string) (data : json) (updatedAt : Z),
    ~ In k (map fst after) ->
    let composite := CompositeDeltaHandler (before ++ (k, h) :: after)%list in
    applyUpsert composite k entityId data updatedAt
    = applyUpsert h k entityId data updatedAt
    /\ applyDelete composite k entityId updatedAt
       = applyDelete h k entityId updatedAt.
Proof.
  intros before after k h entityId data updatedAt Hk. cbv zeta.
  unfold CompositeDeltaHandler, CompositeDeltaHandler_applyUpsert,
    CompositeDeltaHandler_applyDelete.
  cbn [applyUpsert applyDelete].
  rewrite (CompositeDeltaHandler_get_last before after k h Hk).
  split; reflexivity.
Qed.

Lemma CompositeDeltaHandler_last_registration_wins_witness :
  let h := ExampleDeltaHandler (fun _ => None) in
  let composite :=
    CompositeDeltaHandler [("example_items", throwing_handler); ("example_items", h)] in
  applyUpsert composite "example_items" "a" (JObj []) 7
  = applyUpsert h "example_items" "a" (JObj []) 7
  /\ applyDelete composite "example_items" "a" 7
     = applyDelete h "example_items" "a" 7.
Proof.
  cbv zeta.
  apply (CompositeDeltaHandler_last_registration_wins
           [("example_items", throwing_handler)] []
           "example_items" (ExampleDeltaHandler (fun _ => None)) "a" (JObj []) 7).
  intros [].
Defined.

(** ** Scope keys *)

Lemma append_colon_inj :
  forall t1 t2 i1 i2 : string,
    no_colon t1 = true -> no_colon t2 = true ->
    t1 ++ String ":" i1 = t2 ++ String ":" i2 ->
    t1 = t2 /\ i1 = i2.
Proof.
  induction t1 as [| c t1 IH]; intros t2 i1 i2 H1 H2 E.
  - destruct t2 as [| d t2]; cbn in E.
    + inversion E. auto.
    + inversion E; subst. cbn in H2. discriminate.
  - destruct t2 as [| d t2]; cbn in E.
    + inversion E; subst. cbn in H1. discriminate.
    + inversion E; subst.
      cbn in H1, H2.
      apply andb_true_iff in H1. apply andb_true_iff in H2.
      destruct (IH t2 i1 i2 (proj2 H1) (proj2 H2) H3) as [Et Ei].
      subst. auto.
Qed.

Lemma append_colon_has_colon :
  forall t i : string, no_colon (t ++ String ":" i) = false.
Proof.
  induction t as [| c t IH]; intros i; cbn; [reflexivity |].
  rewrite IH. apply andb_false_r.
Qed.

(** X22. On plain scopes [scopeKey] is injective: two of them with one key
    are the same scope.  (The collisions of [scopeKey] need a type with a
    colon, an empty id, or an id on the global scope.) *)
Theorem scopeKey_injective_on_plain_scopes :
  forall s1 s2 : Scope,
    plain_scope s1 = true -> plain_scope s2 = true ->
    scopeKey s1 = scopeKey s2 ->
    s1 = s2.
Proof.
  intros [t1 i1] [t2 i2] H1 H2 E.
  unfold plain_scope, scopeKey, truthy_string in *.
  cbn [scope_type scope_id append] in *.
  destruct (String.eqb t1 "global") eqn:G1; destruct (String.eqb t2 "global") eqn:G2.
  - apply String.eqb_eq in G1, G2. subst.
    destruct i1, i2; try discriminate. reflexivity.
  - exfalso. apply andb_true_iff in H2. destruct H2 as [Hc2 Hi2].
    destruct i2 as [i2 |].
    + rewrite Hi2 in E.
      pose proof (append_colon_has_colon t2 i2) as Hcol.
      rewrite <- E in Hcol. discriminate.
    + subst t2. discriminate.
  - exfalso. apply andb_true_iff in H1. destruct H1 as [Hc1 Hi1].
    destruct i1 as [i1 |].
    + rewrite Hi1 in E.
      pose proof (append_colon_has_colon t1 i1) as Hcol.
      rewrite E in Hcol. discriminate.
    + subst t1. discriminate.
  - apply andb_true_iff in H1. destruct H1 as [Hc1 Hi1].
    apply andb_true_iff in H2. destruct H2 as [Hc2 Hi2].
    destruct i1 as [i1 |]; destruct i2 as [i2 |];
      rewrite ?Hi1, ?Hi2 in E.
    + destruct (append_colon_inj t1 t2 i1 i2 Hc1 Hc2 E). subst. reflexivity.
    + exfalso. pose proof (append_colon_has_colon t1 i1) as Hcol.
      rewrite E in Hcol. congruence.
    + exfalso. pose proof (append_colon_has_colon t2 i2) as Hcol.
      rewrite <- E in Hcol. congruence.
    + subst. reflexivity.
Qed.

Lemma scopeKey_injective_on_plain_scopes_witness :
  mkScope "project" (Some "p1") = mkScope "project" (Some "p1").
Proof.
  apply (scopeKey_injective_on_plain_scopes
           (mkScope "project" (Some "p1")) (mkScope "project" (Some "p1")));
    reflexivity.
Defined.

(** ** [LIKE] and the lookup of an entity's ops *)

Lemma string_app_assoc :
  forall a b c : string, (a ++ b) ++ c = a ++ (b ++ c).
Proof.
  induction a as [| x a IH]; intros b c; cbn; [reflexivity |].
  rewrite IH. reflexivity.
Qed.

(** The pattern [%] matches every text. *)
Lemma sql_like_percent :
  forall s : string, sql_like "%" s = true.
Proof.
  induction s as [| c s IH]; [reflexivity |].
  cbn in *. exact IH.
Qed.

(** A pattern that starts with [%] matches a text when its rest matches
    some end of the text. *)
Lemma sql_like_percent_skip :
  forall (p a s : string),
    sql_like p s = true -> sql_like (String "%" p) (a ++ s) = true.
Proof.
  intros p a s H.
  induction a as [| c a IH].
  - cbn [append]. destruct s; cbn; cbn in H; rewrite H; reflexivity.
  - cbn [append]. cbn in IH |- *. rewrite IH. apply orb_true_r.
Qed.

Lemma like_char_eq_refl : forall c, like_char_eq c c = true.
Proof. intros c. unfold like_char_eq. apply Ascii.eqb_refl. Qed.

(** A pattern matches its own text, followed by what the rest of the
    pattern matches: a character of the pattern, wildcard or not, matches
    itself. *)
Lemma sql_like_prefix :
  forall (p q t : string),
    sql_like q t = true -> sql_like (p ++ q) (p ++ t) = true.
Proof.
  induction p as [| c p IH]; intros q t H; [exact H |].
  specialize (IH q t H).
  destruct (Ascii.eqb c "%") eqn:Ec.
  - apply Ascii.eqb_eq in Ec. subst c.
    change (String "%" p ++ q) with (String "%" (p ++ q)).
    change (String "%" p ++ t) with ("%" ++ (p ++ t)).
    apply sql_like_percent_skip. exact IH.
  - cbn [append sql_like]. rewrite Ec.
    destruct (Ascii.eqb c "_"); [exact IH |].
    rewrite like_char_eq_refl. exact IH.
Qed.

(** A text that contains [p] matches [%p%]. *)
Lemma sql_like_contains :
  forall (p a b : string), sql_like ("%" ++ p ++ "%") (a ++ p ++ b) = true.
Proof.
  intros p a b.
  change ("%" ++ p ++ "%") with (String "%" (p ++ "%")).
  apply sql_like_percent_skip.
  apply sql_like_prefix. apply sql_like_percent.
Qed.

Lemma entity_id_pattern_text :
  forall entityId,
    Outbox.entity_id_pattern entityId = "%" ++ id_field_text entityId ++ "%".
Proof.
  intros entityId.
  unfold Outbox.entity_id_pattern, id_field_text.
  rewrite !string_app_assoc. reflexivity.
Qed.

(** X23. The lookups of an entity's ops miss no op whose payload text
    holds ["id":"<entityId>"]: with such a row of the scope and the entity
    key, pending or in flight, [hasPendingOpsForEntity] returns [true],
    [getPendingOpsForEntity] returns the row, and the default conflict
    detector holds an upsert of the entity back. *)
Theorem hasPendingOpsForEntity_finds_id_field :
  forall (scope : Scope) (entityKey entityId : string) (w : World) (op : OutboxOp)
         (a b : string),
    In op (outbox_ops (db w)) ->
    op_scopeKey op = scopeKey scope ->
    op_entityKey op = entityKey ->
    op_state op = Pending \/ op_state op = InFlight ->
    op_payloadJson op = a ++ id_field_text entityId ++ b ->
    Outbox.hasPendingOpsForEntity scope entityKey entityId w = (w, Ok true)
    /\ (exists ops,
           Outbox.getPendingOpsForEntity scope entityKey entityId w = (w, Ok ops)
           /\ In op ops)
    /\ (forall data updatedAt localVersion,
           DefaultConflictDetector_shouldApplyChange
             scope (Upsert entityKey entityId data updatedAt) localVersion w
           = (w, Ok false)).
Proof.
  intros scope entityKey entityId w op a b Hin Hsk Hek Hst Hpl.
  assert (Hop : Outbox.pending_for_entity (scopeKey scope) entityKey entityId op = true).
  { unfold Outbox.pending_for_entity.
    rewrite Hsk, Hek, !String.eqb_refl, Hpl, entity_id_pattern_text, sql_like_contains.
    destruct Hst as [E | E]; rewrite E; reflexivity. }
  assert (Hhas : Outbox.hasPendingOpsForEntity scope entityKey entityId w = (w, Ok true)).
  { unfold Outbox.hasPendingOpsForEntity, bind, getDB, ret. cbv beta iota zeta.
    rewrite count_positive_iff_existsb.
    rewrite (existsb_of_In _ _ _ op Hin Hop). reflexivity. }
  split; [exact Hhas |].
  split.
  - eexists. split.
    + unfold Outbox.getPendingOpsForEntity, bind, getDB, ret. cbv beta iota zeta.
      reflexivity.
    + apply (Permutation_in _ (order_by_is_Permutation _ _ _)).
      apply filter_In. split; assumption.
  - intros data updatedAt localVersion.
    unfold DefaultConflictDetector_shouldApplyChange, bind.
    rewrite Hhas. reflexivity.
Qed.

Lemma hasPendingOpsForEntity_finds_id_field_witness :
  let payload := JObj [("name", JStr "n"); ("id", JStr "42")] in
  let w :=
    fst (Outbox.enqueue (mkEnqueueOptions globalScope "items" OpUpsert payload None)
                        (world_of emptyDB (1 # 2))) in
  Outbox.hasPendingOpsForEntity globalScope "items" "42" w = (w, Ok true)
  /\ (exists ops,
         Outbox.getPendingOpsForEntity globalScope "items" "42" w = (w, Ok ops)
         /\ In (hd failing_row (outbox_ops (db w))) ops)
  /\ (forall data updatedAt localVersion,
         DefaultConflictDetector_shouldApplyChange
           globalScope (Upsert "items" "42" data updatedAt) localVersion w
         = (w, Ok false)).
Proof.
  cbv zeta.
  match goal with
  | |- Outbox.hasPendingOpsForEntity _ _ _ ?w = _ /\ _ =>
      apply (hasPendingOpsForEntity_finds_id_field
               globalScope "items" "42" w (hd failing_row (outbox_ops (db w)))
               (String "{" (String dquote "name" ++ String dquote ":"
                            ++ String dquote "n" ++ String dquote ","))
               "}")
  end.
  - left. reflexivity.
  - reflexivity.
  - reflexivity.
  - left. reflexivity.
  - vm_compute. reflexivity.
Defined.

(** ** The key-value store *)

Lemma find_filter_implied :
  forall (A : Type) (g h : A -> bool) (l : list A),
    (forall x, g x = true -> h x = true) ->
    find g (filter h l) = find g l.
Proof.
  intros A g h l H.
  induction l as [| x xs IH]; cbn; [reflexivity |].
  destruct (h x) eqn:Hh; cbn.
  - destruct (g x); [reflexivity | exact IH].
  - destruct (g x) eqn:Hg; [| exact IH].
    apply H in Hg. congruence.
Qed.

Lemma find_filter_negb_none :
  forall (A : Type) (f : A -> bool) (l : list A),
    find f (filter (fun x => negb (f x)) l) = None.
Proof.
  intros A f l.
  induction l as [| x xs IH]; cbn; [reflexivity |].
  destruct (f x) eqn:Hf; cbn; [| rewrite Hf]; exact IH.
Qed.

Lemma key_eqb_other :
  forall key key' r,
    String.eqb key' key = false ->
    String.eqb (kv_key r) key' = true ->
    negb (String.eqb (kv_key r) key) = true.
Proof.
  intros key key' r Hne H.
  apply String.eqb_eq in H. rewrite H, Hne. reflexivity.
Qed.

(** X25. [setKV] then [getKV]: a value whose JSON text parses back to it
    is read back under its key, the key is reported present, and the table
    holds one row for it; every other key reads and reports as before.
    After [deleteKV] the key reads [null] and is reported absent. *)
Theorem setKV_getKV_round_trip :
  forall (parse : string -> option json) (key : string) (value : json)
         (timestamp : Z) (table : list KVRow),
    parse (JSON_stringify value) = Some value ->
    let table' := setKV key value timestamp table in
    getKV parse key table' = value
    /\ hasKV key table' = true
    /\ length (filter (fun r => String.eqb (kv_key r) key) table') = 1%nat
    /\ (forall key',
          String.eqb key' key = false ->
          getKV parse key' table' = getKV parse key' table
          /\ hasKV key' table' = hasKV key' table)
    /\ getKV parse key (deleteKV key table') = JNull
    /\ hasKV key (deleteKV key table') = false.
Proof.
  intros parse key value timestamp table Hparse. cbv zeta.
  unfold getKV, hasKV, setKV, deleteKV.
  split.
  { rewrite find_app_snoc, find_filter_negb_none. cbn.
    rewrite String.eqb_refl. cbn.
    unfold safeJsonDecode, safeJsonEncode. rewrite Hparse. reflexivity. }
  assert (Hone : length (filter (fun r => String.eqb (kv_key r) key)
                           (filter (fun r => negb (String.eqb (kv_key r) key)) table
                            ++ [mkKVRow key (safeJsonEncode value) timestamp]))
                 = 1%nat).
  { rewrite filter_app, filter_negb_then_nil. cbn. rewrite String.eqb_refl.
    reflexivity. }
  split; [rewrite Hone; reflexivity |].
  split; [exact Hone |].
  split.
  { intros key' Hne. split.
    - rewrite find_app_snoc.
      rewrite find_filter_implied by (intros r; apply key_eqb_other; exact Hne).
      destruct (find (fun r => String.eqb (kv_key r) key') table); [reflexivity |].
      cbn. rewrite String.eqb_sym, Hne. reflexivity.
    - rewrite filter_app. rewrite filter_filter_implied
        by (intros r; apply key_eqb_other; exact Hne).
      cbn. rewrite (String.eqb_sym key key'), Hne, app_nil_r. reflexivity. }
  split.
  - rewrite find_filter_negb_none. reflexivity.
  - rewrite filter_negb_then_nil. reflexivity.
Qed.

Lemma setKV_getKV_round_trip_witness :
  let value := JObj [("theme", JStr "dark")] in
  getKV (JSON_parse_known [value]) "settings" (setKV "settings" value 1000 []) = value.
Proof.
  cbv zeta.
  apply (setKV_getKV_round_trip
           (JSON_parse_known [JObj [("theme", JStr "dark")]]) "settings"
           (JObj [("theme", JStr "dark")]) 1000 []).
  reflexivity.
Defined.

(** ** The stub adapters *)

Lemma Map_get_set_same :
  forall (L : Type) (m : list (string * L)) (k : string) (v : L),
    Map_get (Map_set m k v) k = Some v.
Proof.
  intros L m k v.
  induction m as [| [k' v'] rest IH]; cbn.
  - rewrite String.eqb_refl. reflexivity.
  - destruct (String.eqb k' k) eqn:E; cbn; rewrite E; [reflexivity | exact IH].
Qed.

Lemma Map_get_delete_same :
  forall (L : Type) (m : list (string * L)) (k : string),
    Map_get (Map_delete m k) k = None.
Proof.
  intros L m k. unfold Map_delete.
  induction m as [| [k' v'] rest IH]; cbn; [reflexivity |].
  destruct (String.eqb k' k) eqn:E; cbn; [| rewrite E]; exact IH.
Qed.

Lemma Map_set_length :
  forall (L : Type) (m : list (string * L)) (k : string) (v : L),
    length (Map_set m k v)
    = match Map_get m k with
      | Some _ => length m
      | None => Datatypes.S (length m)
      end.
Proof.
  intros L m k v.
  induction m as [| [k' v'] rest IH]; cbn; [reflexivity |].
  destruct (String.eqb k' k); cbn; [reflexivity |].
  rewrite IH. destruct (Map_get rest k); reflexivity.
Qed.

(** X26. [StubSignalAdapter] keeps one listener for a key.  Of two
    listeners attached for scopes with one key the second replaces the
    first: a signal reaches the second only, and the count of listeners
    does not grow.  The unsubscribe function of the first, called late,
    removes the second: no signal is delivered for the scope any more. *)
Theorem StubSignalAdapter_one_listener_per_key :
  forall (L : Type) (st : StubSignalState L) (scope1 scope2 : Scope)
         (first second : L),
    signalKey scope1 = signalKey scope2 ->
    let st1 := fst (StubSignalAdapter_attach st scope1 first) in
    let unsubscribe1 := snd (StubSignalAdapter_attach st scope1 first) in
    let st2 := fst (StubSignalAdapter_attach st1 scope2 second) in
    StubSignalAdapter_triggerSignal st2 scope1
    = Some (match signal_behavior st with
            | SignalError =>
                CallOnError second
                  (mkOpError "stub_signal_error" "Stub adapter: simulated signal error")
            | SignalSucceed => CallOnSignal second
            end)
    /\ StubSignalAdapter_getListenerCount st2 = StubSignalAdapter_getListenerCount st1
    /\ StubSignalAdapter_triggerSignal (StubSignalAdapter_unsubscribe st2 unsubscribe1)
                                       scope2
       = None.
Proof.
  intros L st scope1 scope2 first second Hkey. cbv zeta.
  unfold StubSignalAdapter_attach, StubSignalAdapter_triggerSignal,
    StubSignalAdapter_unsubscribe, StubSignalAdapter_getListenerCount.
  cbn [fst snd listeners signal_behavior].
  rewrite <- Hkey.
  split; [rewrite Map_get_set_same; destruct (signal_behavior st); reflexivity |].
  split.
  - rewrite Map_set_length, Map_get_set_same. reflexivity.
  - rewrite Map_get_delete_same. reflexivity.
Qed.

Lemma StubSignalAdapter_one_listener_per_key_witness :
  let scope := mkScope "project" (Some "p1") in
  let st : StubSignalState nat := mkStubSignalState [] SignalSucceed in
  let st1 := fst (StubSignalAdapter_attach st scope 1%nat) in
  let st2 := fst (StubSignalAdapter_attach st1 scope 2%nat) in
  StubSignalAdapter_triggerSignal st2 scope = Some (CallOnSignal 2%nat)
  /\ StubSignalAdapter_getListenerCount st2 = StubSignalAdapter_getListenerCount st1
  /\ StubSignalAdapter_triggerSignal
       (StubSignalAdapter_unsubscribe st2 (signalKey scope)) scope
     = None.
Proof.
  cbv zeta.
  apply (StubSignalAdapter_one_listener_per_key
           nat (mkStubSignalState [] SignalSucceed)
           (mkScope "project" (Some "p1")) (mkScope "project" (Some "p1"))
           1%nat 2%nat).
  reflexivity.
Defined.

Lemma stub_push_steady :
  forall (ops : list OutboxOpPayload),
    stub_push StubFailThenSucceed 1 ops = (1%nat, map (fun op => PushSucceeded (pl_id op)) ops).
Proof.
  induction ops as [| op rest IH]; cbn; [reflexivity |].
  cbn in IH. rewrite IH. reflexivity.
Qed.

(** X27. A [StubOutboxAdapter] set to fail then succeed fails one op in
    all: the first op of the first batch that is not empty, reported as
    retryable; every other op of that batch and of all later batches is
    reported succeeded, one result for an op, in the order given. *)
Theorem StubOutboxAdapter_fails_first_op_only :
  forall (scope : Scope) (op : OutboxOpPayload) (rest later : list OutboxOpPayload),
    let st0 := StubOutboxAdapter_setBehavior (StubSucceed, 5%nat) StubFailThenSucceed in
    let first_call := pushOps StubOutboxAdapter st0 scope (op :: rest) in
    snd first_call
    = Ok (PushFailed (pl_id op) true
                     (mkOpError "stub_error"
                                "Stub adapter: fail then succeed (attempt 1)")
          :: map (fun o => PushSucceeded (pl_id o)) rest)
    /\ snd (pushOps StubOutboxAdapter (fst first_call) scope later)
       = Ok (map (fun o => PushSucceeded (pl_id o)) later)
    /\ pushOps StubOutboxAdapter st0 scope [] = (st0, Ok []).
Proof.
  intros scope op rest later. cbv zeta.
  unfold StubOutboxAdapter_setBehavior, StubOutboxAdapter.
  cbn [pushOps fst snd stub_push stub_push_one Nat.ltb Nat.leb].
  rewrite stub_push_steady.
  cbn [fst snd]. rewrite stub_push_steady.
  repeat split; reflexivity.
Qed.

(** ** Blocked ops *)

Section BlockedRow.

Variable op0 : OutboxOp.
Hypothesis op0_blocked : op_state op0 = Blocked.

Let kept (w : World) : Prop := row_kept op0 (db w).

Lemma resetStaleInFlight_keeps_blocked :
  forall scope, hoare kept (Outbox.resetStaleInFlight scope) (fun _ => kept) kept.
Proof.
  intros scope w Hk.
  unfold Outbox.resetStaleInFlight, Outbox.resetStaleInFlight_with,
    bind, nowMs, getDB, putDB, ret.
  cbn [db set_db]. unfold kept. cbn [db set_db].
  apply row_kept_update; [exact Hk | | reflexivity].
  rewrite op0_blocked. cbn. rewrite andb_false_r. reflexivity.
Qed.

Lemma claimByIds_keeps_blocked :
  forall ids, hoare kept (Outbox.claimByIds ids) (fun _ => kept) kept.
Proof.
  intros ids w Hk.
  destruct ids as [| i ids]; [exact Hk |].
  unfold Outbox.claimByIds, bind, nowMs, getDB, putDB, ret.
  cbn [db set_db]. unfold kept. cbn [db set_db].
  apply row_kept_update; [exact Hk | | reflexivity].
  rewrite op0_blocked. cbn. apply andb_false_r.
Qed.

Lemma getPending_avoids_blocked :
  forall scope limit,
    hoare kept (Outbox.getPending scope limit)
          (fun ops w => kept w /\ avoids op0 ops) kept.
Proof.
  intros scope limit w Hk.
  unfold Outbox.getPending, bind, getDB, ret.
  split; [exact Hk |].
  intros r Hr Heq.
  apply In_firstn in Hr.
  apply (Permutation_in _ (Permutation_sym (order_by_is_Permutation _ _ _))) in Hr.
  apply filter_In in Hr. destruct Hr as [Hin Hcond].
  destruct Hk as [Hin0 Hnd].
  assert (r = op0) by (eapply NoDup_map_inj; eauto).
  subst r. rewrite op0_blocked in Hcond. cbn in Hcond.
  rewrite andb_false_r in Hcond. discriminate.
Qed.

Lemma selectReadyOps_avoids_blocked :
  forall cfg scope,
    hoare kept (selectReadyOps cfg scope)
          (fun ready w =>
             kept w /\ match ready with
                       | Some ops => avoids op0 ops
                       | None => True
                       end)
          kept.
Proof.
  intros cfg scope. unfold selectReadyOps.
  eapply hoare_bind; [apply resetStaleInFlight_keeps_blocked |]. intros ?.
  eapply hoare_bind; [apply getPending_avoids_blocked |]. intros pendingOps.
  destruct (length pendingOps =? 0)%nat.
  { apply hoare_ret. intros w [Hk _]. split; [exact Hk | exact I]. }
  apply hoare_pure_r. intros Hav.
  eapply hoare_bind.
  { apply forEachM_inv. intros r Hr. apply updateState_keeps.
    apply Hav. apply filter_In in Hr. exact (proj1 Hr). }
  intros ?.
  eapply hoare_bind.
  { apply (filterM_inv (row_kept op0)). intros r. apply isBackoffElapsed_reads_only. }
  intros elapsed.
  assert (Hready : forall w,
             kept w
             /\ incl elapsed
                     (filter (fun op => op_attemptCount op <? maxAttempts cfg) pendingOps)
             /\ (NoDup (map op_id
                            (filter (fun op => op_attemptCount op <? maxAttempts cfg)
                                    pendingOps)) ->
                 NoDup (map op_id elapsed)) ->
             avoids op0 (firstn (batchSize cfg) elapsed)).
  { intros w [_ [Hincl _]] r Hr. apply Hav.
    apply In_firstn in Hr. apply Hincl in Hr.
    apply filter_In in Hr. exact (proj1 Hr). }
  destruct (length (firstn (batchSize cfg) elapsed) =? 0)%nat.
  { apply hoare_ret. intros w [Hk _]. split; [exact Hk | exact I]. }
  intros w Hpre.
  pose proof (Hready w Hpre) as Hav'.
  destruct Hpre as [Hk _].
  pose proof (claimByIds_keeps_blocked (map op_id (firstn (batchSize cfg) elapsed)) w Hk)
    as Hc.
  unfold bind.
  destruct (Outbox.claimByIds (map op_id (firstn (batchSize cfg) elapsed)) w)
    as [w' [[] | e]]; [| exact Hc].
  simpl. split; assumption.
Qed.

Lemma claimPending_avoids_blocked :
  forall scope limit,
    hoare kept (Outbox.claimPending scope limit)
          (fun claimed w => kept w /\ avoids op0 claimed) kept.
Proof.
  intros scope limit. unfold Outbox.claimPending.
  eapply hoare_bind; [apply resetStaleInFlight_keeps_blocked |]. intros ?.
  eapply hoare_bind; [apply getPending_avoids_blocked |]. intros pending.
  apply hoare_pure_r. intros Hav.
  eapply hoare_bind; [apply claimByIds_keeps_blocked |]. intros ?.
  intros w Hk.
  unfold Outbox.getByIds.
  destruct (map op_id pending) as [| i ids] eqn:Hids.
  - simpl. split; [exact Hk |]. intros r [].
  - unfold bind, getDB, ret. split; [exact Hk |].
    intros r Hr.
    apply filter_In in Hr. destruct Hr as [_ Hid].
    unfold id_in in Hid. apply existsb_exists in Hid.
    destruct Hid as [j [Hj Heq]]. apply String.eqb_eq in Heq. subst j.
    rewrite <- Hids in Hj. apply in_map_iff in Hj.
    destruct Hj as [q [Hq Hinq]]. rewrite <- Hq. apply Hav. exact Hinq.
Qed.

End BlockedRow.

(** X28. A blocked op stays as it is.  [processBatch] and [claimPending]
    do not select a row in the state [blocked], do not push it, and leave
    the row in the table unchanged (state, attempt count, error and times),
    whatever the adapter answers for the other ops. *)
Theorem processBatch_leaves_blocked_rows :
  forall (parse : string -> option json) (S : Type) (p : OutboxProcessor S)
         (scope : Scope) (limit : nat) (w : World) (op0 : OutboxOp),
    unique_ids w ->
    In op0 (outbox_ops (db w)) ->
    op_state op0 = Blocked ->
    In op0 (outbox_ops (db (snd (fst (processBatch parse p scope w)))))
    /\ match selectReadyOps (config p) scope w with
       | (_, Ok (Some ready)) => ~ In (op_id op0) (map op_id ready)
       | _ => True
       end
    /\ match Outbox.claimPending scope limit w with
       | (w', Ok claimed) =>
           In op0 (outbox_ops (db w')) /\ ~ In (op_id op0) (map op_id claimed)
       | (w', Err _) => In op0 (outbox_ops (db w'))
       end.
Proof.
  intros parse S p scope limit w op0 Hnd Hin Hblocked.
  set (cfg := config p).
  assert (Hkept : row_kept op0 (db w)) by (split; assumption).
  pose proof (selectReadyOps_avoids_blocked op0 Hblocked cfg scope w Hkept) as Hsel.
  assert (Hnotin : forall ready, avoids op0 ready -> ~ In (op_id op0) (map op_id ready)).
  { intros ready Hav Hi. apply in_map_iff in Hi. destruct Hi as [r [Hr Hinr]].
    exact (Hav r Hinr Hr). }
  split; [| split].
  - unfold processBatch.
    destruct (isProcessing p); [exact Hin |].
    fold cfg.
    destruct (selectReadyOps cfg scope w) as [w1 [[ready |] | e]];
      try (simpl; exact (proj1 Hsel)); try (simpl; exact (proj1 (proj1 Hsel))).
    destruct Hsel as [Hk1 Hav].
    destruct (pushOps (adapter p) (adapterState p) scope (map (toAdapterOp parse) ready))
      as [s' [results | e]]; [| simpl; exact (proj1 Hk1)].
    pose proof (reconcile_keeps op0 cfg results ready Hav w1 Hk1) as Hrec.
    destruct (reconcile cfg results ready w1) as [w2 [n | e]]; simpl; exact (proj1 Hrec).
  - destruct (selectReadyOps cfg scope w) as [w1 [[ready |] | e]]; try exact I.
    apply Hnotin. exact (proj2 Hsel).
  - pose proof (claimPending_avoids_blocked op0 Hblocked scope limit w Hkept) as Hcp.
    destruct (Outbox.claimPending scope limit w) as [w' [claimed | e]].
    + destruct Hcp as [Hk Hav]. split; [exact (proj1 Hk) | apply Hnotin; exact Hav].
    + exact (proj1 Hcp).
Qed.


(** The rows are blocked, and still there after a second batch, with an
    adapter that would accept them. *)
Lemma processBatch_leaves_blocked_rows_witness :
  let accepting := newOutboxProcessor StubOutboxAdapter (StubSucceed, 0%nat) DEFAULT_CONFIG in
  let op0 := hd failing_row (outbox_ops (db blocked_world)) in
  op_state op0 = Blocked
  /\ In op0 (outbox_ops
               (db (snd (fst (processBatch (JSON_parse_known []) accepting
                                           globalScope blocked_world))))).
Proof.
  cbv zeta.
  split; [vm_compute; reflexivity |].
  match goal with
  | |- In ?op0 (outbox_ops (db (snd (fst (processBatch ?parse ?p ?scope ?w1))))) =>
      destruct (processBatch_leaves_blocked_rows
                  parse (StubBehavior * nat) p scope 10%nat w1 op0) as [H _]
  end.
  - vm_compute. repeat constructor; cbn; intuition discriminate.
  - vm_compute. left. reflexivity.
  - vm_compute; reflexivity.
  - exact H.
Defined.

(** ** The stub pull adapter under the runner *)

Lemma getCursor_reads :
  forall scope collectionKey w,
    getCursor scope collectionKey w = (w, snd (getCursor scope collectionKey w)).
Proof.
  intros scope collectionKey w.
  unfold getCursor, bind, getDB, ret. cbv beta iota zeta.
  destruct (find _ _); reflexivity.
Qed.

Lemma setCursor_returns :
  forall scope collectionKey cursor w,
    setCursor scope collectionKey cursor w
    = (fst (setCursor scope collectionKey cursor w), Ok tt).
Proof.
  intros scope collectionKey cursor w.
  unfold setCursor, bind, nowMs, getDB, putDB. cbv beta iota zeta.
  destruct (existsb _ _); reflexivity.
Qed.

(** X29. A fresh [StubDeltaAdapter] set to ['paginated'] under a runner
    without a handler that may pull two pages or more: one run pulls two
    pages, the first with one change and the second empty, calls the
    adapter twice, and leaves the cursor of the second page stored. *)
Theorem runDeltaPull_paginated_stub :
  forall (scope : Scope) (collectionKey : string) (st : StubDeltaState) (w : World)
         (maxPages : nat),
    sd_behavior st = DeltaPaginated ->
    sd_callCount st = 0%nat ->
    (2 <= maxPages)%nat ->
    let runner := mkDeltaRunner StubDeltaAdapter None maxPages None in
    exists (st' : StubDeltaState) (w' : World),
      runDeltaPull runner scope collectionKey st w
      = (st', w', Ok (mkDeltaPullStats 2 1 0 0 0))
      /\ sd_callCount st' = 2%nat
      /\ sd_behavior st' = DeltaPaginated
      /\ snd (getCursor scope collectionKey w')
         = Ok ("cursor_page_2_" ++ Z_to_string (sd_now st 3)).
Proof.
  intros scope collectionKey st w maxPages Hb Hc Hmax. cbv zeta.
  destruct maxPages as [| [| fuel]]; try lia.
  unfold runDeltaPull. rewrite getCursor_reads.
  destruct (snd (getCursor scope collectionKey w)) as [cursor | e] eqn:Hcur.
  2: { unfold getCursor, bind, getDB, ret in Hcur. cbv beta iota zeta in Hcur.
       destruct (find _ _) in Hcur; discriminate. }
  cbn [runDeltaPull_loop pl_hasMore pl_stats pagesPulled currentCursor andb negb
       maxPagesPerRun dr_adapter dr_handler Nat.ltb Nat.leb].
  unfold StubDeltaAdapter at 1. cbn [pullChanges].
  unfold StubDeltaAdapter_pullChanges at 1. rewrite Hb, Hc.
  cbn [Nat.eqb changes nextCursor hasMore length Nat.ltb Nat.leb andb negb].
  rewrite setCursor_returns.
  cbn [Nat.eqb andb negb].
  destruct fuel as [| fuel];
    cbn [runDeltaPull_loop pl_hasMore pl_stats pagesPulled currentCursor andb negb
         maxPagesPerRun dr_adapter dr_handler Nat.ltb Nat.leb totalChanges totalApplied
         totalConflicts totalErrors Nat.add];
    unfold StubDeltaAdapter at 1; cbn [pullChanges];
    unfold StubDeltaAdapter_pullChanges at 1;
    cbn [sd_called sd_behavior sd_callCount]; rewrite Hb, Hc;
    cbn [Nat.eqb changes nextCursor hasMore length Nat.ltb Nat.leb andb negb];
    rewrite setCursor_returns;
    cbn [Nat.eqb andb negb Nat.add];
    (eexists; eexists; split; [reflexivity |]);
    (split; [cbn [sd_called sd_callCount]; rewrite Hc; reflexivity |]);
    (split; [cbn [sd_called sd_behavior]; exact Hb |]);
    rewrite getCursor_after_setCursor, !String.eqb_refl; cbn [andb];
    unfold sd_now; cbn [sd_clock sd_clock_reads];
    rewrite Nat.add_0_r; reflexivity.
Qed.

Lemma runDeltaPull_paginated_stub_witness :
  let st := mkStubDeltaState DeltaPaginated 0 (fun n => 100 * Z.of_nat n) 0 in
  exists (st' : StubDeltaState) (w' : World),
    runDeltaPull (mkDeltaRunner StubDeltaAdapter None 10 None) globalScope "items" st
                 (world_of emptyDB (1 # 2))
    = (st', w', Ok (mkDeltaPullStats 2 1 0 0 0))
    /\ sd_callCount st' = 2%nat
    /\ sd_behavior st' = DeltaPaginated
    /\ snd (getCursor globalScope "items" w') = Ok "cursor_page_2_300".
Proof.
  cbv zeta.
  apply (runDeltaPull_paginated_stub
           globalScope "items"
           (mkStubDeltaState DeltaPaginated 0 (fun n => 100 * Z.of_nat n) 0)
           (world_of emptyDB (1 # 2)) 10).
  - reflexivity.
  - reflexivity.
  - lia.
Defined.
